(** * A unified storage contract over a filesystem and two object stores

    Shallow embedding of [storage.go] (package [storage]): the backend
    selector [GetStorage], the key helpers, and the operations of the three
    backends [LocalStorage], [OSSStorage] and [MinIOStorage] that the
    checked properties are about.

    Conventions.
    - Go strings are byte strings: [string]; file and object contents are
      [list byte].
    - [int64] is [Z]; the one arithmetic expression of the code,
      [offset+size-1], is written with its wrap-around ([wrap64]).
    - A method on a backend that touches the filesystem or the bucket takes
      the state of that world and returns the new one (explicit state
      passing). An [error] result is [option error] ([None] is Go's [nil]).
    - The standard library ([path/filepath], [os], [io]) and the two client
      libraries are outside the repository; they are modelled in the
      modules [filepath], [os], [io], [http], [store], [oss] and [minio]
      below, after their documented behaviour on a Unix host.
    - A goroutine that feeds a pipe is modelled by what the pipe delivers:
      it reads the filesystem as the call finds it. *)

From Stdlib Require Import ZArith Lia Ascii String List Bool.
From Stdlib Require Import Strings.Byte.
From stdpp Require Import base option list strings gmap.

Local Open Scope string_scope.
Local Open Scope list_scope.

(** ** Errors and results *)

Inductive error : Type :=
| ENOENT                      (* no such file or directory *)
| ENOTDIR                     (* a path component is not a directory *)
| EISDIR                      (* the path names a directory *)
| ENOTEMPTY                   (* directory not empty *)
| EINVAL                      (* invalid argument (negative seek) *)
| NoSuchKey                   (* the object store has no such object *)
| InvalidRange                (* HTTP 416 *)
| InvalidArgument             (* rejected by the client library *)
| ServiceError (code : string)        (* any other failure of the service *)
| ReaderError (code : string)         (* failure of a caller-supplied reader *)
| Unsupported (msg : string)          (* fmt.Errorf(msg), no cause *)
| Errorf (msg : string) (cause : error). (* fmt.Errorf(msg + "%v", cause) *)

Inductive Result (A : Type) : Type :=
| Ok (a : A)
| Err (e : error).
Arguments Ok {A} a.
Arguments Err {A} e.

(** [time.Time], as the number of nanoseconds since the zero instant. *)
Definition Time := Z.
Definition IsZero (t : Time) : bool := (t =? 0)%Z.

(** [int64] arithmetic. *)
Definition wrap64 (z : Z) : Z := ((z + 2 ^ 63) mod 2 ^ 64 - 2 ^ 63)%Z.

(** ** Strings *)

(** [strings.HasPrefix(s, prefix)]. *)
Definition HasPrefix (s pre : string) : bool := String.prefix pre s.

(** [s[n:]] for [n <= len(s)]. *)
Fixpoint string_drop (n : nat) (s : string) : string :=
  match n, s with
  | O, _ => s
  | S n', String _ s' => string_drop n' s'
  | S _, EmptyString => EmptyString
  end.

(** The last byte of a string, if any: [s[len(s)-1]]. *)
Fixpoint last_byte (s : string) : option ascii :=
  match s with
  | EmptyString => None
  | String c EmptyString => Some c
  | String _ s' => last_byte s'
  end.

Definition ends_with_separator (s : string) : bool :=
  match last_byte s with
  | Some c => Ascii.eqb c "/"%char
  | None => false
  end.

(** ** [path/filepath] on a Unix host *)

Module filepath.

  (** The elements of a path: the substrings between separators. *)
Fixpoint split_acc (cur : string) (p : string) : list string :=
    match p with
    | EmptyString => [cur]
    | String c p' =>
        if Ascii.eqb c "/"%char
        then cur :: split_acc EmptyString p'
        else split_acc (cur ++ String c EmptyString) p'
    end.

Definition elements (p : string) : list string := split_acc EmptyString p.

Definition rooted (p : string) : bool :=
    match p with
    | String c _ => Ascii.eqb c "/"%char
    | EmptyString => false
    end.

  (** One element processed by [Clean]; [out] holds the elements written so
      far, the last one first. An empty element and [.] are dropped; [..]
      removes the last real element, is kept in front of a relative path
      that has none, and is dropped at the root. *)
Definition clean_step (isRooted : bool) (out : list string) (e : string)
    : list string :=
    if String.eqb e "" then out
    else if String.eqb e "." then out
    else if String.eqb e ".." then
      match out with
      | top :: below =>
          if String.eqb top ".." then e :: out else below
      | [] => if isRooted then out else [e]
      end
    else e :: out.

Fixpoint join_elements (es : list string) : string :=
    match es with
    | [] => ""
    | [e] => e
    | e :: es' => e ++ "/" ++ join_elements es'
    end.

  (** [filepath.Clean]. *)
Definition Clean (path : string) : string :=
    if String.eqb path "" then "."
    else
      let r := rooted path in
      let out := rev (fold_left (clean_step r) (elements path) []) in
      let body := join_elements out in
      if r then "/" ++ body
      else if String.eqb body "" then "." else body.

  (** [filepath.Join(a, b)]: the elements from the first non-empty one on,
      separated by [/], then cleaned; empty when both are empty. *)
Definition Join (a b : string) : string :=
    if negb (String.eqb a "") then Clean (a ++ "/" ++ b)
    else if negb (String.eqb b "") then Clean b
    else "".

  (** The path up to and including its last separator. *)
Fixpoint upto_last_separator (p : string) : string :=
    match p with
    | EmptyString => EmptyString
    | String c p' =>
        let rest := upto_last_separator p' in
        if String.eqb rest "" then
          (if Ascii.eqb c "/"%char then String c EmptyString else EmptyString)
        else String c rest
    end.

  (** [filepath.Dir]. *)
Definition Dir (path : string) : string := Clean (upto_last_separator path).

End filepath.


(** ** Data model *)

(** [StorageType] and its three constants. *)
Definition StorageType := string.

Module StorageType.
Definition Local : StorageType := "local".
Definition OSS : StorageType := "oss".
Definition MinIO : StorageType := "minio".
End StorageType.

Record FileMetadata : Type := {
  Name : string;
  Size : Z;
  ModTime : Time;
  IsDir : bool;
  MIMEType : string
}.

Module LocalStorageConfig.
Record t : Type := mk { BasePath : string }.
End LocalStorageConfig.

Module OSSStorageConfig.
Record t : Type := mk {
    Endpoint : string;
    AccessKeyID : string;
    AccessKeySecret : string;
    Bucket : string;
    BaseDir : string
  }.
End OSSStorageConfig.

Module MinIOStorageConfig.
Record t : Type := mk {
    Endpoint : string;
    AccessKeyID : string;
    AccessKeySecret : string;
    UseSSL : bool;
    Bucket : string;
    BaseDir : string
  }.
End MinIOStorageConfig.

Module Types.
Record t : Type := mk {
    Mode : StorageType;
    AssignMode : StorageType;
    MaxSize : Z;
    Local : LocalStorageConfig.t;
    Minio : MinIOStorageConfig.t;
    Oss : OSSStorageConfig.t
  }.

  (** The zero value [Types{}]. *)
Definition zero : t :=
    mk "" "" 0
       (LocalStorageConfig.mk "")
       (MinIOStorageConfig.mk "" "" "" false "" "")
       (OSSStorageConfig.mk "" "" "" "" "").
End Types.

(** A backend instance: what the [Storage] interface value points to. *)
Inductive Storage : Type :=
| LocalStorage (config : LocalStorageConfig.t)
| OSSStorage (config : OSSStorageConfig.t)
| MinIOStorage (config : MinIOStorageConfig.t).

(** ** The backend selector *)

Definition StorageOption := Types.t -> Types.t.

Definition WithLocalConfig (config : LocalStorageConfig.t) : StorageOption :=
  fun s =>
    Types.mk StorageType.Local (Types.AssignMode s) (Types.MaxSize s)
             config (Types.Minio s) (Types.Oss s).

Definition WithMinIOConfig (config : MinIOStorageConfig.t) : StorageOption :=
  fun s =>
    Types.mk StorageType.MinIO (Types.AssignMode s) (Types.MaxSize s)
             (Types.Local s) config (Types.Oss s).

Definition WithOSSConfig (config : OSSStorageConfig.t) : StorageOption :=
  fun s =>
    Types.mk StorageType.OSS (Types.AssignMode s) (Types.MaxSize s)
             (Types.Local s) (Types.Minio s) config.

Definition WithMode (mode : StorageType) : StorageOption :=
  fun s =>
    Types.mk mode (Types.AssignMode s) (Types.MaxSize s)
             (Types.Local s) (Types.Minio s) (Types.Oss s).

Definition WithAssignMode (mode : StorageType) : StorageOption :=
  fun s =>
    Types.mk (Types.Mode s) mode (Types.MaxSize s)
             (Types.Local s) (Types.Minio s) (Types.Oss s).

Definition WithMaxSize (maxSize : Z) : StorageOption :=
  fun s =>
    Types.mk (Types.Mode s) (Types.AssignMode s) maxSize
             (Types.Local s) (Types.Minio s) (Types.Oss s).

Section Selector.

  (** What the host answers: [os.TempDir()], and whether the two client
      constructors reach their service ([oss.New] and [client.Bucket];
      [minio.New], [BucketExists] and [MakeBucket]). *)
Variable TempDir : string.
Variable oss_connects : OSSStorageConfig.t -> bool.
Variable minio_connects : MinIOStorageConfig.t -> bool.

Definition DefaultStorageOptions : list StorageOption :=
    [ WithMode StorageType.Local;
      WithLocalConfig (LocalStorageConfig.mk TempDir) ].

Definition NewLocalStorage (config : LocalStorageConfig.t) : option Storage :=
    Some (LocalStorage config).

Definition NewOSSStorage (config : OSSStorageConfig.t) : option Storage :=
    if oss_connects config then Some (OSSStorage config) else None.

Definition NewMinIOStorage (config : MinIOStorageConfig.t) : option Storage :=
    if minio_connects config then Some (MinIOStorage config) else None.

  (** [GetStorage]. The receiver is a pointer, so the configuration as the
      call leaves it is part of the result. The second component is the pair
      the Go function returns; [None] is the nil [Storage].

      In the branch for two unset modes the code assigns the default options
      to its local variable [opts]; the options were applied before, in the
      loop at the top, and [opts] is not read again. *)
Definition GetStorage (s : Types.t) (opts : list StorageOption)
    : Types.t * (string * option Storage) :=
    let s := fold_left (fun s opt => opt s) opts s in
    let '(s, opts) :=
      if String.eqb (Types.AssignMode s) "" && negb (String.eqb (Types.Mode s) "")
      then (WithAssignMode (Types.Mode s) s, opts)
      else if String.eqb (Types.AssignMode s) "" && String.eqb (Types.Mode s) ""
      then (s, DefaultStorageOptions)
      else (s, opts) in
    if String.eqb (Types.AssignMode s) StorageType.MinIO then
      let c := Types.Minio s in
      if String.eqb (MinIOStorageConfig.BaseDir c) ""
         || String.eqb (MinIOStorageConfig.Endpoint c) ""
         || String.eqb (MinIOStorageConfig.AccessKeyID c) ""
         || String.eqb (MinIOStorageConfig.AccessKeySecret c) ""
         || String.eqb (MinIOStorageConfig.Bucket c) ""
      then (s, ("", None))
      else (s, (MinIOStorageConfig.BaseDir c, NewMinIOStorage c))
    else if String.eqb (Types.AssignMode s) StorageType.OSS then
      let c := Types.Oss s in
      if String.eqb (OSSStorageConfig.BaseDir c) ""
         || String.eqb (OSSStorageConfig.Endpoint c) ""
         || String.eqb (OSSStorageConfig.AccessKeyID c) ""
         || String.eqb (OSSStorageConfig.AccessKeySecret c) ""
         || String.eqb (OSSStorageConfig.Bucket c) ""
      then (s, ("", None))
      else (s, (OSSStorageConfig.BaseDir c, NewOSSStorage c))
    else
      let c := Types.Local s in
      if String.eqb (LocalStorageConfig.BasePath c) ""
      then (s, ("", None))
      else (s, (LocalStorageConfig.BasePath c, NewLocalStorage c)).

End Selector.

(** ** Key helpers *)

(** [ensureOSSDirPath]: a non-empty path gets a trailing [/] if it has none. *)
Definition ensureOSSDirPath (path : string) : string :=
  match last_byte path with
  | Some c => if Ascii.eqb c "/"%char then path else path ++ "/"
  | None => path
  end.

(** [isDirectoryPlaceholder]. *)
Definition isDirectoryPlaceholder (key dirPath : string) : bool :=
  String.eqb key dirPath || String.eqb key (dirPath ++ "/").

(** ** Byte streams

    An [io.Reader] as its consumer sees it: the bytes it yields, then
    [io.EOF] ([failure = None]) or an error. [handle] is the identity of the
    underlying pipe or response body when the value also implements
    [io.Closer]; a reader the caller built from memory has none. *)

Record Reader : Type := {
  handle : option nat;
  content : list byte;
  failure : option error
}.

(** [bytes.NewReader(b)], [strings.NewReader(s)]. *)
Definition NewReader (b : list byte) : Reader :=
  {| handle := None; content := b; failure := None |}.

(** The closable streams a process holds: those opened and not yet closed,
    and the next fresh identity. *)
Record Handles : Type := {
  live : gset nat;
  next : nat
}.

Definition no_handles : Handles := {| live := ∅; next := 0 |}.

Definition open_handle (h : Handles) : nat * Handles :=
  (next h, {| live := {[ next h ]} ∪ live h; next := S (next h) |}).

Definition close_handle (id : nat) (h : Handles) : Handles :=
  {| live := live h ∖ {[ id ]}; next := next h |}.

(** [r.(io.Closer)] followed by [Close()]. *)
Definition close_reader (r : Reader) (h : Handles) : Handles :=
  match handle r with
  | Some id => close_handle id h
  | None => h
  end.

(** [s[lo:hi]] on contents, for [Z] bounds. *)
Definition slice (c : list byte) (lo hi : Z) : list byte :=
  take (Z.to_nat (hi - lo)) (drop (Z.to_nat lo) c).

(** ** The filesystem, as package [os] shows it *)

Module os.

Inductive node : Type :=
| File (data : list byte) (mtime : Time)
| Directory (mtime : Time).

(** The tree is a finite map from cleaned paths to nodes; [.] and [/] always
    exist. [now] is the time a write stamps on a file. *)
Record FS : Type := {
  nodes : gmap string node;
  now : Time
}.

Definition set_nodes (m : gmap string node) (fs : FS) : FS :=
  {| nodes := m; now := now fs |}.

Definition implicit_dir (p : string) : bool :=
  String.eqb p "." || String.eqb p "/".

(** [os.Stat]. *)
Definition Stat (p : string) (fs : FS) : Result node :=
  match nodes fs !! p with
  | Some n => Ok n
  | None => if implicit_dir p then Ok (Directory 0%Z) else Err ENOENT
  end.

(** The directories on the way to [p], outermost first, [p] itself last. *)
Fixpoint ancestors_from (pre : string) (es : list string) : list string :=
  match es with
  | [] => []
  | e :: es' =>
      let here := (pre ++ e)%string in
      here :: ancestors_from (here ++ "/") es'
  end.

Definition ancestors (p : string) : list string :=
  if implicit_dir p then []
  else
    ancestors_from (if filepath.rooted p then "/" else "")
                   (filter (fun e => negb (String.eqb e "") = true)
                           (filepath.elements p)).

Fixpoint mkdir_each (ps : list string) (fs : FS) : FS * option error :=
  match ps with
  | [] => (fs, None)
  | p :: ps' =>
      match nodes fs !! p with
      | Some (Directory _) => mkdir_each ps' fs
      | Some (File _ _) => (fs, Some ENOTDIR)
      | None => mkdir_each ps' (set_nodes (<[p := Directory (now fs)]> (nodes fs)) fs)
      end
  end.

(** [os.MkdirAll]: creates the missing directories on the way to [p]; fails
    when a file is in the way. *)
Definition MkdirAll (p : string) (fs : FS) : FS * option error :=
  mkdir_each (ancestors p) fs.

(** [os.Create]: creates or truncates the file. The empty path names
    nothing; a directory cannot be opened for writing; the parent has to be
    a directory. *)
Definition Create (p : string) (fs : FS) : FS * option error :=
  if String.eqb p "" then (fs, Some ENOENT) else
  match Stat p fs with
  | Ok (Directory _) => (fs, Some EISDIR)
  | _ =>
      match Stat (filepath.Dir p) fs with
      | Ok (Directory _) =>
          (set_nodes (<[p := File [] (now fs)]> (nodes fs)) fs, None)
      | Ok (File _ _) => (fs, Some ENOTDIR)
      | Err e => (fs, Some e)
      end
  end.

(** [file.Write] on the file just created: appends to its data. *)
Definition Write (p : string) (b : list byte) (fs : FS) : FS :=
  match nodes fs !! p with
  | Some (File d _) => set_nodes (<[p := File (d ++ b) (now fs)]> (nodes fs)) fs
  | _ => fs
  end.

(** [os.Open]: the node the handle refers to. *)
Definition Open (p : string) (fs : FS) : Result node := Stat p fs.

(** The entries below directory [p]. *)
Definition children (p : string) (fs : FS) : list string :=
  filter (fun k => HasPrefix k (p ++ "/") = true) (map fst (map_to_list (nodes fs))).

(** [os.Remove]: a file, or an empty directory. *)
Definition Remove (p : string) (fs : FS) : FS * option error :=
  match nodes fs !! p with
  | None => (fs, Some ENOENT)
  | Some (File _ _) => (set_nodes (delete p (nodes fs)) fs, None)
  | Some (Directory _) =>
      match children p fs with
      | [] => (set_nodes (delete p (nodes fs)) fs, None)
      | _ :: _ => (fs, Some ENOTEMPTY)
      end
  end.

(** [os.Chtimes(p, t, t)]. *)
Definition Chtimes (p : string) (t : Time) (fs : FS) : FS * option error :=
  match nodes fs !! p with
  | None => (fs, Some ENOENT)
  | Some (File d _) => (set_nodes (<[p := File d t]> (nodes fs)) fs, None)
  | Some (Directory _) => (set_nodes (<[p := Directory t]> (nodes fs)) fs, None)
  end.

(** Two errors of the host the error type has no constructor for, by their
    message. *)
Definition EEXIST : error := Unsupported "file exists".
Definition EBUSY : error := Unsupported "device or resource busy".

(** Whether [k] is the path [p] or lies below it. *)
Definition at_or_below (p k : string) : bool :=
  String.eqb k p || HasPrefix k (p ++ "/").

(** Where the node at [k] is after the tree at [old] has moved to [new]. *)
Definition moved_key (old new k : string) : string :=
  if String.eqb k old then new
  else if HasPrefix k (old ++ "/") then (new ++ string_drop (String.length old) k)%string
  else k.

Definition move_tree (old new : string) (m : gmap string node)
  : gmap string node :=
  list_to_map (map (fun kn => (moved_key old new (fst kn), snd kn))
                   (map_to_list m)).

(** [os.Rename]. A new name that is an existing directory is refused before
    the system call; the system call needs the old name to exist and the
    parent of the new name to be a directory, replaces a file at the new
    name, and moves a directory with all that is below it. *)
Definition Rename (old new : string) (fs : FS) : FS * option error :=
  match Stat new fs, Stat old fs with
  | Ok (Directory _), Err e => (fs, Some e)
  | Ok (Directory _), Ok _ => (fs, Some EEXIST)
  | _, Err e => (fs, Some e)
  | newInfo, Ok n =>
      if String.eqb new "" then (fs, Some ENOENT)
      else if implicit_dir old then (fs, Some EBUSY)
      else
        match Stat (filepath.Dir new) fs with
        | Err e => (fs, Some e)
        | Ok (File _ _) => (fs, Some ENOTDIR)
        | Ok (Directory _) =>
            match n with
            | File d t =>
                (set_nodes (<[new := File d t]> (delete old (nodes fs))) fs, None)
            | Directory _ =>
                match newInfo with
                | Ok (File _ _) => (fs, Some ENOTDIR)
                | _ =>
                    if HasPrefix new (old ++ "/") then (fs, Some EINVAL)
                    else (set_nodes (move_tree old new (nodes fs)) fs, None)
                end
            end
        end
  end.

(** [endsWithDot]: the path is [.] or ends in [/.]. *)
Definition endsWithDot (p : string) : bool :=
  String.eqb p "."
  || ((2 <=? String.length p)%nat
      && String.eqb (string_drop (String.length p - 2) p) "/.").

(** Whether a regular file is on the way to the cleaned path [p], where a
    directory has to be. *)
Definition file_on_the_way (p : string) (fs : FS) : bool :=
  existsb (fun a => match nodes fs !! a with
                    | Some (File _ _) => true
                    | _ => false
                    end)
          (removelast (ancestors p)).

(** [os.RemoveAll] on a cleaned path: nothing for the empty path, refused
    for a path that ends in a dot; on the root everything goes and the root
    itself cannot be removed; a file on the way is an error; otherwise the
    path and all that is below it are gone, and a path that names nothing is
    no error. *)
Definition RemoveAll (p : string) (fs : FS) : FS * option error :=
  if String.eqb p "" then (fs, None)
  else if endsWithDot p then (fs, Some EINVAL)
  else if String.eqb p "/" then (set_nodes ∅ fs, Some EBUSY)
  else if file_on_the_way p fs then (fs, Some ENOTDIR)
  else
    (set_nodes (filter (fun kn => at_or_below p (fst kn) = false) (nodes fs)) fs,
     None).

End os.

(** ** Package [io] *)

Module io.

(** What reading an open file from position [pos] yields. *)
Definition read_from (n : os.node) (pos : Z) : list byte * option error :=
  match n with
  | os.File d _ => (drop (Z.to_nat pos) d, None)
  | os.Directory _ => ([], Some EISDIR)
  end.

(** [io.LimitReader(r, n)]: at most [n] bytes of [r]; nothing for [n <= 0].
    An error of [r] is seen only if it comes before the limit. *)
Definition LimitReader (r : list byte * option error) (n : Z)
  : list byte * option error :=
  if (n <=? 0)%Z then ([], None)
  else if (Z.of_nat (length (fst r)) <? n)%Z then r
  else (take (Z.to_nat n) (fst r), None).

End io.

(** ** The batch coordinator

    The three backends carry the same three loops, up to the log messages;
    each calls the single-item method of its own receiver. The loops are
    written once here over the single-item operations and instantiated per
    backend below.

    [BatchUpload] ranges over a Go map: [files] lists its entries in the
    order the runtime happens to visit them (the keys are distinct).
    [BatchDownload] collects its readers in the map [results]; a second
    reader for the same path replaces the first one there. *)

Section BatchCoordinator.

Context {World : Type}.
Variable Upload : string -> Reader -> World -> World * option error.
Variable Download : string -> World -> World * Result Reader.
Variable Delete : string -> World -> World * option error.
Variable Close : Reader -> World -> World.

Fixpoint BatchUpload (files : list (string * Reader)) (w : World)
  : World * option error :=
  match files with
  | [] => (w, None)
  | (filePath, reader) :: rest =>
      match Upload filePath reader w with
      | (w1, Some err) => (w1, Some err)
      | (w1, None) => BatchUpload rest w1
      end
  end.

Fixpoint BatchDelete (filePaths : list string) (w : World)
  : World * option error :=
  match filePaths with
  | [] => (w, None)
  | filePath :: rest =>
      match Delete filePath w with
      | (w1, Some err) => (w1, Some err)
      | (w1, None) => BatchDelete rest w1
      end
  end.

(** [for _, r := range results { closer.Close() }] *)
Definition close_results (results : gmap string Reader) (w : World) : World :=
  foldr (fun kr w => Close (snd kr) w) w (map_to_list results).

Fixpoint BatchDownload_from (filePaths : list string)
  (results : gmap string Reader) (w : World)
  : World * Result (gmap string Reader) :=
  match filePaths with
  | [] => (w, Ok results)
  | filePath :: rest =>
      match Download filePath w with
      | (w1, Err err) => (close_results results w1, Err err)
      | (w1, Ok reader) =>
          BatchDownload_from rest (<[filePath := reader]> results) w1
      end
  end.

Definition BatchDownload (filePaths : list string) (w : World)
  : World * Result (gmap string Reader) :=
  BatchDownload_from filePaths ∅ w.

End BatchCoordinator.

(** ** The filesystem backend *)

Module LocalStorage.

Import LocalStorageConfig.

(** What the backend acts on: the filesystem, and the pipes its downloads
    have handed out. *)
Record World : Type := {
  fs : os.FS;
  pipes : Handles
}.

Definition set_fs (f : os.FS) (w : World) : World :=
  {| fs := f; pipes := pipes w |}.

Definition Upload (s : t) (filePath : string) (reader : Reader) (w : World)
  : World * option error :=
  let fullPath := filepath.Join (BasePath s) filePath in
  let dir := filepath.Dir fullPath in
  match os.MkdirAll dir (fs w) with
  | (fs1, Some err) => (set_fs fs1 w, Some err)
  | (fs1, None) =>
      match os.Create fullPath fs1 with
      | (fs2, Some err) => (set_fs fs2 w, Some err)
      | (fs2, None) =>
          (* io.Copy(file, reader) *)
          (set_fs (os.Write fullPath (content reader) fs2) w, failure reader)
      end
  end.

(** The goroutine of [Download]: what it writes into the pipe, and the error
    it closes the pipe with. It runs on the filesystem as the call finds it. *)
Definition download_producer (fullPath : string) (f : os.FS)
  : list byte * option error :=
  match os.Open fullPath f with
  | Err err => ([], Some err)
  | Ok file => io.read_from file 0
  end.

(** [Download] returns the read end of the pipe and a nil error, whatever
    the goroutine is going to find. *)
Definition Download (s : t) (filePath : string) (w : World)
  : World * Result Reader :=
  let fullPath := filepath.Join (BasePath s) filePath in
  let '(pr, hs) := open_handle (pipes w) in
  let out := download_producer fullPath (fs w) in
  ({| fs := fs w; pipes := hs |},
   Ok {| handle := Some pr; content := fst out; failure := snd out |}).

(** The goroutine of [DownloadRange]. *)
Definition range_producer (fullPath : string) (offset size : Z) (f : os.FS)
  : list byte * option error :=
  match os.Open fullPath f with
  | Err err => ([], Some err)
  | Ok file =>
      (* file.Seek(offset, io.SeekStart) *)
      if (offset <? 0)%Z then ([], Some EINVAL)
      else io.LimitReader (io.read_from file offset) size
  end.

Definition DownloadRange (s : t) (filePath : string) (offset size : Z)
  (w : World) : World * Result Reader :=
  let fullPath := filepath.Join (BasePath s) filePath in
  let '(pr, hs) := open_handle (pipes w) in
  let out := range_producer fullPath offset size (fs w) in
  ({| fs := fs w; pipes := hs |},
   Ok {| handle := Some pr; content := fst out; failure := snd out |}).

Definition Delete (s : t) (filePath : string) (w : World)
  : World * option error :=
  let fullPath := filepath.Join (BasePath s) filePath in
  match os.Remove fullPath (fs w) with
  | (fs1, Some err) => (set_fs fs1 w, Some err)
  | (fs1, None) => (set_fs fs1 w, None)
  end.

Definition UpdateMetadata (s : t) (filePath : string)
  (metadata : FileMetadata) (w : World) : World * option error :=
  let fullPath := filepath.Join (BasePath s) filePath in
  if IsZero (ModTime metadata) then
    match os.Chtimes fullPath (ModTime metadata) (fs w) with
    | (fs1, Some err) => (set_fs fs1 w, Some err)
    | (fs1, None) => (set_fs fs1 w, None)
    end
  else (w, None).

Definition Rename (s : t) (oldPath newPath : string) (w : World)
  : World * option error :=
  let oldFullPath := filepath.Join (BasePath s) oldPath in
  let newFullPath := filepath.Join (BasePath s) newPath in
  match os.Rename oldFullPath newFullPath (fs w) with
  | (fs1, Some err) => (set_fs fs1 w, Some err)
  | (fs1, None) => (set_fs fs1 w, None)
  end.

Definition Move (s : t) (srcPath dstPath : string) (w : World)
  : World * option error :=
  Rename s srcPath dstPath w.

(** [Copy] opens the source, creates or truncates the destination, and then
    copies what the open source holds at that moment. *)
Definition Copy (s : t) (srcPath dstPath : string) (w : World)
  : World * option error :=
  let srcFullPath := filepath.Join (BasePath s) srcPath in
  let dstFullPath := filepath.Join (BasePath s) dstPath in
  match os.Open srcFullPath (fs w) with
  | Err err => (w, Some err)
  | Ok _ =>
      match os.Create dstFullPath (fs w) with
      | (fs1, Some err) => (set_fs fs1 w, Some err)
      | (fs1, None) =>
          (* io.Copy(dstFile, srcFile) *)
          match os.Open srcFullPath fs1 with
          | Err err => (set_fs fs1 w, Some err)
          | Ok srcFile =>
              let out := io.read_from srcFile 0 in
              (set_fs (os.Write dstFullPath (fst out) fs1) w, snd out)
          end
      end
  end.

Definition CreateDir (s : t) (dirPath : string) (w : World)
  : World * option error :=
  let fullPath := filepath.Join (BasePath s) dirPath in
  match os.MkdirAll fullPath (fs w) with
  | (fs1, Some err) => (set_fs fs1 w, Some err)
  | (fs1, None) => (set_fs fs1 w, None)
  end.

Definition DeleteDir (s : t) (dirPath : string) (w : World)
  : World * option error :=
  let fullPath := filepath.Join (BasePath s) dirPath in
  match os.RemoveAll fullPath (fs w) with
  | (fs1, Some err) => (set_fs fs1 w, Some err)
  | (fs1, None) => (set_fs fs1 w, None)
  end.

Section HostDirectories.

(** The size the host reports for a directory. *)
Variable dir_size : Z.

Definition GetMetadata (s : t) (filePath : string) (w : World)
  : World * Result FileMetadata :=
  let fullPath := filepath.Join (BasePath s) filePath in
  match os.Stat fullPath (fs w) with
  | Err err => (w, Err err)
  | Ok (os.File d t) =>
      (w, Ok {| Name := filePath; Size := Z.of_nat (length d); ModTime := t;
                IsDir := false; MIMEType := "application/octet-stream" |})
  | Ok (os.Directory t) =>
      (w, Ok {| Name := filePath; Size := dir_size; ModTime := t;
                IsDir := true; MIMEType := "application/octet-stream" |})
  end.

End HostDirectories.

(** [closer.Close()] on a reader of this backend. *)
Definition Close (r : Reader) (w : World) : World :=
  {| fs := fs w; pipes := close_reader r (pipes w) |}.

Definition BatchUpload (s : t) := BatchUpload (Upload s).
Definition BatchDownload (s : t) := BatchDownload (Download s) Close.
Definition BatchDelete (s : t) := BatchDelete (Delete s).

End LocalStorage.

(** ** The object store behind the two network backends *)

(** The [Range] request header, and the part of an object a server sends for
    it. A header that is not well formed is ignored (the whole object is
    sent); a well-formed range that starts at or after the end cannot be
    satisfied. *)
Module http.

Inductive Range : Type :=
| FromTo (first last : Z)     (* bytes=first-last, both inclusive *)
| From (first : Z)            (* bytes=first- *)
| Suffix (n : Z).             (* bytes=-n, the last n bytes *)

Definition serve (c : list byte) (r : option Range) : Result (list byte) :=
  match r with
  | None => Ok c
  | Some (FromTo a b) =>
      if (0 <=? a)%Z && (a <=? b)%Z then
        if (a <? Z.of_nat (length c))%Z
        then Ok (slice c a (Z.min (b + 1) (Z.of_nat (length c))))
        else Err InvalidRange
      else Ok c
  | Some (From a) =>
      if (0 <=? a)%Z then
        if (a <? Z.of_nat (length c))%Z
        then Ok (drop (Z.to_nat a) c)
        else Err InvalidRange
      else Ok c
  | Some (Suffix n) =>
      if (0 <? n)%Z
      then Ok (drop (Z.to_nat (Z.of_nat (length c) - n)) c)
      else Err InvalidRange
  end.

End http.

Module store.

(** The requests a bucket receives. *)
Inductive Request : Type :=
| ReqPut (key : string)
| ReqGet (key : string) (range : option http.Range)
| ReqHead (key : string)
| ReqDelete (key : string)
| ReqList (prefix marker : string).   (* marker "" : no marker sent *)

(** A bucket: its objects; the keys on which the service fails, and how
    (outages, refused requests); the requests received so far; and the
    response bodies the client holds open. *)
Record Bucket : Type := {
  objects : gmap string (list byte);
  fault : string -> option error;
  log : list Request;
  bodies : Handles
}.

Definition record (r : Request) (b : Bucket) : Bucket :=
  {| objects := objects b; fault := fault b;
     log := log b ++ [r]; bodies := bodies b |}.

Definition set_objects (m : gmap string (list byte)) (b : Bucket) : Bucket :=
  {| objects := m; fault := fault b; log := log b; bodies := bodies b |}.

Definition set_bodies (h : Handles) (b : Bucket) : Bucket :=
  {| objects := objects b; fault := fault b; log := log b; bodies := h |}.

(** Storing the bytes of [reader] under [key]. A reader that fails stores
    nothing. *)
Definition put (key : string) (reader : Reader) (b : Bucket)
  : Bucket * option error :=
  let b := record (ReqPut key) b in
  match fault b key with
  | Some err => (b, Some err)
  | None =>
      match failure reader with
      | Some err => (b, Some err)
      | None => (set_objects (<[key := content reader]> (objects b)) b, None)
      end
  end.

(** What a GET for [key] answers. *)
Definition fetch (key : string) (range : option http.Range) (b : Bucket)
  : Result (list byte) :=
  match fault b key with
  | Some err => Err err
  | None =>
      match objects b !! key with
      | None => Err NoSuchKey
      | Some c => http.serve c range
      end
  end.

Definition head (key : string) (b : Bucket) : Bucket * Result bool :=
  let b := record (ReqHead key) b in
  match fault b key with
  | Some err => (b, Err err)
  | None => (b, Ok (bool_decide (is_Some (objects b !! key))))
  end.

(** Deleting a key that is not there succeeds. *)
Definition remove (key : string) (b : Bucket) : Bucket * option error :=
  let b := record (ReqDelete key) b in
  match fault b key with
  | Some err => (b, Some err)
  | None => (set_objects (delete key (objects b)) b, None)
  end.

(** A copy inside the bucket: a PUT on the destination key that names the
    source. *)
Definition copy (src dst : string) (b : Bucket) : Bucket * option error :=
  let b := record (ReqPut dst) b in
  match fault b dst with
  | Some err => (b, Some err)
  | None =>
      match fetch src None b with
      | Err err => (b, Some err)
      | Ok c => (set_objects (<[dst := c]> (objects b)) b, None)
      end
  end.

(** [closer.Close()] on a response body. *)
Definition Close (r : Reader) (b : Bucket) : Bucket :=
  set_bodies (close_reader r (bodies b)) b.

End store.

(** The Aliyun OSS client, [oss.Bucket]. *)
Module oss.

Record ObjectProperties : Type := {
  Key : string;
  Size : Z;
  LastModified : Time
}.

Record ListObjectsResult : Type := {
  Objects : list ObjectProperties;
  NextMarker : string
}.

(** [oss.Range(start, end)] formats [bytes=start-end]. *)
Definition Range (start end_ : Z) : http.Range := http.FromTo start end_.

Definition PutObject := store.put.

(** [GetObject] fails when the service does, and otherwise returns the
    response body. *)
Definition GetObject (key : string) (range : option http.Range)
  (b : store.Bucket) : store.Bucket * Result Reader :=
  let b := store.record (store.ReqGet key range) b in
  match store.fetch key range b with
  | Err err => (b, Err err)
  | Ok c =>
      let '(id, hs) := open_handle (store.bodies b) in
      (store.set_bodies hs b,
       Ok {| handle := Some id; content := c; failure := None |})
  end.

Definition IsObjectExist := store.head.
Definition DeleteObject := store.remove.

(** [CopyObject(srcObjectKey, destObjectKey)]. *)
Definition CopyObject (srcObjectKey destObjectKey : string) (b : store.Bucket)
  : store.Bucket * option error :=
  store.copy srcObjectKey destObjectKey b.

(** The options of [ListObjects] the backend uses. *)
Inductive Option : Type :=
| Prefix (value : string)
| Marker (value : string).

Fixpoint prefix_of (options : list Option) : string :=
  match options with
  | [] => ""
  | Prefix value :: _ => value
  | _ :: rest => prefix_of rest
  end.

Fixpoint marker_of (options : list Option) : string :=
  match options with
  | [] => ""
  | Marker value :: _ => value
  | _ :: rest => marker_of rest
  end.

(** [ListObjects(options...)]: the request as the bucket receives it. What
    the service answers is given to the listing loops from outside. *)
Definition ListObjects (options : list Option) (b : store.Bucket)
  : store.Bucket :=
  store.record (store.ReqList (prefix_of options) (marker_of options)) b.

End oss.

(** The MinIO client, [minio.Client] on the configured bucket. *)
Module minio.

Record ObjectInfo : Type := {
  Key : string;
  Size : Z;
  LastModified : Time;
  ObjErr : option error     (* the field Err *)
}.

Record GetObjectOptions : Type := { Range : option http.Range }.

(** [GetObjectOptions.SetRange]. *)
Definition SetRange (start end_ : Z) (o : GetObjectOptions)
  : GetObjectOptions * option error :=
  if (start =? 0)%Z && (end_ <? 0)%Z then
    ({| Range := Some (http.Suffix (- end_)) |}, None)
  else if (0 <? start)%Z && (end_ =? 0)%Z then
    ({| Range := Some (http.From start) |}, None)
  else if (0 <=? start)%Z && (start <=? end_)%Z then
    ({| Range := Some (http.FromTo start end_) |}, None)
  else (o, Some InvalidArgument).

(** [PutObject], [RemoveObject]: an empty object name is refused by the
    client. *)
Definition PutObject (key : string) (reader : Reader) (b : store.Bucket)
  : store.Bucket * option error :=
  if String.eqb key "" then (b, Some InvalidArgument)
  else store.put key reader b.

Definition RemoveObject (key : string) (b : store.Bucket)
  : store.Bucket * option error :=
  if String.eqb key "" then (b, Some InvalidArgument)
  else store.remove key b.

(** [StatObject], reduced to whether it succeeds. *)
Definition StatObject (key : string) (b : store.Bucket)
  : store.Bucket * option error :=
  if String.eqb key "" then (b, Some InvalidArgument)
  else
    match store.head key b with
    | (b1, Ok true) => (b1, None)
    | (b1, Ok false) => (b1, Some NoSuchKey)
    | (b1, Err err) => (b1, Some err)
    end.

(** [GetObject] checks the names only; the request is made for the first
    read, and its failure is what that read returns. *)
Definition GetObject (key : string) (opts : GetObjectOptions)
  (b : store.Bucket) : store.Bucket * Result Reader :=
  if String.eqb key "" then (b, Err InvalidArgument)
  else
    let b := store.record (store.ReqGet key (Range opts)) b in
    let '(id, hs) := open_handle (store.bodies b) in
    (store.set_bodies hs b,
     Ok match store.fetch key (Range opts) b with
        | Ok c => {| handle := Some id; content := c; failure := None |}
        | Err err => {| handle := Some id; content := []; failure := Some err |}
        end).


(** [CopyObject(dst, src)]: empty names are refused by the client, and the
    service refuses a copy of an object onto itself that changes nothing. *)
Definition CopyObject (dst src : string) (b : store.Bucket)
  : store.Bucket * option error :=
  if String.eqb src "" || String.eqb dst "" then (b, Some InvalidArgument)
  else if String.eqb src dst then (b, Some (ServiceError "InvalidRequest"))
  else store.copy src dst b.

End minio.

(** ** The OSS backend *)

Module OSSStorage.

Import OSSStorageConfig.

(** The page size the listing loops compare against. *)
Definition page_limit : nat := 1000.

Definition Upload (s : t) (filePath : string) (reader : Reader)
  (b : store.Bucket) : store.Bucket * option error :=
  let fullKey := filepath.Join (BaseDir s) filePath in
  oss.PutObject fullKey reader b.

Definition Download (s : t) (filePath : string) (b : store.Bucket)
  : store.Bucket * Result Reader :=
  let fullKey := filepath.Join (BaseDir s) filePath in
  oss.GetObject fullKey None b.

Definition DownloadRange (s : t) (filePath : string) (offset size : Z)
  (b : store.Bucket) : store.Bucket * Result Reader :=
  let fullKey := filepath.Join (BaseDir s) filePath in
  oss.GetObject fullKey (Some (oss.Range offset (wrap64 (offset + size - 1)))) b.

Definition Delete (s : t) (filePath : string) (b : store.Bucket)
  : store.Bucket * option error :=
  let fullKey := filepath.Join (BaseDir s) filePath in
  oss.DeleteObject fullKey b.

Definition CreateDir (s : t) (dirPath : string) (b : store.Bucket)
  : store.Bucket * option error :=
  let dirPath := ensureOSSDirPath dirPath in
  let fullKey := filepath.Join (BaseDir s) dirPath in
  match oss.IsObjectExist fullKey b with
  | (b1, Err err) => (b1, Some err)
  | (b1, Ok true) => (b1, None)
  | (b1, Ok false) => oss.PutObject fullKey (NewReader []) b1
  end.

(** The test both listing loops apply to a listed object. *)
Definition under_prefix (fullKey : string) (object : oss.ObjectProperties)
  : bool :=
  HasPrefix (oss.Key object) fullKey
  && negb (isDirectoryPlaceholder (oss.Key object) fullKey).

(** The inner loop of [DeleteDir] over one page. *)
Fixpoint delete_page (s : t) (fullKey : string)
  (objs : list oss.ObjectProperties) (b : store.Bucket)
  : store.Bucket * option error :=
  match objs with
  | [] => (b, None)
  | object :: rest =>
      if under_prefix fullKey object then
        match Delete s (oss.Key object) b with
        | (b1, Some err) => (b1, Some (Errorf "delete OSS object: " err))
        | (b1, None) => delete_page s fullKey rest b1
        end
      else delete_page s fullKey rest b
  end.

(** The listing loops run against the service; [responses] are the answers
    the service gives to the successive [ListObjects] calls of one run. A
    loop that has used them all and asks again has no result yet: [None]. *)
Fixpoint DeleteDir_loop (s : t) (fullKey : string)
  (responses : list (Result oss.ListObjectsResult)) (marker : string)
  (b : store.Bucket) : store.Bucket * option (option error) :=
  let listOptions := [oss.Prefix fullKey] in
  let listOptions :=
    if negb (String.eqb marker "")
    then listOptions ++ [oss.Marker marker] else listOptions in
  let b := oss.ListObjects listOptions b in
  match responses with
  | [] => (b, None)
  | Err err :: _ => (b, Some (Some (Errorf "list OSS directory: " err)))
  | Ok objectListing :: later =>
      match delete_page s fullKey (oss.Objects objectListing) b with
      | (b1, Some err) => (b1, Some (Some err))
      | (b1, None) =>
          if (length (oss.Objects objectListing) <? page_limit)%nat
          then (b1, Some None)
          else DeleteDir_loop s fullKey later (oss.NextMarker objectListing) b1
      end
  end.

Definition DeleteDir (s : t) (dirPath : string)
  (responses : list (Result oss.ListObjectsResult)) (b : store.Bucket)
  : store.Bucket * option (option error) :=
  let dirPath := ensureOSSDirPath dirPath in
  let fullKey := filepath.Join (BaseDir s) dirPath in
  DeleteDir_loop s fullKey responses "" b.

(** The entry [ListDir] builds for a listed object. *)
Definition fileMeta_of (fullKey : string) (object : oss.ObjectProperties)
  : FileMetadata :=
  {| Name := string_drop (String.length fullKey) (oss.Key object);
     Size := oss.Size object;
     ModTime := oss.LastModified object;
     IsDir := false;
     MIMEType := "application/octet-stream" |}.

(** The inner loop of [ListDir] over one page. *)
Fixpoint convert_page (fullKey : string) (objs : list oss.ObjectProperties)
  (fileMetas : list FileMetadata) : list FileMetadata :=
  match objs with
  | [] => fileMetas
  | object :: rest =>
      if under_prefix fullKey object
      then convert_page fullKey rest (fileMetas ++ [fileMeta_of fullKey object])
      else convert_page fullKey rest fileMetas
  end.

Fixpoint ListDir_loop (fullKey : string)
  (responses : list (Result oss.ListObjectsResult)) (marker : string)
  (fileMetas : list FileMetadata) (b : store.Bucket)
  : store.Bucket * option (Result (list FileMetadata)) :=
  let listOptions := [oss.Prefix fullKey] in
  let listOptions :=
    if negb (String.eqb marker "")
    then listOptions ++ [oss.Marker marker] else listOptions in
  let b := oss.ListObjects listOptions b in
  match responses with
  | [] => (b, None)
  | Err err :: _ => (b, Some (Err (Errorf "get OSS directory: " err)))
  | Ok objectListing :: later =>
      let fileMetas := convert_page fullKey (oss.Objects objectListing) fileMetas in
      if (length (oss.Objects objectListing) <? page_limit)%nat
      then (b, Some (Ok fileMetas))
      else ListDir_loop fullKey later (oss.NextMarker objectListing) fileMetas b
  end.

Definition ListDir (s : t) (dirPath : string)
  (responses : list (Result oss.ListObjectsResult)) (b : store.Bucket)
  : store.Bucket * option (Result (list FileMetadata)) :=
  let dirPath := ensureOSSDirPath dirPath in
  let fullKey := filepath.Join (BaseDir s) dirPath in
  ListDir_loop fullKey responses "" [] b.

Definition Rename (s : t) (oldPath newPath : string) (b : store.Bucket)
  : store.Bucket * option error :=
  let oldFullKey := filepath.Join (BaseDir s) oldPath in
  let newFullKey := filepath.Join (BaseDir s) newPath in
  match oss.CopyObject oldFullKey newFullKey b with
  | (b1, Some err) => (b1, Some err)
  | (b1, None) =>
      match Delete s oldPath b1 with
      | (b2, Some err) => (b2, Some err)
      | (b2, None) => (b2, None)
      end
  end.

Definition Move (s : t) (srcPath dstPath : string) (b : store.Bucket)
  : store.Bucket * option error :=
  Rename s srcPath dstPath b.

Definition Copy (s : t) (srcPath dstPath : string) (b : store.Bucket)
  : store.Bucket * option error :=
  let oldFullKey := filepath.Join (BaseDir s) srcPath in
  let newFullKey := filepath.Join (BaseDir s) dstPath in
  match oss.CopyObject oldFullKey newFullKey b with
  | (b1, Some err) => (b1, Some err)
  | (b1, None) => (b1, None)
  end.

Definition BatchUpload (s : t) := BatchUpload (Upload s).
Definition BatchDownload (s : t) := BatchDownload (Download s) store.Close.
Definition BatchDelete (s : t) := BatchDelete (Delete s).

End OSSStorage.

(** A call that can end in a run-time panic (an index out of range). *)
Inductive Outcome (A : Type) : Type :=
| Returns (a : A)
| Panics.
Arguments Returns {A} a.
Arguments Panics {A}.

(** ** The MinIO backend *)

Module MinIOStorage.

Import MinIOStorageConfig.

Definition Upload (s : t) (filePath : string) (reader : Reader)
  (b : store.Bucket) : store.Bucket * option error :=
  let fullKey := filepath.Join (BaseDir s) filePath in
  minio.PutObject fullKey reader b.

Definition Download (s : t) (filePath : string) (b : store.Bucket)
  : store.Bucket * Result Reader :=
  let fullKey := filepath.Join (BaseDir s) filePath in
  minio.GetObject fullKey {| minio.Range := None |} b.

Definition DownloadRange (s : t) (filePath : string) (offset size : Z)
  (b : store.Bucket) : store.Bucket * Result Reader :=
  let fullKey := filepath.Join (BaseDir s) filePath in
  let opts := {| minio.Range := None |} in
  match minio.SetRange offset (wrap64 (offset + size - 1)) opts with
  | (_, Some err) => (b, Err err)
  | (opts, None) => minio.GetObject fullKey opts b
  end.

Definition Delete (s : t) (filePath : string) (b : store.Bucket)
  : store.Bucket * option error :=
  let fullKey := filepath.Join (BaseDir s) filePath in
  minio.RemoveObject fullKey b.

Definition CreateDir (s : t) (dirPath : string) (b : store.Bucket)
  : store.Bucket * option error :=
  let dirPath := ensureOSSDirPath dirPath in
  let fullKey := filepath.Join (BaseDir s) dirPath in
  match minio.StatObject fullKey b with
  | (b1, None) => (b1, None)
  | (b1, Some _) => Upload s dirPath (NewReader []) b1
  end.

(** [DeleteDir] ranges over the channel [ListObjects] returns; [listing] is
    what the channel delivers. *)
Fixpoint DeleteDir_range (s : t) (listing : list minio.ObjectInfo)
  (b : store.Bucket) : store.Bucket * option error :=
  match listing with
  | [] => (b, None)
  | object :: rest =>
      match minio.ObjErr object with
      | Some err => (b, Some err)
      | None =>
          match Delete s (minio.Key object) b with
          | (b1, Some err) => (b1, Some err)
          | (b1, None) => DeleteDir_range s rest b1
          end
      end
  end.

Definition DeleteDir (s : t) (dirPath : string)
  (listing : list minio.ObjectInfo) (b : store.Bucket)
  : store.Bucket * option error :=
  let dirPath := ensureOSSDirPath dirPath in
  let fullKey := filepath.Join (BaseDir s) dirPath in
  DeleteDir_range s listing (store.record (store.ReqList fullKey "") b).

Definition Rename (s : t) (oldPath newPath : string) (b : store.Bucket)
  : store.Bucket * option error :=
  let oldFullKey := filepath.Join (BaseDir s) oldPath in
  let newFullKey := filepath.Join (BaseDir s) newPath in
  match minio.CopyObject newFullKey oldFullKey b with
  | (b1, Some err) => (b1, Some err)
  | (b1, None) =>
      match Delete s oldPath b1 with
      | (b2, Some err) => (b2, Some err)
      | (b2, None) => (b2, None)
      end
  end.

Definition Move (s : t) (srcPath dstPath : string) (b : store.Bucket)
  : store.Bucket * option error :=
  Rename s srcPath dstPath b.

Definition Copy (s : t) (srcPath dstPath : string) (b : store.Bucket)
  : store.Bucket * option error :=
  let srcFullKey := filepath.Join (BaseDir s) srcPath in
  let dstFullKey := filepath.Join (BaseDir s) dstPath in
  match minio.CopyObject dstFullKey srcFullKey b with
  | (b1, Some err) => (b1, Some err)
  | (b1, None) => (b1, None)
  end.

(** The entry [ListDir] builds for a listed object: the slice
    [object.Key[len(fullKey):]] and the index [object.Key[len(object.Key)-1]]
    panic when the key is shorter than the prefix or empty. *)
Definition fileMeta_of (fullKey : string) (object : minio.ObjectInfo)
  : Outcome FileMetadata :=
  if (String.length (minio.Key object) <? String.length fullKey)%nat then Panics
  else
    match last_byte (minio.Key object) with
    | None => Panics
    | Some c =>
        Returns {| Name := string_drop (String.length fullKey) (minio.Key object);
                   Size := minio.Size object;
                   ModTime := minio.LastModified object;
                   IsDir := Ascii.eqb c "/"%char;
                   MIMEType := "application/octet-stream" |}
    end.

(** [ListDir] ranges over the channel [ListObjects] returns; [listing] is
    what the channel delivers. *)
Fixpoint ListDir_range (fullKey : string) (listing : list minio.ObjectInfo)
  (fileMetas : list FileMetadata) : Outcome (Result (list FileMetadata)) :=
  match listing with
  | [] => Returns (Ok fileMetas)
  | object :: rest =>
      match minio.ObjErr object with
      | Some err => Returns (Err err)
      | None =>
          match fileMeta_of fullKey object with
          | Panics => Panics
          | Returns fileMeta =>
              ListDir_range fullKey rest (fileMetas ++ [fileMeta])
          end
      end
  end.

Definition ListDir (s : t) (dirPath : string)
  (listing : list minio.ObjectInfo) (b : store.Bucket)
  : store.Bucket * Outcome (Result (list FileMetadata)) :=
  let dirPath := ensureOSSDirPath dirPath in
  let fullKey := filepath.Join (BaseDir s) dirPath in
  (store.record (store.ReqList fullKey "") b, ListDir_range fullKey listing []).

Definition BatchUpload (s : t) := BatchUpload (Upload s).
Definition BatchDownload (s : t) := BatchDownload (Download s) store.Close.
Definition BatchDelete (s : t) := BatchDelete (Delete s).

End MinIOStorage.

(** ** The [Storage] interface

    A call on a [Storage] value goes to the method of the backend it holds.
    The world such a call acts on has the filesystem of the host and the
    bucket each network backend is configured with. *)

Record Universe : Type := {
  host : LocalStorage.World;
  oss_bucket : store.Bucket;
  minio_bucket : store.Bucket
}.

Definition on_host {A : Type} (u : Universe)
  (r : LocalStorage.World * A) : Universe * A :=
  ({| host := fst r; oss_bucket := oss_bucket u;
      minio_bucket := minio_bucket u |}, snd r).

Definition on_oss {A : Type} (u : Universe)
  (r : store.Bucket * A) : Universe * A :=
  ({| host := host u; oss_bucket := fst r;
      minio_bucket := minio_bucket u |}, snd r).

Definition on_minio {A : Type} (u : Universe)
  (r : store.Bucket * A) : Universe * A :=
  ({| host := host u; oss_bucket := oss_bucket u;
      minio_bucket := fst r |}, snd r).

Definition Storage_Upload (st : Storage) (filePath : string)
  (reader : Reader) (u : Universe) : Universe * option error :=
  match st with
  | LocalStorage s => on_host u (LocalStorage.Upload s filePath reader (host u))
  | OSSStorage s => on_oss u (OSSStorage.Upload s filePath reader (oss_bucket u))
  | MinIOStorage s =>
      on_minio u (MinIOStorage.Upload s filePath reader (minio_bucket u))
  end.

Definition Storage_Download (st : Storage) (filePath : string)
  (u : Universe) : Universe * Result Reader :=
  match st with
  | LocalStorage s => on_host u (LocalStorage.Download s filePath (host u))
  | OSSStorage s => on_oss u (OSSStorage.Download s filePath (oss_bucket u))
  | MinIOStorage s =>
      on_minio u (MinIOStorage.Download s filePath (minio_bucket u))
  end.





(** ** Sample worlds for the examples *)

Definition empty_bucket : store.Bucket :=
  {| store.objects := ∅; store.fault := fun _ => None;
     store.log := []; store.bodies := no_handles |}.

Definition bucket_with (key : string) (c : list byte) : store.Bucket :=
  {| store.objects := {[ key := c ]}; store.fault := fun _ => None;
     store.log := []; store.bodies := no_handles |}.

Definition empty_host : LocalStorage.World :=
  {| LocalStorage.fs := {| os.nodes := ∅; os.now := 7%Z |};
     LocalStorage.pipes := no_handles |}.

Definition host_with (p : string) (c : list byte) (t : Time)
  : LocalStorage.World :=
  {| LocalStorage.fs := {| os.nodes := {[ p := os.File c t ]}; os.now := 7%Z |};
     LocalStorage.pipes := no_handles |}.

Definition empty_universe : Universe :=
  {| host := empty_host; oss_bucket := empty_bucket;
     minio_bucket := empty_bucket |}.

Definition local_cfg : LocalStorageConfig.t := LocalStorageConfig.mk "/data".
Definition oss_cfg : OSSStorageConfig.t :=
  OSSStorageConfig.mk "oss.example.com" "id" "secret" "bucket" "base".
Definition minio_cfg : MinIOStorageConfig.t :=
  MinIOStorageConfig.mk "minio.example.com" "id" "secret" false "bucket" "base".


(** ** Vocabulary of the statements about listing *)

(** The entries [ListDir] keeps of one page. *)
Definition survivors (fullKey : string) (page : oss.ListObjectsResult)
  : list FileMetadata :=
  map (OSSStorage.fileMeta_of fullKey)
      (List.filter (OSSStorage.under_prefix fullKey) (oss.Objects page)).

(** The bucket after it has received listing requests for [fullKey] with the
    given markers, one after the other. *)
Definition listed (fullKey : string) (markers : list string)
  (b : store.Bucket) : store.Bucket :=
  fold_left (fun b m => store.record (store.ReqList fullKey m) b) markers b.

Definition full_page (page : oss.ListObjectsResult) : Prop :=
  OSSStorage.page_limit <= length (oss.Objects page).

Definition short_page (page : oss.ListObjectsResult) : Prop :=
  length (oss.Objects page) < OSSStorage.page_limit.

Definition listed_object (key : string) : oss.ObjectProperties :=
  {| oss.Key := key; oss.Size := 3%Z; oss.LastModified := 9%Z |}.

(** A page of a thousand objects, and the page that ends a listing. *)
Definition thousand_objects : oss.ListObjectsResult :=
  {| oss.Objects := repeat (listed_object "base/dir/a.txt") 1000;
     oss.NextMarker := "base/dir/a.txt" |}.

Definition closing_page : oss.ListObjectsResult :=
  {| oss.Objects := [listed_object "base/dir/sub/"; listed_object "base/dir/z.txt"];
     oss.NextMarker := "" |}.

(** ** Vocabulary of the statements about ranges *)



(** ** Vocabulary of the statements about requests and streams *)

(** The keys of the delete requests in a log, in order. *)
Definition deleted_keys (l : list store.Request) : list string :=
  flat_map (fun r => match r with
                     | store.ReqDelete key => [key]
                     | _ => []
                     end) l.

(** The keys of the put requests in a log, in order. *)
Definition put_keys (l : list store.Request) : list string :=
  flat_map (fun r => match r with
                     | store.ReqPut key => [key]
                     | _ => []
                     end) l.

(** The streams that are open. *)
Definition open_streams (h : Handles) : list nat := elements (live h).

Definition listed_info (key : string) : minio.ObjectInfo :=
  {| minio.Key := key; minio.Size := 3%Z; minio.LastModified := 9%Z;
     minio.ObjErr := None |}.

Definition single_page (keys : list string) : oss.ListObjectsResult :=
  {| oss.Objects := map listed_object keys; oss.NextMarker := "" |}.

(** A string without separator. *)
Fixpoint sep_free (s : string) : Prop :=
  match s with
  | EmptyString => True
  | String c s' => c <> "/"%char /\ sep_free s'
  end.

(** What [Clean] keeps of a path: non-empty elements without separator. *)
Definition path_element (e : string) : Prop := e <> "" /\ sep_free e.

(** The stream [id] is held by a reader of the result map. *)
Definition held (results : gmap string Reader) (id : nat) : Prop :=
  exists (p : string) (r : Reader), results !! p = Some r /\ handle r = Some id.

(** ** The driver registry

    [storageDrivers] is a package-level map from storage type to factory;
    [init] registers nothing (its registrations are commented out). A
    factory is a function without argument that returns a [Storage], nil
    included. *)

Definition storageDrivers_at_start : gmap string (unit -> option Storage) := ∅.

Definition RegisterStorageDriver (storageType : StorageType)
  (factory : unit -> option Storage)
  (storageDrivers : gmap string (unit -> option Storage))
  : gmap string (unit -> option Storage) :=
  <[storageType := factory]> storageDrivers.

Definition CreateStorage (storageType : StorageType)
  (storageDrivers : gmap string (unit -> option Storage)) : option Storage :=
  match storageDrivers !! storageType with
  | Some factory => factory tt
  | None => None
  end.

(** ** Vocabulary of the statements about the selector *)

Definition oss_complete (c : OSSStorageConfig.t) : Prop :=
  OSSStorageConfig.BaseDir c <> "" /\ OSSStorageConfig.Endpoint c <> ""
  /\ OSSStorageConfig.AccessKeyID c <> ""
  /\ OSSStorageConfig.AccessKeySecret c <> ""
  /\ OSSStorageConfig.Bucket c <> "".

Definition minio_complete (c : MinIOStorageConfig.t) : Prop :=
  MinIOStorageConfig.BaseDir c <> "" /\ MinIOStorageConfig.Endpoint c <> ""
  /\ MinIOStorageConfig.AccessKeyID c <> ""
  /\ MinIOStorageConfig.AccessKeySecret c <> ""
  /\ MinIOStorageConfig.Bucket c <> "".

(** What a returned backend has to do with the configuration the call
    leaves and with the base path returned beside it. *)
Definition backend_of (s : Types.t) (base : string) (st : Storage) : Prop :=
  match st with
  | LocalStorage c =>
      c = Types.Local s /\ base = LocalStorageConfig.BasePath c
      /\ Types.AssignMode s <> StorageType.MinIO
      /\ Types.AssignMode s <> StorageType.OSS
  | OSSStorage c =>
      c = Types.Oss s /\ base = OSSStorageConfig.BaseDir c
      /\ oss_complete c /\ Types.AssignMode s = StorageType.OSS
  | MinIOStorage c =>
      c = Types.Minio s /\ base = MinIOStorageConfig.BaseDir c
      /\ minio_complete c /\ Types.AssignMode s = StorageType.MinIO
  end.

(** ** Vocabulary of the statements about the filesystem backend *)

(** The joined path of a logical path. *)
Definition local_path (s : LocalStorageConfig.t) (filePath : string) : string :=
  filepath.Join (LocalStorageConfig.BasePath s) filePath.

(** The node the filesystem of a world has at a path. *)
Definition node_at (w : LocalStorage.World) (p : string) : option os.node :=
  os.nodes (LocalStorage.fs w) !! p.

(** A reader that yields [c] and then fails with [e]. *)
Definition failing_reader (c : list byte) (e : error) : Reader :=
  {| handle := None; content := c; failure := Some e |}.

(** The world after [c] has been uploaded to [p] on the empty host. *)
Definition host_after_upload (p : string) (c : list byte) : LocalStorage.World :=
  fst (LocalStorage.Upload local_cfg p (NewReader c) empty_host).

(** A cleaned path, from its elements. *)
Definition render (isRooted : bool) (es : list string) : string :=
  if isRooted then ("/" ++ filepath.join_elements es)%string
  else if String.eqb (filepath.join_elements es) "" then "."
  else filepath.join_elements es.

(** ** Vocabulary of the statements about the flat-store backends *)

Definition oss_key (s : OSSStorageConfig.t) (filePath : string) : string :=
  filepath.Join (OSSStorageConfig.BaseDir s) filePath.

Definition minio_key (s : MinIOStorageConfig.t) (filePath : string) : string :=
  filepath.Join (MinIOStorageConfig.BaseDir s) filePath.

(** The service does not fail on the key, and the bucket holds [c] there. *)
Definition holds (b : store.Bucket) (key : string) (c : list byte) : Prop :=
  store.fault b key = None /\ store.objects b !! key = Some c.

(** What [ListDir] of the OSS backend says about a listed object. *)
Definition describes (fullKey : string) (m : FileMetadata)
  (object : oss.ObjectProperties) : Prop :=
  oss.Key object = (fullKey ++ Name m)%string
  /\ Name m <> "" /\ Name m <> "/"
  /\ Size m = oss.Size object /\ ModTime m = oss.LastModified object.

(** The object is on one of the pages the service has returned. *)
Definition on_a_page (responses : list (Result oss.ListObjectsResult))
  (object : oss.ObjectProperties) : Prop :=
  exists page, Ok page ∈ responses /\ object ∈ oss.Objects page.

(** What [ListDir] of the MinIO backend says about a listed object. *)
Definition describes_info (fullKey : string) (object : minio.ObjectInfo)
  (m : FileMetadata) : Prop :=
  minio.Key object = (fullKey ++ Name m)%string
  /\ IsDir m = ends_with_separator (minio.Key object)
  /\ Size m = minio.Size object /\ ModTime m = minio.LastModified object
  /\ MIMEType m = "application/octet-stream".

(** A listed object without error whose key is not empty and starts with
    the prefix asked for. *)
Definition well_listed (fullKey : string) (object : minio.ObjectInfo) : Prop :=
  minio.ObjErr object = None /\ minio.Key object <> ""
  /\ HasPrefix (minio.Key object) fullKey = true.

(** Sample worlds with two files. *)
Definition two_objects : store.Bucket :=
  {| store.objects := {[ "base/a.txt" := list_byte_of_string "A";
                         "base/b.txt" := list_byte_of_string "B" ]};
     store.fault := fun _ => None; store.log := [];
     store.bodies := no_handles |}.

Definition two_files : LocalStorage.World :=
  fst (LocalStorage.Upload local_cfg "b.txt" (NewReader (list_byte_of_string "B"))
         (host_after_upload "a.txt" (list_byte_of_string "A"))).

(** ** ChunkedReader

    A single [Read] call on an [io.Reader]: given the length of the buffer,
    the bytes put into it and what the call returns beside their number. *)

Inductive ReadStatus : Type :=
| ReadNil                      (* nil: more may follow *)
| ReadEOF                      (* io.EOF *)
| ReadFailed (e : error).

(** [bytes.Reader.Read] on the bytes not yet read: [io.EOF] when none is
    left, and otherwise as many bytes as the buffer takes. *)
Definition bytes_Read (s : list byte) (len_p : nat)
  : list byte * (list byte * ReadStatus) :=
  match s with
  | [] => ([], ([], ReadEOF))
  | _ :: _ => (drop len_p s, (take len_p s, ReadNil))
  end.

Module ChunkedReader.

Record t (R : Type) : Type := mk { reader : R; chunkSize : Z }.
Arguments mk {R} reader chunkSize.
Arguments reader {R} t.
Arguments chunkSize {R} t.

Definition NewChunkedReader {R : Type} (reader : R) (chunkSize : Z) : t R :=
  mk reader chunkSize.

(** [Read]: the underlying reader is given the buffer cut to the chunk size,
    [p[:limit]]; the slice expression panics for a negative limit. *)
Definition Read {R : Type} (under : R -> nat -> R * (list byte * ReadStatus))
  (r : t R) (len_p : nat) : Outcome (t R * (list byte * ReadStatus)) :=
  let limit := Z.of_nat len_p in
  let limit := if (limit >? chunkSize r)%Z then chunkSize r else limit in
  if (limit <? 0)%Z then Panics
  else
    let out := under (reader r) (Z.to_nat limit) in
    Returns (mk (fst out) (chunkSize r), snd out).

End ChunkedReader.

(** What a consumer gets that reads into a buffer of length [len_p] until
    the reader says [io.EOF] or fails, as [io.ReadAll] and [io.Copy] do;
    [fuel] bounds the number of reads. *)
Inductive Drained : Type :=
| Complete (data : list byte)
| Broken (data : list byte) (e : error)
| Panicked
| Unfinished (data : list byte).

Fixpoint read_until_EOF {R : Type}
  (under : R -> nat -> R * (list byte * ReadStatus))
  (fuel len_p : nat) (r : ChunkedReader.t R) (acc : list byte) : Drained :=
  match fuel with
  | O => Unfinished acc
  | S fuel' =>
      match ChunkedReader.Read under r len_p with
      | Panics => Panicked
      | Returns (r', (data, ReadEOF)) => Complete (acc ++ data)
      | Returns (r', (data, ReadFailed e)) => Broken (acc ++ data) e
      | Returns (r', (data, ReadNil)) =>
          read_until_EOF under fuel' len_p r' (acc ++ data)
      end
  end.
(** * Properties *)

(** ** Path cleaning on examples *)

Example Clean_examples :
  filepath.Clean "a//b/./c/.." = "a/b" /\
  filepath.Clean "/../a/" = "/a" /\
  filepath.Clean "../../x/../.." = "../../.." /\
  filepath.Clean "/" = "/" /\
  filepath.Clean "./" = "." /\
  filepath.Join "base" "dir/" = "base/dir" /\
  filepath.Join "" "" = "" /\
  filepath.Join "/" "" = "/" /\
  filepath.Dir "/tmp/a/b.txt" = "/tmp/a" /\
  filepath.Dir "b.txt" = "." /\
  filepath.Dir "/b.txt" = "/".
Proof. repeat split; reflexivity. Qed.

(** ** The backend selector *)

(** With both modes unset and no option given, the selector goes to the
    filesystem branch with the base path the configuration already has: the
    default options, and the temporary directory in them, play no part. *)
Lemma GetStorage_unset_modes (TempDir : string)
  (oc : OSSStorageConfig.t -> bool) (mc : MinIOStorageConfig.t -> bool)
  (s : Types.t) :
  Types.Mode s = "" -> Types.AssignMode s = "" ->
  GetStorage TempDir oc mc s [] =
    (s, if String.eqb (LocalStorageConfig.BasePath (Types.Local s)) ""
        then ("", None)
        else (LocalStorageConfig.BasePath (Types.Local s),
              Some (LocalStorage (Types.Local s)))).
Proof.
  intros Hm Ha. unfold GetStorage. simpl fold_left.
  rewrite Hm, Ha. simpl. rewrite Ha. simpl.
  destruct (String.eqb (LocalStorageConfig.BasePath (Types.Local s)) "");
    reflexivity.
Qed.

(** C7, evaluated on the code: for the zero configuration (both modes unset,
    nothing else set) and no option, [GetStorage] returns the empty base
    path and the nil [Storage], whatever the temporary directory is. The
    default configuration is computed but not applied. *)
Theorem GetStorage_zero_config_returns_nil :
  forall (TempDir : string) (oc : OSSStorageConfig.t -> bool)
         (mc : MinIOStorageConfig.t -> bool),
    GetStorage TempDir oc mc Types.zero [] = (Types.zero, ("", None)).
Proof. intros. reflexivity. Qed.

(** ** The filesystem backend: metadata update *)


(** A time that is set is never applied. *)
Lemma UpdateMetadata_set_time_ignored (s : LocalStorageConfig.t)
  (filePath : string) (metadata : FileMetadata) (w : LocalStorage.World) :
  IsZero (ModTime metadata) = false ->
  LocalStorage.UpdateMetadata s filePath metadata w = (w, None).
Proof. intros H. unfold LocalStorage.UpdateMetadata. rewrite H. reflexivity. Qed.


(** ** The filesystem backend: download of a missing file *)

(** C6 as stated fails: for a path that names nothing, the call returns a
    reader, not an error. *)
Lemma Download_missing_file_returns_reader :
  os.Stat (filepath.Join (LocalStorageConfig.BasePath local_cfg) "missing.txt")
          (LocalStorage.fs empty_host) = Err ENOENT
  /\ forall e : error,
       snd (LocalStorage.Download local_cfg "missing.txt" empty_host) <> Err e.
Proof. split; [vm_compute; reflexivity | intros e; vm_compute; discriminate]. Qed.

(** C6, amended: for every path that names no existing file, [Download]
    returns a reader and a nil error; the reader yields no byte and its
    first read fails with the not-found error of the failed open. *)
Theorem Download_missing_file_fails_on_read (s : LocalStorageConfig.t)
  (filePath : string) (w : LocalStorage.World) :
  os.Stat (filepath.Join (LocalStorageConfig.BasePath s) filePath)
          (LocalStorage.fs w) = Err ENOENT ->
  LocalStorage.Download s filePath w =
    ({| LocalStorage.fs := LocalStorage.fs w;
        LocalStorage.pipes := snd (open_handle (LocalStorage.pipes w)) |},
     Ok {| handle := Some (next (LocalStorage.pipes w));
           content := [];
           failure := Some ENOENT |}).
Proof.
  intros H. unfold LocalStorage.Download, LocalStorage.download_producer, os.Open.
  rewrite H. reflexivity.
Qed.

Lemma Download_missing_file_fails_on_read_witness :
  LocalStorage.Download local_cfg "missing.txt" empty_host =
    ({| LocalStorage.fs := LocalStorage.fs empty_host;
        LocalStorage.pipes := snd (open_handle (LocalStorage.pipes empty_host)) |},
     Ok {| handle := Some (next (LocalStorage.pipes empty_host));
           content := [];
           failure := Some ENOENT |}).
Proof.
  apply (Download_missing_file_fails_on_read local_cfg "missing.txt" empty_host).
  vm_compute. reflexivity.
Defined.

(** ** The OSS backend: listing *)

Lemma convert_page_filter (fullKey : string)
  (objs : list oss.ObjectProperties) (fileMetas : list FileMetadata) :
  OSSStorage.convert_page fullKey objs fileMetas =
    fileMetas ++ map (OSSStorage.fileMeta_of fullKey)
                     (List.filter (OSSStorage.under_prefix fullKey) objs).
Proof.
  revert fileMetas.
  induction objs as [|object rest IH]; intros fileMetas; simpl.
  - symmetry. apply app_nil_r.
  - destruct (OSSStorage.under_prefix fullKey object); simpl.
    + rewrite IH, <- app_assoc. reflexivity.
    + apply IH.
Qed.

(** The request a listing loop sends: the prefix, and the marker when there
    is one. *)
Lemma ListObjects_request (fullKey marker : string) (b : store.Bucket) :
  oss.ListObjects
    (if negb (String.eqb marker "")
     then [oss.Prefix fullKey] ++ [oss.Marker marker]
     else [oss.Prefix fullKey]) b
  = store.record (store.ReqList fullKey marker) b.
Proof.
  destruct (String.eqb_spec marker "") as [->|Hne]; reflexivity.
Qed.

Lemma full_page_not_short (page : oss.ListObjectsResult) :
  full_page page ->
  (length (oss.Objects page) <? OSSStorage.page_limit)%nat = false.
Proof. unfold full_page. intros H. apply Nat.ltb_ge. exact H. Qed.

Lemma short_page_is_short (page : oss.ListObjectsResult) :
  short_page page ->
  (length (oss.Objects page) <? OSSStorage.page_limit)%nat = true.
Proof. unfold short_page. intros H. apply Nat.ltb_lt. exact H. Qed.

(** The loop on full pages followed by a short one: it returns at the short
    page, having asked once per page with the marker of the page before. *)
Lemma ListDir_loop_returns (fullKey : string)
  (full : list oss.ListObjectsResult) (last_page : oss.ListObjectsResult)
  (later : list (Result oss.ListObjectsResult)) :
  Forall full_page full -> short_page last_page ->
  forall (marker : string) (fileMetas : list FileMetadata) (b : store.Bucket),
    OSSStorage.ListDir_loop fullKey (map Ok full ++ Ok last_page :: later)
                            marker fileMetas b
    = (listed fullKey (marker :: map oss.NextMarker full) b,
       Some (Ok (fileMetas ++ flat_map (survivors fullKey) (full ++ [last_page])))).
Proof.
  intros Hfull Hshort.
  induction Hfull as [|page full Hpage _ IH]; intros marker fileMetas b.
  - simpl map. simpl app. cbn [OSSStorage.ListDir_loop].
    rewrite ListObjects_request.
    rewrite (short_page_is_short _ Hshort), convert_page_filter.
    simpl. unfold survivors. rewrite app_nil_r. reflexivity.
  - simpl map. simpl app.
    cbn [OSSStorage.ListDir_loop]. rewrite ListObjects_request.
    rewrite (full_page_not_short _ Hpage), IH, convert_page_filter.
    simpl. unfold survivors at 2. rewrite <- app_assoc. reflexivity.
Qed.

(** The loop on full pages only: after the last of them it has asked again,
    with that page's marker, and has not returned. *)
Lemma ListDir_loop_continues (fullKey : string)
  (full : list oss.ListObjectsResult) :
  Forall full_page full ->
  forall (marker : string) (fileMetas : list FileMetadata) (b : store.Bucket),
    OSSStorage.ListDir_loop fullKey (map Ok full) marker fileMetas b
    = (listed fullKey (marker :: map oss.NextMarker full) b, None).
Proof.
  intros Hfull.
  induction Hfull as [|page full Hpage _ IH]; intros marker fileMetas b.
  - simpl map. cbn [OSSStorage.ListDir_loop].
    rewrite ListObjects_request. reflexivity.
  - simpl map. cbn [OSSStorage.ListDir_loop]. rewrite ListObjects_request.
    rewrite (full_page_not_short _ Hpage), IH. reflexivity.
Qed.

(** C3: whatever pages the store returns, [ListDir] returns at the first
    page of fewer than 1000 objects and not before; up to there it asks once
    per page, first without marker and then with the continuation token of
    the page before; and its result is made of the surviving entries of the
    pages visited, page after page. *)
Theorem ListDir_pagination (s : OSSStorageConfig.t) (dirPath : string)
  (full : list oss.ListObjectsResult) (last_page : oss.ListObjectsResult)
  (later : list (Result oss.ListObjectsResult)) (b : store.Bucket) :
  Forall full_page full -> short_page last_page ->
  let fullKey :=
    filepath.Join (OSSStorageConfig.BaseDir s) (ensureOSSDirPath dirPath) in
  OSSStorage.ListDir s dirPath (map Ok full ++ Ok last_page :: later) b
    = (listed fullKey ("" :: map oss.NextMarker full) b,
       Some (Ok (flat_map (survivors fullKey) (full ++ [last_page]))))
  /\ OSSStorage.ListDir s dirPath (map Ok full) b
    = (listed fullKey ("" :: map oss.NextMarker full) b, None).
Proof.
  intros Hfull Hshort fullKey. unfold OSSStorage.ListDir. fold fullKey. split.
  - rewrite (ListDir_loop_returns fullKey full last_page later Hfull Hshort).
    reflexivity.
  - apply ListDir_loop_continues. exact Hfull.
Qed.

Lemma ListDir_pagination_witness :
  Forall full_page [thousand_objects] /\ short_page closing_page /\
  (OSSStorage.ListDir oss_cfg "dir"
     (map Ok [thousand_objects] ++ Ok closing_page :: []) empty_bucket
   = (listed "base/dir" ["" ; "base/dir/a.txt"] empty_bucket,
      Some (Ok (flat_map (survivors "base/dir")
                         ([thousand_objects] ++ [closing_page]))))
   /\ OSSStorage.ListDir oss_cfg "dir" (map Ok [thousand_objects]) empty_bucket
      = (listed "base/dir" ["" ; "base/dir/a.txt"] empty_bucket, None)).
Proof.
  assert (Hfull : Forall full_page [thousand_objects]).
  { constructor; [|constructor]. unfold full_page. apply Nat.leb_le.
    vm_compute. reflexivity. }
  assert (Hshort : short_page closing_page).
  { unfold short_page. apply Nat.ltb_lt. vm_compute. reflexivity. }
  split; [exact Hfull|]. split; [exact Hshort|].
  exact (ListDir_pagination oss_cfg "dir" [thousand_objects] closing_page []
                            empty_bucket Hfull Hshort).
Defined.

(** Every entry the loop adds is a plain file of the generic type. *)
Lemma ListDir_loop_entries (fullKey : string)
  (responses : list (Result oss.ListObjectsResult)) :
  forall (marker : string) (acc : list FileMetadata) (b b' : store.Bucket)
         (fileMetas : list FileMetadata),
    Forall (fun m => IsDir m = false
                     /\ MIMEType m = "application/octet-stream") acc ->
    OSSStorage.ListDir_loop fullKey responses marker acc b
      = (b', Some (Ok fileMetas)) ->
    Forall (fun m => IsDir m = false
                     /\ MIMEType m = "application/octet-stream") fileMetas.
Proof.
  induction responses as [|resp later IH]; intros marker acc b b' fileMetas Hacc.
  - simpl. discriminate.
  - cbn [OSSStorage.ListDir_loop]. destruct resp as [page|err]; [|discriminate].
    assert (Hnext : Forall (fun m => IsDir m = false
                     /\ MIMEType m = "application/octet-stream")
                     (OSSStorage.convert_page fullKey (oss.Objects page) acc)).
    { rewrite convert_page_filter. apply Forall_app. split; [exact Hacc|].
      apply Forall_forall. intros m Hm. apply list_elem_of_In in Hm.
      apply in_map_iff in Hm. destruct Hm as [object [<- _]]. split; reflexivity. }
    destruct (length (oss.Objects page) <? OSSStorage.page_limit)%nat.
    + intros H. injection H as _ <-. exact Hnext.
    + apply IH. exact Hnext.
Qed.

(** C10: every entry [ListDir] of the OSS backend returns has [IsDir] false
    and the MIME type [application/octet-stream], whatever the listed keys
    are, those ending in the separator included. *)
Theorem ListDir_never_reports_directories (s : OSSStorageConfig.t)
  (dirPath : string) (responses : list (Result oss.ListObjectsResult))
  (b b' : store.Bucket) (fileMetas : list FileMetadata) :
  OSSStorage.ListDir s dirPath responses b = (b', Some (Ok fileMetas)) ->
  Forall (fun m => IsDir m = false
                   /\ MIMEType m = "application/octet-stream") fileMetas.
Proof.
  unfold OSSStorage.ListDir. apply ListDir_loop_entries. constructor.
Qed.

Lemma ListDir_never_reports_directories_witness :
  Forall (fun m => IsDir m = false
                   /\ MIMEType m = "application/octet-stream")
    [ {| Name := "/sub/"; Size := 3%Z; ModTime := 9%Z; IsDir := false;
         MIMEType := "application/octet-stream" |};
      {| Name := "/z.txt"; Size := 3%Z; ModTime := 9%Z; IsDir := false;
         MIMEType := "application/octet-stream" |} ].
Proof.
  apply (ListDir_never_reports_directories oss_cfg "dir" [Ok closing_page]
           empty_bucket
           (fst (OSSStorage.ListDir oss_cfg "dir" [Ok closing_page] empty_bucket))).
  vm_compute. reflexivity.
Defined.

(** ** Upload followed by download *)

Lemma os_Create_creates (p : string) (f f' : os.FS) :
  os.Create p f = (f', None) ->
  os.nodes f' !! p = Some (os.File [] (os.now f)) /\ os.now f' = os.now f.
Proof.
  unfold os.Create. destruct (String.eqb p ""); [discriminate|]. intros H.
  assert (Hnew : os.Stat (filepath.Dir p) f = Ok (os.Directory 0%Z)
                 \/ (exists t, os.Stat (filepath.Dir p) f = Ok (os.Directory t))
                 -> (os.set_nodes (<[p:=os.File [] (os.now f)]> (os.nodes f)) f,
                     @None error) = (f', None) ->
                 os.nodes f' !! p = Some (os.File [] (os.now f))
                 /\ os.now f' = os.now f).
  { intros _ E. injection E as <-. simpl. split; [apply lookup_insert_eq | reflexivity]. }
  destruct (os.Stat p f) as [[d t|t]|e]; try discriminate;
    destruct (os.Stat (filepath.Dir p) f) as [[d' t'|t']|e'] eqn:E;
    try discriminate; apply Hnew; eauto.
Qed.

Lemma os_Write_after_Create (p : string) (b : list byte) (f : os.FS) :
  os.nodes f !! p = Some (os.File [] (os.now f)) ->
  os.nodes (os.Write p b f) !! p = Some (os.File b (os.now f)).
Proof.
  intros H. unfold os.Write. rewrite H. simpl. apply lookup_insert_eq.
Qed.

(** A successful upload leaves a regular file with the uploaded bytes at the
    joined path. *)
Lemma LocalStorage_Upload_stores (s : LocalStorageConfig.t) (p : string)
  (b : list byte) (w w' : LocalStorage.World) :
  LocalStorage.Upload s p (NewReader b) w = (w', None) ->
  exists t, os.nodes (LocalStorage.fs w')
              !! filepath.Join (LocalStorageConfig.BasePath s) p
            = Some (os.File b t).
Proof.
  unfold LocalStorage.Upload.
  destruct (os.MkdirAll _ (LocalStorage.fs w)) as [fs1 [e1|]]; [discriminate|].
  destruct (os.Create _ fs1) as [fs2 [e2|]] eqn:Hcreate; [discriminate|].
  intros H. injection H as <-. simpl.
  apply os_Create_creates in Hcreate. destruct Hcreate as [Hnode Hnow].
  exists (os.now fs2). apply os_Write_after_Create. rewrite Hnow. exact Hnode.
Qed.

Lemma LocalStorage_Download_reads (s : LocalStorageConfig.t) (p : string)
  (c : list byte) (t : Time) (w : LocalStorage.World) :
  os.nodes (LocalStorage.fs w) !! filepath.Join (LocalStorageConfig.BasePath s) p
    = Some (os.File c t) ->
  exists w' r, LocalStorage.Download s p w = (w', Ok r)
               /\ content r = c /\ failure r = None.
Proof.
  intros H. unfold LocalStorage.Download, LocalStorage.download_producer,
    os.Open, os.Stat.
  rewrite H. simpl. eexists _, _. split; [reflexivity|]. split; reflexivity.
Qed.

Lemma store_put_stores (key : string) (c : list byte) (b b' : store.Bucket) :
  store.put key (NewReader c) b = (b', None) ->
  store.objects b' !! key = Some c /\ store.fault b' key = None.
Proof.
  unfold store.put. simpl.
  destruct (store.fault b key) eqn:Hfault; [discriminate|].
  intros H. injection H as <-. simpl. split; [apply lookup_insert_eq | exact Hfault].
Qed.

Lemma store_fetch_whole (key : string) (c : list byte) (b : store.Bucket)
  (r : store.Request) :
  store.objects b !! key = Some c -> store.fault b key = None ->
  store.fetch key None (store.record r b) = Ok c.
Proof.
  intros Hobj Hfault. unfold store.fetch. simpl. rewrite Hfault, Hobj. reflexivity.
Qed.

(** C1: on every backend, for every byte sequence [b] and logical path [p],
    when the upload of [b] to [p] succeeds, the download of [p] that follows
    returns a reader that yields exactly the bytes [b] and then ends. *)
Theorem upload_download_round_trip (st : Storage) (p : string)
  (b : list byte) (u u' : Universe) :
  Storage_Upload st p (NewReader b) u = (u', None) ->
  exists (u'' : Universe) (r : Reader),
    Storage_Download st p u' = (u'', Ok r)
    /\ content r = b /\ failure r = None.
Proof.
  destruct st as [s|s|s]; unfold Storage_Upload, Storage_Download.
  - unfold on_host.
    destruct (LocalStorage.Upload s p (NewReader b) (host u)) as [w' e] eqn:Hup.
    cbn [fst snd]. intros H. injection H as <- ->. cbn [fst snd host].
    destruct (LocalStorage_Upload_stores _ _ _ _ _ Hup) as [t Hnode].
    destruct (LocalStorage_Download_reads s p b t w' Hnode)
      as (w'' & r & Hdown & Hc & Hf).
    rewrite Hdown. cbn [fst snd]. eauto.
  - unfold on_oss, OSSStorage.Upload, OSSStorage.Download, oss.PutObject.
    destruct (store.put _ (NewReader b) (oss_bucket u)) as [b' e] eqn:Hput.
    cbn [fst snd]. intros H. injection H as <- ->. cbn [fst snd oss_bucket].
    destruct (store_put_stores _ _ _ _ Hput) as [Hobj Hfault].
    unfold oss.GetObject.
    rewrite (store_fetch_whole _ b b' _ Hobj Hfault). cbn. eauto.
  - unfold on_minio, MinIOStorage.Upload, MinIOStorage.Download,
      minio.PutObject, minio.GetObject.
    destruct (String.eqb _ "") eqn:Hkey.
    + simpl. discriminate.
    + destruct (store.put _ (NewReader b) (minio_bucket u)) as [b' e] eqn:Hput.
      cbn [fst snd]. intros H. injection H as <- ->.
      cbn [fst snd minio_bucket].
      destruct (store_put_stores _ _ _ _ Hput) as [Hobj Hfault].
      rewrite (store_fetch_whole _ b b' _ Hobj Hfault). cbn. eauto.
Qed.

Lemma upload_download_round_trip_witness :
  (exists (u'' : Universe) (r : Reader),
      Storage_Download (LocalStorage local_cfg) "a/b.txt"
        (fst (Storage_Upload (LocalStorage local_cfg) "a/b.txt"
                (NewReader (list_byte_of_string "hello")) empty_universe))
        = (u'', Ok r)
      /\ content r = list_byte_of_string "hello" /\ failure r = None)
  /\ (exists (u'' : Universe) (r : Reader),
      Storage_Download (OSSStorage oss_cfg) "a/b.txt"
        (fst (Storage_Upload (OSSStorage oss_cfg) "a/b.txt"
                (NewReader (list_byte_of_string "hello")) empty_universe))
        = (u'', Ok r)
      /\ content r = list_byte_of_string "hello" /\ failure r = None)
  /\ (exists (u'' : Universe) (r : Reader),
      Storage_Download (MinIOStorage minio_cfg) "a/b.txt"
        (fst (Storage_Upload (MinIOStorage minio_cfg) "a/b.txt"
                (NewReader (list_byte_of_string "hello")) empty_universe))
        = (u'', Ok r)
      /\ content r = list_byte_of_string "hello" /\ failure r = None).
Proof.
  split; [|split].
  - apply (upload_download_round_trip (LocalStorage local_cfg) "a/b.txt"
             (list_byte_of_string "hello") empty_universe).
    vm_compute. reflexivity.
  - apply (upload_download_round_trip (OSSStorage oss_cfg) "a/b.txt"
             (list_byte_of_string "hello") empty_universe).
    vm_compute. reflexivity.
  - apply (upload_download_round_trip (MinIOStorage minio_cfg) "a/b.txt"
             (list_byte_of_string "hello") empty_universe).
    vm_compute. reflexivity.
Defined.

(** ** Ranged download *)









(** ** Joined paths have no trailing separator *)

Lemma last_byte_cons (c : ascii) (s : string) :
  last_byte (String c s) =
    match last_byte s with
    | Some x => Some x
    | None => Some c
    end.
Proof.
  revert c. induction s as [|c' s IH]; intros c; [reflexivity|].
  change (last_byte (String c (String c' s))) with (last_byte (String c' s)).
  rewrite (IH c'). destruct (last_byte s); reflexivity.
Qed.

Lemma last_byte_app (a b : string) :
  last_byte (a ++ b) =
    match last_byte b with
    | Some c => Some c
    | None => last_byte a
    end.
Proof.
  induction a as [|c a IH].
  - change (EmptyString ++ b)%string with b.
    destruct (last_byte b); reflexivity.
  - change (String c a ++ b)%string with (String c (a ++ b)).
    rewrite !last_byte_cons, IH.
    destruct (last_byte b); [reflexivity|]. destruct (last_byte a); reflexivity.
Qed.

Lemma last_byte_none (s : string) : last_byte s = None -> s = "".
Proof.
  induction s as [|c s IH]; [reflexivity|]. simpl.
  destruct s; [discriminate|]. intros H. specialize (IH H). discriminate.
Qed.

Lemma sep_free_app (a b : string) : sep_free a -> sep_free b -> sep_free (a ++ b).
Proof. induction a as [|c a IH]; simpl; [tauto|]. intros [? ?] ?. split; auto. Qed.

Lemma sep_free_last_byte (s : string) (c : ascii) :
  sep_free s -> last_byte s = Some c -> c <> "/"%char.
Proof.
  induction s as [|c' s IH]; simpl; [discriminate|].
  intros [Hc Hs]. destruct s as [|c'' s'].
  - intros H. injection H as <-. exact Hc.
  - apply IH. exact Hs.
Qed.

Lemma split_acc_sep_free (p cur : string) :
  sep_free cur -> Forall sep_free (filepath.split_acc cur p).
Proof.
  revert cur. induction p as [|c p IH]; intros cur Hcur; simpl.
  - constructor; [exact Hcur|constructor].
  - destruct (Ascii.eqb c "/"%char) eqn:E.
    + constructor; [exact Hcur|]. apply IH. exact I.
    + apply IH. apply sep_free_app; [exact Hcur|]. simpl. split; [|exact I].
      intros ->. discriminate.
Qed.

Lemma clean_step_elements (r : bool) (out : list string) (e : string) :
  Forall path_element out -> sep_free e ->
  Forall path_element (filepath.clean_step r out e).
Proof.
  intros Hout He. unfold filepath.clean_step.
  destruct (String.eqb e "") eqn:E0; [exact Hout|].
  assert (Hne : e <> "") by (intros ->; discriminate).
  destruct (String.eqb e "."); [exact Hout|].
  destruct (String.eqb e "..").
  - destruct out as [|top below].
    + destruct r; [constructor|]. constructor; [split; assumption|constructor].
    + destruct (String.eqb top "..").
      * constructor; [split; assumption|exact Hout].
      * inversion Hout; assumption.
  - constructor; [split; assumption|exact Hout].
Qed.

Lemma fold_clean_step_elements (r : bool) (es out : list string) :
  Forall sep_free es -> Forall path_element out ->
  Forall path_element (fold_left (filepath.clean_step r) es out).
Proof.
  revert out. induction es as [|e es IH]; intros out Hes Hout; simpl.
  - exact Hout.
  - inversion Hes; subst. apply IH; [assumption|].
    apply clean_step_elements; assumption.
Qed.

Lemma join_elements_last_byte (es : list string) :
  Forall path_element es -> es <> [] ->
  exists c, last_byte (filepath.join_elements es) = Some c /\ c <> "/"%char.
Proof.
  induction es as [|e es IH]; intros Hes Hne; [congruence|].
  inversion Hes as [|? ? [He Hfree] Hrest]; subst.
  destruct es as [|e2 es'].
  - simpl. destruct (last_byte e) as [c|] eqn:E.
    + exists c. split; [reflexivity|]. eapply sep_free_last_byte; eassumption.
    + apply last_byte_none in E. contradiction.
  - destruct (IH Hrest ltac:(discriminate)) as [c [Hc Hsep]].
    exists c. split; [|exact Hsep].
    change (filepath.join_elements (e :: e2 :: es'))
      with (e ++ "/" ++ filepath.join_elements (e2 :: es'))%string.
    rewrite !last_byte_app, Hc. reflexivity.
Qed.

Lemma Clean_no_trailing_separator (path : string) :
  ends_with_separator (filepath.Clean path) = true -> filepath.Clean path = "/".
Proof.
  unfold filepath.Clean.
  destruct (String.eqb path ""); [discriminate|].
  set (out := rev (fold_left (filepath.clean_step (filepath.rooted path))
                             (filepath.elements path) [])).
  assert (Hout : Forall path_element out).
  { apply Forall_rev. apply fold_clean_step_elements; [|constructor].
    apply split_acc_sep_free. exact I. }
  cbv zeta.
  destruct out as [|e es] eqn:Eout.
  - simpl. destruct (filepath.rooted path); [reflexivity|discriminate].
  - destruct (join_elements_last_byte (e :: es) Hout ltac:(discriminate))
      as [c [Hc Hsep]].
    assert (Hbody : ends_with_separator (filepath.join_elements (e :: es)) = false).
    { unfold ends_with_separator. rewrite Hc.
      destruct (Ascii.eqb_spec c "/"%char); [contradiction|reflexivity]. }
    assert (Hroot : ends_with_separator ("/" ++ filepath.join_elements (e :: es))
                    = false).
    { unfold ends_with_separator. rewrite last_byte_app, Hc.
      destruct (Ascii.eqb_spec c "/"%char); [contradiction|reflexivity]. }
    destruct (filepath.rooted path).
    + rewrite Hroot. discriminate.
    + destruct (String.eqb (filepath.join_elements (e :: es)) "");
        [discriminate|].
      rewrite Hbody. discriminate.
Qed.

(** Whatever is joined, the result ends in the separator only when it is the
    root itself. *)
Lemma Join_no_trailing_separator (a b : string) :
  ends_with_separator (filepath.Join a b) = true -> filepath.Join a b = "/".
Proof.
  unfold filepath.Join.
  destruct (negb (String.eqb a "")); [apply Clean_no_trailing_separator|].
  destruct (negb (String.eqb b "")); [apply Clean_no_trailing_separator|].
  discriminate.
Qed.

(** ** Directory placeholders on the flat stores *)

(** The key [CreateDir] works on is a joined key: it ends in the separator
    only when it is the root. When the placeholder is absent and the call
    succeeds, an object of length zero is stored under that key. *)
Lemma OSS_CreateDir_placeholder (s : OSSStorageConfig.t) (dirPath : string)
  (b b' : store.Bucket) :
  let fullKey :=
    filepath.Join (OSSStorageConfig.BaseDir s) (ensureOSSDirPath dirPath) in
  store.objects b !! fullKey = None ->
  OSSStorage.CreateDir s dirPath b = (b', None) ->
  store.objects b' = <[fullKey := []]> (store.objects b)
  /\ (ends_with_separator fullKey = true -> fullKey = "/").
Proof.
  intros fullKey Habsent. unfold OSSStorage.CreateDir. fold fullKey.
  unfold oss.IsObjectExist, store.head. cbn [store.record store.fault store.objects].
  destruct (store.fault b fullKey) eqn:Hfault; [discriminate|].
  rewrite Habsent.
  rewrite bool_decide_eq_false_2 by (intros [x Hx]; discriminate).
  unfold oss.PutObject, store.put. cbn. rewrite Hfault.
  intros H. injection H as <-. cbn. split; [reflexivity|].
  apply Join_no_trailing_separator.
Qed.

Lemma MinIO_CreateDir_placeholder (s : MinIOStorageConfig.t) (dirPath : string)
  (b b' : store.Bucket) :
  let fullKey :=
    filepath.Join (MinIOStorageConfig.BaseDir s) (ensureOSSDirPath dirPath) in
  store.objects b !! fullKey = None ->
  MinIOStorage.CreateDir s dirPath b = (b', None) ->
  store.objects b' = <[fullKey := []]> (store.objects b)
  /\ (ends_with_separator fullKey = true -> fullKey = "/").
Proof.
  intros fullKey Habsent.
  unfold MinIOStorage.CreateDir, MinIOStorage.Upload. fold fullKey.
  unfold minio.StatObject, minio.PutObject.
  destruct (String.eqb fullKey "") eqn:Hkey; [discriminate|].
  unfold store.head. cbn [store.record store.fault store.objects].
  destruct (store.fault b fullKey) eqn:Hfault.
  - unfold store.put. cbn. rewrite Hfault. discriminate.
  - rewrite Habsent.
    rewrite bool_decide_eq_false_2 by (intros [x Hx]; discriminate).
    unfold store.put. cbn. rewrite Hfault.
    intros H. injection H as <-. cbn. split; [reflexivity|].
    apply Join_no_trailing_separator.
Qed.

(** C9, evaluated on the code: with base directory [base] and an empty
    bucket, [CreateDir("dir")] succeeds on both flat-store backends and the
    one object it uploads is empty and has the key [base/dir], which does not
    end in the separator: [filepath.Join] cleans away the [/] that
    [ensureOSSDirPath] has appended. *)
Theorem CreateDir_placeholder_key_loses_the_separator :
  ensureOSSDirPath "dir" = "dir/"
  /\ OSSStorage.CreateDir oss_cfg "dir" empty_bucket
     = ({| store.objects := {[ "base/dir" := [] ]};
           store.fault := fun _ => None;
           store.log := [store.ReqHead "base/dir"; store.ReqPut "base/dir"];
           store.bodies := no_handles |}, None)
  /\ MinIOStorage.CreateDir minio_cfg "dir" empty_bucket
     = ({| store.objects := {[ "base/dir" := [] ]};
           store.fault := fun _ => None;
           store.log := [store.ReqHead "base/dir"; store.ReqPut "base/dir"];
           store.bodies := no_handles |}, None)
  /\ ends_with_separator "base/dir" = false.
Proof. repeat split; vm_compute; reflexivity. Qed.

(** ** Directory deletion on the flat stores *)

Lemma deleted_keys_app (l1 l2 : list store.Request) :
  deleted_keys (l1 ++ l2) = deleted_keys l1 ++ deleted_keys l2.
Proof. unfold deleted_keys. apply flat_map_app. Qed.

(** On a service that does not fail, the inner loop of the OSS [DeleteDir]
    selects the listed keys that have the prefix and are no placeholder, and
    for each of them asks the bucket to delete the key joined once more to
    the base directory. *)
Lemma OSS_delete_page_requests (s : OSSStorageConfig.t) (fullKey : string)
  (objs : list oss.ObjectProperties) :
  forall b : store.Bucket,
    (forall key, store.fault b key = None) ->
    exists b' : store.Bucket,
      OSSStorage.delete_page s fullKey objs b = (b', None)
      /\ (forall key, store.fault b' key = None)
      /\ deleted_keys (store.log b')
         = deleted_keys (store.log b)
           ++ map (fun object =>
                     filepath.Join (OSSStorageConfig.BaseDir s) (oss.Key object))
                  (List.filter (OSSStorage.under_prefix fullKey) objs).
Proof.
  induction objs as [|object rest IH]; intros b Hfault.
  - exists b. simpl. rewrite app_nil_r. auto.
  - cbn [OSSStorage.delete_page List.filter].
    destruct (OSSStorage.under_prefix fullKey object).
    + unfold OSSStorage.Delete, oss.DeleteObject, store.remove.
      cbn [store.record store.fault]. rewrite Hfault.
      match goal with
      | |- context [OSSStorage.delete_page s fullKey rest ?b1] =>
          destruct (IH b1) as (b' & Hrun & Hfault' & Hlog); [exact Hfault|]
      end.
      exists b'. split; [exact Hrun|]. split; [exact Hfault'|].
      rewrite Hlog. cbn [store.log store.set_objects store.record].
      rewrite deleted_keys_app. cbn. rewrite <- app_assoc. reflexivity.
    + apply IH. exact Hfault.
Qed.

(** C4, evaluated on the code: with base directory [base], a bucket holding
    [base/dir/a.txt] and a listing that returns this key, the OSS
    [DeleteDir("dir")] asks the bucket to delete [base/base/dir/a.txt] and
    the object stays; the MinIO [DeleteDir("dir")] does the same and also asks
    for the listed key [base/dir], equal to the prefix, which it does not
    filter out. *)
Theorem DeleteDir_deletes_rejoined_keys :
  let b := bucket_with "base/dir/a.txt" (list_byte_of_string "x") in
  (snd (OSSStorage.DeleteDir oss_cfg "dir"
          [Ok (single_page ["base/dir/a.txt"])] b) = Some None
   /\ store.log (fst (OSSStorage.DeleteDir oss_cfg "dir"
                        [Ok (single_page ["base/dir/a.txt"])] b))
      = [store.ReqList "base/dir" ""; store.ReqDelete "base/base/dir/a.txt"]
   /\ store.objects (fst (OSSStorage.DeleteDir oss_cfg "dir"
                            [Ok (single_page ["base/dir/a.txt"])] b))
      = store.objects b)
  /\ (snd (MinIOStorage.DeleteDir minio_cfg "dir"
             [listed_info "base/dir"; listed_info "base/dir/a.txt"] b) = None
      /\ store.log (fst (MinIOStorage.DeleteDir minio_cfg "dir"
                           [listed_info "base/dir"; listed_info "base/dir/a.txt"] b))
         = [store.ReqList "base/dir" ""; store.ReqDelete "base/base/dir";
            store.ReqDelete "base/base/dir/a.txt"]
      /\ store.objects (fst (MinIOStorage.DeleteDir minio_cfg "dir"
                               [listed_info "base/dir"; listed_info "base/dir/a.txt"] b))
         = store.objects b).
Proof. repeat split; vm_compute; reflexivity. Qed.

(** ** Batches *)

Section BatchFacts.

Context {World : Type}.
Variable Upload : string -> Reader -> World -> World * option error.
Variable Download : string -> World -> World * Result Reader.
Variable Delete : string -> World -> World * option error.
Variable Close : Reader -> World -> World.

(** When the entries [done] succeed and the next one fails, the batch stops
    in the world that failure leaves and returns its error; what follows in
    the batch plays no part. *)
Lemma BatchDelete_fail_fast (done later : list string) (failing : string)
  (w w1 w2 : World) (err : error) :
  BatchDelete Delete done w = (w1, None) ->
  Delete failing w1 = (w2, Some err) ->
  BatchDelete Delete (done ++ failing :: later) w = (w2, Some err).
Proof.
  revert w. induction done as [|p done IH]; intros w Hdone Hfail; simpl in *.
  - injection Hdone as ->. rewrite Hfail. reflexivity.
  - destruct (Delete p w) as [w' [e|]]; [discriminate|]. apply IH; assumption.
Qed.

Lemma BatchUpload_fail_fast (done later : list (string * Reader))
  (failing : string * Reader) (w w1 w2 : World) (err : error) :
  BatchUpload Upload done w = (w1, None) ->
  Upload (fst failing) (snd failing) w1 = (w2, Some err) ->
  BatchUpload Upload (done ++ failing :: later) w = (w2, Some err).
Proof.
  revert w. induction done as [|[p r] done IH]; intros w Hdone Hfail; simpl in *.
  - injection Hdone as ->. destruct failing as [p r]. simpl in Hfail.
    rewrite Hfail. reflexivity.
  - destruct (Upload p r w) as [w' [e|]]; [discriminate|]. apply IH; assumption.
Qed.

(** [BatchDownload] stops in the same way, returns no map, and closes the
    readers its map holds at that moment. *)
Lemma BatchDownload_fail_fast (done later : list string) (failing : string)
  (results results' : gmap string Reader) (w w1 w2 : World) (err : error) :
  BatchDownload_from Download Close done results w = (w1, Ok results') ->
  Download failing w1 = (w2, Err err) ->
  BatchDownload_from Download Close (done ++ failing :: later) results w
    = (close_results Close results' w2, Err err).
Proof.
  revert w results.
  induction done as [|p done IH]; intros w results Hdone Hfail; simpl in *.
  - injection Hdone as -> ->. rewrite Hfail. reflexivity.
  - destruct (Download p w) as [w' [r|e]].
    + apply IH; assumption.
    + discriminate.
Qed.

End BatchFacts.

(** C8, evaluated on the code: on the OSS backend with an object under
    [a.txt] and none under [missing.txt], the batch download of [a.txt],
    [a.txt], [missing.txt] opens two streams, fails on the third entry with
    its error and returns no map, and one of the two streams is still open:
    the second reader has replaced the first one in the map under the same
    path, so only the second one is closed. *)
Theorem BatchDownload_repeated_path_leaves_stream_open :
  let b := bucket_with "base/a.txt" (list_byte_of_string "x") in
  snd (OSSStorage.BatchDownload oss_cfg ["a.txt"; "a.txt"; "missing.txt"] b)
    = Err NoSuchKey
  /\ store.log (fst (OSSStorage.BatchDownload oss_cfg
                       ["a.txt"; "a.txt"; "missing.txt"] b))
     = [store.ReqGet "base/a.txt" None; store.ReqGet "base/a.txt" None;
        store.ReqGet "base/missing.txt" None]
  /\ open_streams (store.bodies
       (fst (OSSStorage.BatchDownload oss_cfg
               ["a.txt"; "a.txt"; "missing.txt"] b))) = [0]
  /\ open_streams (store.bodies
       (fst (OSSStorage.BatchDownload oss_cfg
               ["a.txt"; "missing.txt"] b))) = [].
Proof. repeat split; vm_compute; reflexivity. Qed.

(** *** Where the cleanup of [BatchDownload] is complete

    For pairwise distinct paths the map holds every reader the call has
    opened, and the cleanup closes them all. *)

Lemma close_reader_live (r : Reader) (h : Handles) (id : nat) :
  id ∈ live (close_reader r h) <-> id ∈ live h /\ handle r <> Some id.
Proof.
  unfold close_reader. destruct (handle r) as [k|]; simpl.
  - rewrite elem_of_difference, elem_of_singleton. split.
    + intros [Hin Hne]. split; [exact Hin|]. intros [= ->]. apply Hne. reflexivity.
    + intros [Hin Hne]. split; [exact Hin|]. intros ->. apply Hne. reflexivity.
  - split; [intros Hin; split; [exact Hin|discriminate] | tauto].
Qed.

Lemma close_each_live (l : list (string * Reader)) (b : store.Bucket) (id : nat) :
  id ∈ live (store.bodies (foldr (fun kr w => store.Close (snd kr) w) b l))
  <-> id ∈ live (store.bodies b)
      /\ forall kr, kr ∈ l -> handle (snd kr) <> Some id.
Proof.
  induction l as [|kr l IH]; simpl.
  - split; [intros H; split; [exact H|] | tauto].
    intros kr Hkr. inversion Hkr.
  - unfold store.Close at 1. cbn [store.bodies store.set_bodies].
    rewrite close_reader_live, IH. split.
    + intros [[Hin Hl] Hkr]. split; [exact Hin|].
      intros kr' Hin'. apply elem_of_cons in Hin'. destruct Hin' as [->|Hin']; auto.
    + intros [Hin Hall]. split; [split; [exact Hin|]|].
      * intros kr' Hin'. apply Hall. apply elem_of_cons. right. exact Hin'.
      * apply Hall. apply elem_of_cons. left. reflexivity.
Qed.

Lemma close_results_live (results : gmap string Reader) (b : store.Bucket)
  (id : nat) :
  id ∈ live (store.bodies (close_results store.Close results b))
  <-> id ∈ live (store.bodies b) /\ ~ held results id.
Proof.
  unfold close_results. rewrite close_each_live. split.
  - intros [Hin Hall]. split; [exact Hin|]. intros (p & r & Hp & Hr).
    apply (Hall (p, r)); [|exact Hr]. apply elem_of_map_to_list. exact Hp.
  - intros [Hin Hnot]. split; [exact Hin|]. intros [p r] Hkr Hr.
    apply Hnot. exists p, r. split; [|exact Hr].
    apply elem_of_map_to_list in Hkr. exact Hkr.
Qed.

Lemma held_insert (results : gmap string Reader) (p : string) (r : Reader)
  (id : nat) :
  results !! p = None ->
  held (<[p := r]> results) id <-> handle r = Some id \/ held results id.
Proof.
  intros Hfresh. unfold held. split.
  - intros (q & r' & Hq & Hr'). destruct (decide (p = q)) as [->|Hne].
    + rewrite lookup_insert_eq in Hq. injection Hq as ->. left. exact Hr'.
    + rewrite lookup_insert_ne in Hq by exact Hne. right. eauto.
  - intros [Hr|(q & r' & Hq & Hr')].
    + exists p, r. split; [apply lookup_insert_eq|exact Hr].
    + exists q, r'. split; [|exact Hr'].
      rewrite lookup_insert_ne; [exact Hq|]. intros ->. congruence.
Qed.

(** What a download of the OSS backend does to the open streams. *)
Lemma OSS_Download_opens (s : OSSStorageConfig.t) (p : string)
  (b b1 : store.Bucket) (r : Reader) :
  OSSStorage.Download s p b = (b1, Ok r) ->
  handle r = Some (next (store.bodies b))
  /\ live (store.bodies b1) = {[ next (store.bodies b) ]} ∪ live (store.bodies b)
  /\ next (store.bodies b1) = S (next (store.bodies b)).
Proof.
  unfold OSSStorage.Download, oss.GetObject.
  destruct (store.fetch _ None _); [|discriminate].
  cbn. intros H. injection H as <- <-. cbn. auto.
Qed.

Lemma OSS_Download_fails (s : OSSStorageConfig.t) (p : string)
  (b b1 : store.Bucket) (err : error) :
  OSSStorage.Download s p b = (b1, Err err) ->
  store.bodies b1 = store.bodies b.
Proof.
  unfold OSSStorage.Download, oss.GetObject.
  destruct (store.fetch _ None _); [discriminate|].
  intros H. injection H as <- _. reflexivity.
Qed.

Lemma OSS_BatchDownload_holds_what_it_opens (s : OSSStorageConfig.t)
  (L0 : gset nat) (n0 : nat) (done : list string) :
  forall (results results' : gmap string Reader) (b b1 : store.Bucket),
    NoDup done ->
    (forall p, p ∈ done -> results !! p = None) ->
    (forall id, id ∈ live (store.bodies b) <-> id ∈ L0 \/ held results id) ->
    (forall id, held results id -> n0 <= id < next (store.bodies b)) ->
    n0 <= next (store.bodies b) ->
    BatchDownload_from (OSSStorage.Download s) store.Close done results b
      = (b1, Ok results') ->
    (forall id, id ∈ live (store.bodies b1) <-> id ∈ L0 \/ held results' id)
    /\ (forall id, held results' id -> n0 <= id).
Proof.
  induction done as [|p done IH];
    intros results results' b b1 Hnodup Hfresh Hlive Hheld Hn0; simpl.
  - intros H. injection H as <- <-. split; [exact Hlive|].
    intros id Hid. apply Hheld in Hid. lia.
  - destruct (OSSStorage.Download s p b) as [b2 [r|e]] eqn:Hd; [|discriminate].
    apply OSS_Download_opens in Hd. destruct Hd as (Hr & Hlive2 & Hnext2).
    apply NoDup_cons in Hnodup. destruct Hnodup as [Hp Hnodup].
    assert (Hresp : results !! p = None)
      by (apply Hfresh; apply elem_of_cons; left; reflexivity).
    apply IH; [exact Hnodup| | | |lia].
    + intros q Hq. rewrite lookup_insert_ne.
      * apply Hfresh. apply elem_of_cons. right. exact Hq.
      * intros ->. contradiction.
    + intros id. rewrite Hlive2, elem_of_union, elem_of_singleton, Hlive,
        (held_insert _ _ _ _ Hresp), Hr.
      split.
      * intros [->|[H|H]]; auto.
      * intros [H|[[= <-]|H]]; auto.
    + intros id. rewrite (held_insert _ _ _ _ Hresp), Hr, Hnext2.
      intros [[= <-]|H]; [lia|]. apply Hheld in H. lia.
Qed.

(** X1: On the OSS backend, a batch download of pairwise distinct paths that
    fails leaves open exactly the streams that were open before the call. *)
Lemma OSS_BatchDownload_distinct_paths_closes_all (s : OSSStorageConfig.t)
  (done later : list string) (failing : string)
  (results' : gmap string Reader) (b b1 b2 : store.Bucket) (err : error) :
  NoDup done ->
  (forall id, id ∈ live (store.bodies b) -> id < next (store.bodies b)) ->
  OSSStorage.BatchDownload s done b = (b1, Ok results') ->
  OSSStorage.Download s failing b1 = (b2, Err err) ->
  exists b' : store.Bucket,
    OSSStorage.BatchDownload s (done ++ failing :: later) b = (b', Err err)
    /\ live (store.bodies b') = live (store.bodies b).
Proof.
  intros Hnodup Hbelow Hdone Hfail.
  unfold OSSStorage.BatchDownload, BatchDownload in *.
  rewrite (BatchDownload_fail_fast _ _ done later failing ∅ results' b b1 b2 err
             Hdone Hfail).
  eexists. split; [reflexivity|].
  destruct (OSS_BatchDownload_holds_what_it_opens s (live (store.bodies b))
              (next (store.bodies b)) done ∅ results' b b1 Hnodup)
    as [Hlive Hheld]; try assumption.
  - intros p _. apply lookup_empty.
  - intros id. split; [auto|]. intros [H|(p & r & Hp & _)]; [exact H|].
    rewrite lookup_empty in Hp. discriminate.
  - intros id (p & r & Hp & _). rewrite lookup_empty in Hp. discriminate.
  - lia.
  - apply set_eq. intros id. rewrite close_results_live.
    rewrite (OSS_Download_fails _ _ _ _ _ Hfail), Hlive. split.
    + intros [[H|H] Hnot]; [exact H|contradiction].
    + intros H. split; [left; exact H|].
      intros Hh. apply Hheld in Hh. apply Hbelow in H. lia.
Qed.

(** * Further properties of the code *)

(** ** The backend selector, beyond the default *)

Lemma eqb_false_ne (a b : string) : String.eqb a b = false <-> a <> b.
Proof. apply String.eqb_neq. Qed.

Lemma orb5_false (a b c d e : bool) :
  a || b || c || d || e = false ->
  a = false /\ b = false /\ c = false /\ d = false /\ e = false.
Proof. destruct a, b, c, d, e; simpl; intros H; try discriminate; auto. Qed.

(** What [GetStorage] does after the options: it is decided by the
    configuration the options leave. *)
Lemma GetStorage_after_options (TempDir : string)
  (oc : OSSStorageConfig.t -> bool) (mc : MinIOStorageConfig.t -> bool)
  (s : Types.t) (opts : list StorageOption) :
  GetStorage TempDir oc mc s opts
  = GetStorage TempDir oc mc (fold_left (fun s opt => opt s) opts s) [].
Proof.
  unfold GetStorage. simpl fold_left.
  set (s1 := fold_left (fun s0 opt => opt s0) opts s).
  destruct (String.eqb (Types.AssignMode s1) "" && negb (String.eqb (Types.Mode s1) ""));
    [reflexivity|].
  destruct (String.eqb (Types.AssignMode s1) "" && String.eqb (Types.Mode s1) "");
    reflexivity.
Qed.

(** X2: Every backend [GetStorage] returns is the one the assigned mode names,
    built from the configuration of that mode, with a base path that is not
    empty and is the one returned beside it; a network backend has all five
    required fields set. *)
Theorem GetStorage_returns_valid_backend (TempDir : string)
  (oc : OSSStorageConfig.t -> bool) (mc : MinIOStorageConfig.t -> bool)
  (s s' : Types.t) (opts : list StorageOption) (base : string) (st : Storage) :
  GetStorage TempDir oc mc s opts = (s', (base, Some st)) ->
  base <> "" /\ backend_of s' base st.
Proof.
  unfold GetStorage.
  set (s1 := fold_left (fun s0 opt => opt s0) opts s).
  assert (Hgen : forall (s2 : Types.t) (o : list StorageOption),
    (if String.eqb (Types.AssignMode s2) StorageType.MinIO then
      if String.eqb (MinIOStorageConfig.BaseDir (Types.Minio s2)) ""
         || String.eqb (MinIOStorageConfig.Endpoint (Types.Minio s2)) ""
         || String.eqb (MinIOStorageConfig.AccessKeyID (Types.Minio s2)) ""
         || String.eqb (MinIOStorageConfig.AccessKeySecret (Types.Minio s2)) ""
         || String.eqb (MinIOStorageConfig.Bucket (Types.Minio s2)) ""
      then (s2, ("", None))
      else (s2, (MinIOStorageConfig.BaseDir (Types.Minio s2),
                 NewMinIOStorage mc (Types.Minio s2)))
    else if String.eqb (Types.AssignMode s2) StorageType.OSS then
      if String.eqb (OSSStorageConfig.BaseDir (Types.Oss s2)) ""
         || String.eqb (OSSStorageConfig.Endpoint (Types.Oss s2)) ""
         || String.eqb (OSSStorageConfig.AccessKeyID (Types.Oss s2)) ""
         || String.eqb (OSSStorageConfig.AccessKeySecret (Types.Oss s2)) ""
         || String.eqb (OSSStorageConfig.Bucket (Types.Oss s2)) ""
      then (s2, ("", None))
      else (s2, (OSSStorageConfig.BaseDir (Types.Oss s2),
                 NewOSSStorage oc (Types.Oss s2)))
    else
      if String.eqb (LocalStorageConfig.BasePath (Types.Local s2)) ""
      then (s2, ("", None))
      else (s2, (LocalStorageConfig.BasePath (Types.Local s2),
                 NewLocalStorage (Types.Local s2))))
    = (s', (base, Some st)) -> base <> "" /\ backend_of s' base st).
  { intros s2 o.
    destruct (String.eqb (Types.AssignMode s2) StorageType.MinIO) eqn:Em.
    - destruct (_ || _) eqn:Ev; [discriminate|].
      unfold NewMinIOStorage. destruct (mc _); [|discriminate].
      intros H. injection H as <- <- <-.
      apply orb5_false in Ev. destruct Ev as (E1 & E2 & E3 & E4 & E5).
      apply eqb_false_ne in E1, E2, E3, E4, E5. apply String.eqb_eq in Em.
      split; [exact E1|]. simpl. unfold minio_complete. auto 10.
    - destruct (String.eqb (Types.AssignMode s2) StorageType.OSS) eqn:Eo.
      + destruct (_ || _) eqn:Ev; [discriminate|].
        unfold NewOSSStorage. destruct (oc _); [|discriminate].
        intros H. injection H as <- <- <-.
        apply orb5_false in Ev. destruct Ev as (E1 & E2 & E3 & E4 & E5).
        apply eqb_false_ne in E1, E2, E3, E4, E5. apply String.eqb_eq in Eo.
        split; [exact E1|]. simpl. unfold oss_complete. auto 10.
      + destruct (String.eqb (LocalStorageConfig.BasePath _) "") eqn:Eb;
          [discriminate|].
        intros H. injection H as <- <- <-.
        apply eqb_false_ne in Eb, Em, Eo. split; [exact Eb|]. simpl. auto. }
  destruct (String.eqb (Types.AssignMode s1) "" && negb (String.eqb (Types.Mode s1) ""));
    [apply (Hgen _ opts)|].
  destruct (String.eqb (Types.AssignMode s1) "" && String.eqb (Types.Mode s1) "");
    apply (Hgen _ opts).
Qed.

Lemma GetStorage_returns_valid_backend_witness :
  "base" <> ""
  /\ backend_of (WithAssignMode StorageType.OSS (WithOSSConfig oss_cfg Types.zero))
                "base" (OSSStorage oss_cfg).
Proof.
  apply (GetStorage_returns_valid_backend "/tmp" (fun _ => true) (fun _ => true)
           Types.zero _ [WithOSSConfig oss_cfg]).
  vm_compute. reflexivity.
Defined.

(** X3: A mode that is neither [minio] nor [oss] selects the filesystem backend:
    with no mode assigned before, [WithMode(m)] for any other non-empty [m]
    ([s3], [cos], a misspelling) returns the local backend on the configured
    base path. *)
Theorem GetStorage_unknown_mode_is_local (TempDir : string)
  (oc : OSSStorageConfig.t -> bool) (mc : MinIOStorageConfig.t -> bool)
  (s : Types.t) (m : StorageType) :
  Types.AssignMode s = "" ->
  m <> "" -> m <> StorageType.MinIO -> m <> StorageType.OSS ->
  LocalStorageConfig.BasePath (Types.Local s) <> "" ->
  snd (GetStorage TempDir oc mc s [WithMode m])
  = (LocalStorageConfig.BasePath (Types.Local s),
     Some (LocalStorage (Types.Local s))).
Proof.
  intros Ha Hm Hminio Hoss Hbase. unfold GetStorage. simpl fold_left.
  unfold WithMode at 1 2 3. cbn [Types.AssignMode Types.Mode].
  rewrite Ha. apply eqb_false_ne in Hm, Hminio, Hoss, Hbase.
  rewrite Hm. cbn [String.eqb andb negb].
  unfold WithAssignMode, WithMode. cbn [Types.AssignMode Types.Mode Types.Local].
  rewrite Hminio, Hoss, Hbase. reflexivity.
Qed.

Lemma GetStorage_unknown_mode_is_local_witness :
  snd (GetStorage "/tmp" (fun _ => true) (fun _ => true)
         (WithLocalConfig local_cfg (WithMode "" Types.zero)) [WithMode "s3"])
  = (LocalStorageConfig.BasePath
       (Types.Local (WithLocalConfig local_cfg (WithMode "" Types.zero))),
     Some (LocalStorage
             (Types.Local (WithLocalConfig local_cfg (WithMode "" Types.zero))))).
Proof.
  apply (GetStorage_unknown_mode_is_local "/tmp" (fun _ => true) (fun _ => true)
           (WithLocalConfig local_cfg (WithMode "" Types.zero)) "s3");
    [reflexivity | discriminate | discriminate | discriminate | discriminate].
Defined.

(** X4: [GetStorage] writes the mode it has selected into the configuration, and
    from then on [WithMode] no longer decides: a second call on the same
    configuration with another mode returns what the first call returned. *)
Theorem GetStorage_first_mode_sticks (TempDir : string)
  (oc : OSSStorageConfig.t -> bool) (mc : MinIOStorageConfig.t -> bool)
  (s : Types.t) (m1 m2 : StorageType) :
  Types.AssignMode s = "" -> m1 <> "" ->
  Types.AssignMode (fst (GetStorage TempDir oc mc s [WithMode m1])) = m1
  /\ snd (GetStorage TempDir oc mc
            (fst (GetStorage TempDir oc mc s [WithMode m1])) [WithMode m2])
     = snd (GetStorage TempDir oc mc s [WithMode m1]).
Proof.
  intros Ha Hm1. apply eqb_false_ne in Hm1.
  assert (Hfirst : GetStorage TempDir oc mc s [WithMode m1]
                   = GetStorage TempDir oc mc
                       (WithAssignMode m1 (WithMode m1 s)) []).
  { unfold GetStorage. simpl fold_left.
    unfold WithMode at 1 2 3. cbn [Types.AssignMode Types.Mode].
    rewrite Ha, Hm1. cbn [String.eqb andb negb].
    unfold WithAssignMode, WithMode.
    cbn [Types.AssignMode Types.Mode Types.Local Types.Minio Types.Oss
         Types.MaxSize].
    rewrite Hm1. reflexivity. }
  assert (Hfst : forall s0 : Types.t,
             Types.AssignMode s0 <> "" ->
             fst (GetStorage TempDir oc mc s0 []) = s0).
  { intros s0 H0. apply eqb_false_ne in H0. unfold GetStorage. simpl fold_left.
    rewrite H0. cbn [andb].
    destruct (String.eqb (Types.AssignMode s0) StorageType.MinIO);
      [destruct (_ || _); reflexivity|].
    destruct (String.eqb (Types.AssignMode s0) StorageType.OSS);
      [destruct (_ || _); reflexivity|].
    destruct (String.eqb (LocalStorageConfig.BasePath (Types.Local s0)) "");
      reflexivity. }
  assert (Hsnd : forall s0 s3 : Types.t,
             Types.AssignMode s0 <> "" ->
             Types.AssignMode s3 = Types.AssignMode s0 ->
             Types.Local s3 = Types.Local s0 ->
             Types.Minio s3 = Types.Minio s0 ->
             Types.Oss s3 = Types.Oss s0 ->
             snd (GetStorage TempDir oc mc s3 [])
             = snd (GetStorage TempDir oc mc s0 [])).
  { intros s0 s3 H0 Ea El Em Eo. apply eqb_false_ne in H0.
    unfold GetStorage. simpl fold_left.
    rewrite Ea, H0. cbn [andb]. rewrite ?Ea, ?El, ?Em, ?Eo.
    destruct (String.eqb (Types.AssignMode s0) StorageType.MinIO);
      [destruct (_ || _); reflexivity|].
    destruct (String.eqb (Types.AssignMode s0) StorageType.OSS);
      [destruct (_ || _); reflexivity|].
    destruct (String.eqb (LocalStorageConfig.BasePath (Types.Local s0)) "");
      reflexivity. }
  rewrite Hfirst.
  rewrite Hfst by (cbn; apply eqb_false_ne; exact Hm1).
  split; [reflexivity|].
  rewrite GetStorage_after_options. simpl fold_left.
  apply Hsnd; try reflexivity.
  cbn. apply eqb_false_ne. exact Hm1.
Qed.

Lemma GetStorage_first_mode_sticks_witness :
  Types.AssignMode
    (fst (GetStorage "/tmp" (fun _ => true) (fun _ => true)
            (WithLocalConfig local_cfg (WithMode "" Types.zero))
            [WithMode StorageType.Local])) = StorageType.Local
  /\ snd (GetStorage "/tmp" (fun _ => true) (fun _ => true)
            (fst (GetStorage "/tmp" (fun _ => true) (fun _ => true)
                    (WithLocalConfig local_cfg (WithMode "" Types.zero))
                    [WithMode StorageType.Local]))
            [WithMode StorageType.OSS])
     = snd (GetStorage "/tmp" (fun _ => true) (fun _ => true)
              (WithLocalConfig local_cfg (WithMode "" Types.zero))
              [WithMode StorageType.Local]).
Proof.
  apply (GetStorage_first_mode_sticks "/tmp" (fun _ => true) (fun _ => true)
           (WithLocalConfig local_cfg (WithMode "" Types.zero))
           StorageType.Local StorageType.OSS);
    [reflexivity | discriminate].
Defined.

(** The default options do give the default backend when the caller passes
    them: on the zero configuration they select the filesystem backend on
    the temporary directory. *)
Theorem GetStorage_with_default_options (TempDir : string)
  (oc : OSSStorageConfig.t -> bool) (mc : MinIOStorageConfig.t -> bool) :
  TempDir <> "" ->
  snd (GetStorage TempDir oc mc Types.zero (DefaultStorageOptions TempDir))
  = (TempDir, Some (LocalStorage (LocalStorageConfig.mk TempDir))).
Proof.
  intros H. apply eqb_false_ne in H.
  unfold GetStorage, DefaultStorageOptions. cbn. rewrite H. reflexivity.
Qed.

Lemma GetStorage_with_default_options_witness :
  snd (GetStorage "/tmp" (fun _ => true) (fun _ => true) Types.zero
         (DefaultStorageOptions "/tmp"))
  = ("/tmp", Some (LocalStorage (LocalStorageConfig.mk "/tmp"))).
Proof.
  apply (GetStorage_with_default_options "/tmp" (fun _ => true) (fun _ => true)).
  discriminate.
Defined.

(** X5: A configuration option also sets the mode, and options apply in order:
    [WithOSSConfig] after [WithMode(m)] selects the OSS backend whatever [m]
    is, when no mode was assigned before, the configuration is complete and
    the client can be built. *)
Theorem GetStorage_config_option_sets_mode (TempDir : string)
  (oc : OSSStorageConfig.t -> bool) (mc : MinIOStorageConfig.t -> bool)
  (s : Types.t) (m : StorageType) (c : OSSStorageConfig.t) :
  Types.AssignMode s = "" -> oss_complete c -> oc c = true ->
  snd (GetStorage TempDir oc mc s [WithMode m; WithOSSConfig c])
  = (OSSStorageConfig.BaseDir c, Some (OSSStorage c)).
Proof.
  intros Ha (H1 & H2 & H3 & H4 & H5) Hoc.
  apply eqb_false_ne in H1, H2, H3, H4, H5.
  unfold GetStorage. simpl fold_left.
  unfold WithOSSConfig at 1 2 3, WithMode at 1 2 3.
  cbn [Types.AssignMode Types.Mode]. rewrite Ha. cbn.
  rewrite H1, H2, H3, H4, H5. cbn. unfold NewOSSStorage. rewrite Hoc. reflexivity.
Qed.

Lemma GetStorage_config_option_sets_mode_witness :
  snd (GetStorage "/tmp" (fun _ => true) (fun _ => true) Types.zero
         [WithMode StorageType.Local; WithOSSConfig oss_cfg])
  = (OSSStorageConfig.BaseDir oss_cfg, Some (OSSStorage oss_cfg)).
Proof.
  apply (GetStorage_config_option_sets_mode "/tmp" (fun _ => true)
           (fun _ => true) Types.zero StorageType.Local oss_cfg);
    [reflexivity | repeat split; discriminate | reflexivity].
Defined.

(** X6: When the assigned mode is [oss], a configuration with one of the five
    required fields empty gives no backend, however complete the filesystem
    configuration is: there is no fallback. The same holds for [minio]. *)
Theorem GetStorage_incomplete_network_config_is_nil (TempDir : string)
  (oc : OSSStorageConfig.t -> bool) (mc : MinIOStorageConfig.t -> bool)
  (s : Types.t) :
  (Types.AssignMode s = StorageType.OSS -> ~ oss_complete (Types.Oss s) ->
   GetStorage TempDir oc mc s [] = (s, ("", None)))
  /\ (Types.AssignMode s = StorageType.MinIO -> ~ minio_complete (Types.Minio s) ->
      GetStorage TempDir oc mc s [] = (s, ("", None))).
Proof.
  split; intros Ha Hinc; unfold GetStorage; simpl fold_left; rewrite Ha; cbn;
    rewrite ?Ha; cbn.
  - destruct (_ || _) eqn:Ev; [reflexivity|]. exfalso. apply Hinc.
    apply orb5_false in Ev. destruct Ev as (E1 & E2 & E3 & E4 & E5).
    apply eqb_false_ne in E1, E2, E3, E4, E5. unfold oss_complete. auto.
  - destruct (_ || _) eqn:Ev; [reflexivity|]. exfalso. apply Hinc.
    apply orb5_false in Ev. destruct Ev as (E1 & E2 & E3 & E4 & E5).
    apply eqb_false_ne in E1, E2, E3, E4, E5. unfold minio_complete. auto.
Qed.

(** ** The driver registry *)

(** X7: After a driver is registered for a type, [CreateStorage] of that type
    returns what its factory returns, the registration made last counts, the
    other types are as before, and a type nobody registered gives nil: so
    does every type when the process starts. *)
Theorem CreateStorage_after_register (t t' : StorageType)
  (f g : unit -> option Storage)
  (drivers : gmap string (unit -> option Storage)) :
  CreateStorage t (RegisterStorageDriver t f drivers) = f tt
  /\ CreateStorage t (RegisterStorageDriver t f (RegisterStorageDriver t g drivers))
     = f tt
  /\ (t <> t' ->
      CreateStorage t' (RegisterStorageDriver t f drivers)
      = CreateStorage t' drivers)
  /\ CreateStorage t storageDrivers_at_start = None.
Proof.
  unfold CreateStorage, RegisterStorageDriver, storageDrivers_at_start.
  split; [|split; [|split]].
  - rewrite lookup_insert_eq. reflexivity.
  - rewrite lookup_insert_eq. reflexivity.
  - intros Hne. rewrite lookup_insert_ne by exact Hne. reflexivity.
  - rewrite lookup_empty. reflexivity.
Qed.

Lemma GetStorage_incomplete_network_config_is_nil_witness :
  GetStorage "/tmp" (fun _ => true) (fun _ => true)
    (WithAssignMode StorageType.OSS (WithLocalConfig local_cfg Types.zero)) []
  = (WithAssignMode StorageType.OSS (WithLocalConfig local_cfg Types.zero),
     ("", None)).
Proof.
  apply (proj1 (GetStorage_incomplete_network_config_is_nil "/tmp"
                  (fun _ => true) (fun _ => true)
                  (WithAssignMode StorageType.OSS
                     (WithLocalConfig local_cfg Types.zero)))).
  - reflexivity.
  - intros (H & _). apply H. reflexivity.
Defined.

Lemma CreateStorage_after_register_witness :
  CreateStorage StorageType.OSS
    (RegisterStorageDriver StorageType.Local
       (fun _ => Some (LocalStorage local_cfg)) storageDrivers_at_start)
  = CreateStorage StorageType.OSS storageDrivers_at_start.
Proof.
  apply (proj1 (proj2 (proj2 (CreateStorage_after_register
           StorageType.Local StorageType.OSS
           (fun _ => Some (LocalStorage local_cfg))
           (fun _ => None) storageDrivers_at_start)))).
  discriminate.
Defined.

(** ** Directory paths and joined keys *)

Lemma last_byte_snoc (s : string) (c : ascii) :
  last_byte (s ++ String c EmptyString) = Some c.
Proof. rewrite last_byte_app. reflexivity. Qed.

(** [ensureOSSDirPath] leaves the empty path empty, makes every other path
    end in the separator, and changes nothing when applied again. *)
Theorem ensureOSSDirPath_ends_in_separator (path : string) :
  ensureOSSDirPath "" = ""
  /\ (path <> "" -> ends_with_separator (ensureOSSDirPath path) = true)
  /\ ensureOSSDirPath (ensureOSSDirPath path) = ensureOSSDirPath path.
Proof.
  split; [reflexivity|].
  unfold ensureOSSDirPath at 1 3 4, ends_with_separator.
  destruct (last_byte path) as [c|] eqn:E.
  - destruct (Ascii.eqb c "/"%char) eqn:Ec.
    + split.
      * intros _. rewrite E, Ec. reflexivity.
      * unfold ensureOSSDirPath. rewrite E, Ec. reflexivity.
    + split.
      * intros _. rewrite last_byte_snoc. reflexivity.
      * unfold ensureOSSDirPath. rewrite last_byte_snoc. reflexivity.
  - apply last_byte_none in E. subst path. split; [congruence|reflexivity].
Qed.

Lemma ensureOSSDirPath_ends_in_separator_witness :
  ends_with_separator (ensureOSSDirPath "dir") = true.
Proof.
  apply (proj1 (proj2 (ensureOSSDirPath_ends_in_separator "dir"))).
  discriminate.
Defined.

Lemma split_acc_trailing_separator (p cur : string) :
  filepath.split_acc cur (p ++ "/") = filepath.split_acc cur p ++ [""].
Proof.
  revert cur. induction p as [|c p IH]; intros cur.
  - reflexivity.
  - change (String c p ++ "/")%string with (String c (p ++ "/")).
    cbn [filepath.split_acc]. destruct (Ascii.eqb c "/"%char).
    + rewrite IH. reflexivity.
    + apply IH.
Qed.

Lemma append_not_empty (p q : string) : p <> "" -> (p ++ q)%string <> "".
Proof. destruct p; [congruence|]. intros _. discriminate. Qed.

Lemma Clean_trailing_separator (p : string) :
  p <> "" -> filepath.Clean (p ++ "/") = filepath.Clean p.
Proof.
  intros Hp. unfold filepath.Clean.
  assert (Hr : filepath.rooted (p ++ "/") = filepath.rooted p)
    by (destruct p; [congruence|reflexivity]).
  destruct (String.eqb_spec (p ++ "/") "") as [E|_];
    [exfalso; revert E; apply append_not_empty; exact Hp|].
  destruct (String.eqb_spec p "") as [E|_]; [congruence|].
  unfold filepath.elements. rewrite split_acc_trailing_separator, Hr.
  rewrite fold_left_app. reflexivity.
Qed.

Lemma append_assoc (a b c : string) : ((a ++ b) ++ c = a ++ (b ++ c))%string.
Proof.
  induction a as [|x a IH]; [reflexivity|].
  change ((String x a ++ b) ++ c)%string with (String x ((a ++ b) ++ c)).
  rewrite IH. reflexivity.
Qed.

(** X8: The separator [ensureOSSDirPath] appends never reaches the key: for
    every base and directory path, joining the base with the ensured path
    gives the key of the path as it was, the one a file of that name has. *)
Theorem Join_drops_the_ensured_separator (base dirPath : string) :
  filepath.Join base (ensureOSSDirPath dirPath) = filepath.Join base dirPath.
Proof.
  unfold ensureOSSDirPath.
  destruct (last_byte dirPath) as [c|] eqn:E; [|reflexivity].
  destruct (Ascii.eqb c "/"%char); [reflexivity|].
  assert (Hd : dirPath <> "") by (intros ->; discriminate).
  unfold filepath.Join.
  destruct (String.eqb_spec base "") as [->|Hb]; cbn [negb].
  - destruct (String.eqb_spec (dirPath ++ "/") "") as [E0|_];
      [exfalso; revert E0; apply append_not_empty; exact Hd|].
    destruct (String.eqb_spec dirPath "") as [E0|_]; [congruence|].
    cbn [negb]. apply Clean_trailing_separator. exact Hd.
  - rewrite <- !append_assoc. apply Clean_trailing_separator.
    apply append_not_empty. apply append_not_empty. exact Hb.
Qed.

(** ** The filesystem backend: ranges, metadata, partial uploads *)

(** X9: [DownloadRange] on a regular file never fails for an offset that is not
    negative: the reader yields the bytes from [offset] on, at most [size] of
    them and none when [size] is zero or negative, fewer when the file ends
    before, and then ends. For a negative offset the reader yields nothing
    and fails with the error of the seek. *)
Theorem LocalStorage_DownloadRange_clamps (s : LocalStorageConfig.t)
  (filePath : string) (c : list byte) (t : Time) (offset size : Z)
  (w : LocalStorage.World) :
  node_at w (local_path s filePath) = Some (os.File c t) ->
  exists (w' : LocalStorage.World) (r : Reader),
    LocalStorage.DownloadRange s filePath offset size w = (w', Ok r)
    /\ ((0 <= offset)%Z ->
        content r = take (Z.to_nat size) (drop (Z.to_nat offset) c)
        /\ failure r = None)
    /\ ((offset < 0)%Z -> content r = [] /\ failure r = Some EINVAL).
Proof.
  unfold node_at, local_path. intros Hnode.
  unfold LocalStorage.DownloadRange, LocalStorage.range_producer, os.Open, os.Stat.
  rewrite Hnode. cbn [open_handle]. eexists _, _. split; [reflexivity|].
  cbn [content failure]. destruct (offset <? 0)%Z eqn:Eo.
  - apply Z.ltb_lt in Eo. split; [lia|]. intros _. split; reflexivity.
  - apply Z.ltb_ge in Eo. split; [|lia]. intros _.
    unfold io.LimitReader, io.read_from. cbn [fst snd].
    destruct (size <=? 0)%Z eqn:Es.
    + apply Z.leb_le in Es. replace (Z.to_nat size) with 0%nat by lia.
      split; reflexivity.
    + destruct (Z.of_nat (length (drop (Z.to_nat offset) c)) <? size)%Z eqn:El.
      * apply Z.ltb_lt in El. cbn [fst snd].
        rewrite take_ge by lia. split; reflexivity.
      * split; reflexivity.
Qed.

Lemma LocalStorage_DownloadRange_clamps_witness :
  exists (w' : LocalStorage.World) (r : Reader),
    LocalStorage.DownloadRange local_cfg "f.bin" 3 100
      (host_with "/data/f.bin" (list_byte_of_string "hello") 5%Z) = (w', Ok r)
    /\ ((0 <= 3)%Z ->
        content r = take (Z.to_nat 100)
                         (drop (Z.to_nat 3) (list_byte_of_string "hello"))
        /\ failure r = None)
    /\ ((3 < 0)%Z -> content r = [] /\ failure r = Some EINVAL).
Proof.
  apply (LocalStorage_DownloadRange_clamps local_cfg "f.bin"
           (list_byte_of_string "hello") 5%Z 3 100
           (host_with "/data/f.bin" (list_byte_of_string "hello") 5%Z)).
  vm_compute. reflexivity.
Defined.

(** X10: After a successful upload of [b], the metadata of the path has the name
    as the caller gave it, the size of [b], and is not a directory. *)
Theorem LocalStorage_Upload_then_GetMetadata (dir_size : Z)
  (s : LocalStorageConfig.t) (filePath : string) (b : list byte)
  (w w' : LocalStorage.World) :
  LocalStorage.Upload s filePath (NewReader b) w = (w', None) ->
  exists t : Time,
    LocalStorage.GetMetadata dir_size s filePath w'
    = (w', Ok {| Name := filePath; Size := Z.of_nat (length b); ModTime := t;
                 IsDir := false; MIMEType := "application/octet-stream" |}).
Proof.
  intros Hup. destruct (LocalStorage_Upload_stores _ _ _ _ _ Hup) as [t Hnode].
  exists t. unfold LocalStorage.GetMetadata, os.Stat. rewrite Hnode. reflexivity.
Qed.

Lemma LocalStorage_Upload_then_GetMetadata_witness :
  exists t : Time,
    LocalStorage.GetMetadata 4096 local_cfg "a/b.txt"
      (fst (LocalStorage.Upload local_cfg "a/b.txt"
              (NewReader (list_byte_of_string "hello")) empty_host))
    = (fst (LocalStorage.Upload local_cfg "a/b.txt"
              (NewReader (list_byte_of_string "hello")) empty_host),
       Ok {| Name := "a/b.txt";
             Size := Z.of_nat (length (list_byte_of_string "hello"));
             ModTime := t; IsDir := false;
             MIMEType := "application/octet-stream" |}).
Proof.
  apply (LocalStorage_Upload_then_GetMetadata 4096 local_cfg "a/b.txt"
           (list_byte_of_string "hello") empty_host).
  vm_compute. reflexivity.
Defined.

(** X11: An upload whose reader fails after some bytes is not rolled back: where
    an upload of nothing succeeds, the upload from a reader that yields [c]
    and then fails returns the reader's error and leaves a file that holds
    [c]. *)
Theorem LocalStorage_Upload_keeps_partial_file (s : LocalStorageConfig.t)
  (filePath : string) (c : list byte) (e : error)
  (w w0 : LocalStorage.World) :
  LocalStorage.Upload s filePath (NewReader []) w = (w0, None) ->
  exists (w' : LocalStorage.World) (t : Time),
    LocalStorage.Upload s filePath (failing_reader c e) w = (w', Some e)
    /\ node_at w' (local_path s filePath) = Some (os.File c t).
Proof.
  unfold LocalStorage.Upload, node_at, local_path.
  destruct (os.MkdirAll _ (LocalStorage.fs w)) as [fs1 [e1|]]; [discriminate|].
  destruct (os.Create _ fs1) as [fs2 [e2|]] eqn:Hcreate; [discriminate|].
  intros _. apply os_Create_creates in Hcreate. destruct Hcreate as [Hnode Hnow].
  eexists _, (os.now fs2). split; [reflexivity|]. cbn.
  apply os_Write_after_Create. rewrite Hnow. exact Hnode.
Qed.

Lemma LocalStorage_Upload_keeps_partial_file_witness :
  exists (w' : LocalStorage.World) (t : Time),
    LocalStorage.Upload local_cfg "a/b.txt"
      (failing_reader (list_byte_of_string "hel") (ReaderError "reset"))
      empty_host = (w', Some (ReaderError "reset"))
    /\ node_at w' (local_path local_cfg "a/b.txt")
       = Some (os.File (list_byte_of_string "hel") t).
Proof.
  apply (LocalStorage_Upload_keeps_partial_file local_cfg "a/b.txt"
           (list_byte_of_string "hel") (ReaderError "reset") empty_host
           (fst (LocalStorage.Upload local_cfg "a/b.txt" (NewReader []) empty_host))).
  vm_compute. reflexivity.
Defined.

Lemma os_Remove_removes (p : string) (f f' : os.FS) :
  os.Remove p f = (f', None) -> os.nodes f' = delete p (os.nodes f).
Proof.
  unfold os.Remove. destruct (os.nodes f !! p) as [[d t|t]|]; try discriminate.
  - intros H. injection H as <-. reflexivity.
  - destruct (os.children p f); [|discriminate].
    intros H. injection H as <-. reflexivity.
Qed.

(** X12: After a successful delete the path names nothing: its metadata cannot be
    read, and a download of it returns a reader that fails at once, both
    with the not-found error. (The path is not the root or the working
    directory.) *)
Theorem LocalStorage_Delete_then_not_found (dir_size : Z)
  (s : LocalStorageConfig.t) (filePath : string)
  (w w' : LocalStorage.World) :
  os.implicit_dir (local_path s filePath) = false ->
  LocalStorage.Delete s filePath w = (w', None) ->
  LocalStorage.GetMetadata dir_size s filePath w' = (w', Err ENOENT)
  /\ exists (w'' : LocalStorage.World) (r : Reader),
       LocalStorage.Download s filePath w' = (w'', Ok r)
       /\ content r = [] /\ failure r = Some ENOENT.
Proof.
  unfold local_path. intros Himp. unfold LocalStorage.Delete.
  destruct (os.Remove _ (LocalStorage.fs w)) as [fs1 [e|]] eqn:Hrm; [discriminate|].
  intros H. injection H as <-. apply os_Remove_removes in Hrm.
  assert (Hstat : os.Stat (filepath.Join (LocalStorageConfig.BasePath s) filePath)
                          fs1 = Err ENOENT).
  { unfold os.Stat. rewrite Hrm, lookup_delete_eq, Himp. reflexivity. }
  split.
  - unfold LocalStorage.GetMetadata. cbn [LocalStorage.fs LocalStorage.set_fs].
    rewrite Hstat. reflexivity.
  - unfold LocalStorage.Download, LocalStorage.download_producer, os.Open.
    cbn [LocalStorage.fs LocalStorage.set_fs]. rewrite Hstat.
    eexists _, _. split; [reflexivity|]. split; reflexivity.
Qed.

Lemma LocalStorage_Delete_then_not_found_witness :
  LocalStorage.GetMetadata 4096 local_cfg "f.bin"
    (fst (LocalStorage.Delete local_cfg "f.bin"
            (host_with "/data/f.bin" (list_byte_of_string "x") 5%Z)))
  = (fst (LocalStorage.Delete local_cfg "f.bin"
            (host_with "/data/f.bin" (list_byte_of_string "x") 5%Z)),
     Err ENOENT)
  /\ exists (w'' : LocalStorage.World) (r : Reader),
       LocalStorage.Download local_cfg "f.bin"
         (fst (LocalStorage.Delete local_cfg "f.bin"
                 (host_with "/data/f.bin" (list_byte_of_string "x") 5%Z)))
       = (w'', Ok r)
       /\ content r = [] /\ failure r = Some ENOENT.
Proof.
  apply (LocalStorage_Delete_then_not_found 4096 local_cfg "f.bin"
           (host_with "/data/f.bin" (list_byte_of_string "x") 5%Z)).
  - reflexivity.
  - vm_compute. reflexivity.
Defined.

(** ** The filesystem backend: rename and copy *)

Lemma os_Create_nodes (p : string) (f f' : os.FS) :
  os.Create p f = (f', None) ->
  f' = os.set_nodes (<[p := os.File [] (os.now f)]> (os.nodes f)) f.
Proof.
  unfold os.Create. destruct (String.eqb p ""); [discriminate|].
  destruct (os.Stat p f) as [[d t|t]|e]; try discriminate;
    destruct (os.Stat (filepath.Dir p) f) as [[d' t'|t']|e'];
    try discriminate; intros H; injection H as <-; reflexivity.
Qed.

(** X13: A successful rename of a regular file to another path is one step of
    the filesystem: afterwards the new path holds the file as it was, the
    old path names nothing, and every other path is as before. *)
Theorem LocalStorage_Rename_moves_file (s : LocalStorageConfig.t)
  (oldPath newPath : string) (c : list byte) (t : Time)
  (w w' : LocalStorage.World) :
  node_at w (local_path s oldPath) = Some (os.File c t) ->
  local_path s oldPath <> local_path s newPath ->
  LocalStorage.Rename s oldPath newPath w = (w', None) ->
  node_at w' (local_path s newPath) = Some (os.File c t)
  /\ node_at w' (local_path s oldPath) = None
  /\ forall p : string,
       p <> local_path s oldPath -> p <> local_path s newPath ->
       node_at w' p = node_at w p.
Proof.
  unfold node_at, local_path, LocalStorage.Rename. intros Hold Hne.
  set (old := filepath.Join (LocalStorageConfig.BasePath s) oldPath) in *.
  set (new := filepath.Join (LocalStorageConfig.BasePath s) newPath) in *.
  destruct (os.Rename old new (LocalStorage.fs w)) as [fs1 [e|]] eqn:Hrn;
    [discriminate|].
  intros H. injection H as <-. cbn [LocalStorage.fs LocalStorage.set_fs].
  assert (Hnodes : os.nodes fs1
                   = <[new := os.File c t]> (delete old (os.nodes (LocalStorage.fs w)))).
  { revert Hrn. unfold os.Rename.
    assert (Hstat : os.Stat old (LocalStorage.fs w) = Ok (os.File c t))
      by (unfold os.Stat; rewrite Hold; reflexivity).
    rewrite Hstat.
    destruct (os.Stat new (LocalStorage.fs w)) as [[d' t'|t']|e'];
      try discriminate;
      (destruct (String.eqb new ""); [discriminate|]);
      (destruct (os.implicit_dir old); [discriminate|]);
      (destruct (os.Stat (filepath.Dir new) (LocalStorage.fs w))
         as [[d2 t2|t2]|e2]; try discriminate);
      intros H; injection H as <-; reflexivity. }
  rewrite Hnodes. split; [apply lookup_insert_eq|]. split.
  - rewrite lookup_insert_ne by congruence. apply lookup_delete_eq.
  - intros p Hp1 Hp2. rewrite lookup_insert_ne by congruence.
    apply lookup_delete_ne. congruence.
Qed.

Lemma LocalStorage_Rename_moves_file_witness :
  node_at (fst (LocalStorage.Rename local_cfg "a.txt" "b.txt"
                  (host_after_upload "a.txt" (list_byte_of_string "hello"))))
          (local_path local_cfg "b.txt")
  = Some (os.File (list_byte_of_string "hello") 7%Z)
  /\ node_at (fst (LocalStorage.Rename local_cfg "a.txt" "b.txt"
                     (host_after_upload "a.txt" (list_byte_of_string "hello"))))
             (local_path local_cfg "a.txt") = None
  /\ forall p : string,
       p <> local_path local_cfg "a.txt" -> p <> local_path local_cfg "b.txt" ->
       node_at (fst (LocalStorage.Rename local_cfg "a.txt" "b.txt"
                       (host_after_upload "a.txt" (list_byte_of_string "hello")))) p
       = node_at (host_after_upload "a.txt" (list_byte_of_string "hello")) p.
Proof.
  apply (LocalStorage_Rename_moves_file local_cfg "a.txt" "b.txt"
           (list_byte_of_string "hello") 7%Z
           (host_after_upload "a.txt" (list_byte_of_string "hello"))).
  - vm_compute. reflexivity.
  - vm_compute. discriminate.
  - vm_compute. reflexivity.
Defined.

(** X14: A successful copy of a regular file to another path leaves the source as
    it was and a file with the same bytes at the destination. *)
Theorem LocalStorage_Copy_copies_file (s : LocalStorageConfig.t)
  (srcPath dstPath : string) (c : list byte) (t : Time)
  (w w' : LocalStorage.World) :
  node_at w (local_path s srcPath) = Some (os.File c t) ->
  local_path s srcPath <> local_path s dstPath ->
  LocalStorage.Copy s srcPath dstPath w = (w', None) ->
  node_at w' (local_path s srcPath) = Some (os.File c t)
  /\ exists t' : Time, node_at w' (local_path s dstPath) = Some (os.File c t').
Proof.
  unfold node_at, local_path, LocalStorage.Copy. intros Hsrc Hne.
  set (src := filepath.Join (LocalStorageConfig.BasePath s) srcPath) in *.
  set (dst := filepath.Join (LocalStorageConfig.BasePath s) dstPath) in *.
  unfold os.Open at 1. unfold os.Stat at 1. rewrite Hsrc.
  destruct (os.Create dst (LocalStorage.fs w)) as [fs1 [e|]] eqn:Hc; [discriminate|].
  apply os_Create_nodes in Hc. subst fs1.
  unfold os.Open, os.Stat. cbn [os.nodes os.set_nodes].
  rewrite lookup_insert_ne by congruence. rewrite Hsrc.
  cbn [io.read_from fst snd]. intros H. injection H as <-.
  cbn [LocalStorage.fs LocalStorage.set_fs]. unfold os.Write.
  cbn [os.nodes os.set_nodes os.now]. rewrite lookup_insert_eq.
  cbn [os.nodes os.set_nodes os.now]. split.
  - rewrite !lookup_insert_ne by congruence. exact Hsrc.
  - eexists. rewrite lookup_insert_eq. reflexivity.
Qed.

Lemma LocalStorage_Copy_copies_file_witness :
  node_at (fst (LocalStorage.Copy local_cfg "a.txt" "b.txt"
                  (host_after_upload "a.txt" (list_byte_of_string "hello"))))
          (local_path local_cfg "a.txt")
  = Some (os.File (list_byte_of_string "hello") 7%Z)
  /\ exists t' : Time,
       node_at (fst (LocalStorage.Copy local_cfg "a.txt" "b.txt"
                       (host_after_upload "a.txt" (list_byte_of_string "hello"))))
               (local_path local_cfg "b.txt")
       = Some (os.File (list_byte_of_string "hello") t').
Proof.
  apply (LocalStorage_Copy_copies_file local_cfg "a.txt" "b.txt"
           (list_byte_of_string "hello") 7%Z
           (host_after_upload "a.txt" (list_byte_of_string "hello"))).
  - vm_compute. reflexivity.
  - vm_compute. discriminate.
  - vm_compute. reflexivity.
Defined.

(** X15: A copy of a file onto itself, under the same or another spelling of its
    path, empties it: the destination is truncated before the source is
    read, and the call still reports success. *)
Theorem LocalStorage_Copy_onto_itself_truncates (s : LocalStorageConfig.t)
  (srcPath dstPath : string) (c : list byte) (t : Time)
  (w w' : LocalStorage.World) :
  node_at w (local_path s srcPath) = Some (os.File c t) ->
  local_path s srcPath = local_path s dstPath ->
  LocalStorage.Copy s srcPath dstPath w = (w', None) ->
  exists t' : Time, node_at w' (local_path s srcPath) = Some (os.File [] t').
Proof.
  unfold node_at, local_path, LocalStorage.Copy. intros Hsrc Heq.
  rewrite <- Heq.
  set (src := filepath.Join (LocalStorageConfig.BasePath s) srcPath) in *.
  unfold os.Open at 1. unfold os.Stat at 1. rewrite Hsrc.
  destruct (os.Create src (LocalStorage.fs w)) as [fs1 [e|]] eqn:Hc; [discriminate|].
  apply os_Create_nodes in Hc. subst fs1.
  unfold os.Open, os.Stat. cbn [os.nodes os.set_nodes].
  rewrite lookup_insert_eq. cbn [io.read_from fst snd].
  intros H. injection H as <-.
  cbn [LocalStorage.fs LocalStorage.set_fs]. unfold os.Write.
  cbn [os.nodes os.set_nodes os.now]. rewrite lookup_insert_eq.
  cbn [os.nodes os.set_nodes os.now]. eexists. rewrite lookup_insert_eq.
  reflexivity.
Qed.

Lemma LocalStorage_Copy_onto_itself_truncates_witness :
  exists t' : Time,
    node_at (fst (LocalStorage.Copy local_cfg "a.txt" "./a.txt"
                    (host_after_upload "a.txt" (list_byte_of_string "hello"))))
            (local_path local_cfg "a.txt")
    = Some (os.File [] t').
Proof.
  apply (LocalStorage_Copy_onto_itself_truncates local_cfg "a.txt" "./a.txt"
           (list_byte_of_string "hello") 7%Z
           (host_after_upload "a.txt" (list_byte_of_string "hello"))).
  - vm_compute. reflexivity.
  - vm_compute. reflexivity.
  - vm_compute. reflexivity.
Defined.

(** ** The filesystem backend: directories *)

Lemma mkdir_each_keeps_directories (ps : list string) :
  forall (f f' : os.FS),
    os.mkdir_each ps f = (f', None) ->
    os.now f' = os.now f
    /\ (forall k t, os.nodes f !! k = Some (os.Directory t) ->
                    os.nodes f' !! k = Some (os.Directory t))
    /\ (forall p, p ∈ ps -> exists t, os.nodes f' !! p = Some (os.Directory t)).
Proof.
  induction ps as [|p ps IH]; intros f f'; cbn [os.mkdir_each].
  - intros H. injection H as <-. split; [reflexivity|]. split; [auto|].
    intros p Hp. inversion Hp.
  - destruct (os.nodes f !! p) as [[d t|t]|] eqn:E; [discriminate| |].
    + intros H. destruct (IH _ _ H) as (Hnow & Hkeep & Hall).
      split; [exact Hnow|]. split; [exact Hkeep|].
      intros q Hq. apply elem_of_cons in Hq. destruct Hq as [->|Hq]; eauto.
    + intros H. destruct (IH _ _ H) as (Hnow & Hkeep & Hall).
      cbn [os.nodes os.set_nodes os.now] in *.
      split; [exact Hnow|]. split.
      * intros k t Hk. apply Hkeep. rewrite lookup_insert_ne; [exact Hk|].
        intros ->. congruence.
      * intros q Hq. apply elem_of_cons in Hq. destruct Hq as [->|Hq]; [|eauto].
        eexists. apply Hkeep. apply lookup_insert_eq.
Qed.

Lemma mkdir_each_nothing_to_do (ps : list string) (f : os.FS) :
  (forall p, p ∈ ps -> exists t, os.nodes f !! p = Some (os.Directory t)) ->
  os.mkdir_each ps f = (f, None).
Proof.
  induction ps as [|p ps IH]; intros Hall; cbn [os.mkdir_each]; [reflexivity|].
  destruct (Hall p) as [t Ht]; [apply elem_of_cons; left; reflexivity|].
  rewrite Ht. apply IH. intros q Hq. apply Hall. apply elem_of_cons. right.
  exact Hq.
Qed.

(** [CreateDir] is idempotent: after it has succeeded, the same call
    succeeds again and changes nothing. *)
Theorem LocalStorage_CreateDir_idempotent (s : LocalStorageConfig.t)
  (dirPath : string) (w w' : LocalStorage.World) :
  LocalStorage.CreateDir s dirPath w = (w', None) ->
  LocalStorage.CreateDir s dirPath w' = (w', None).
Proof.
  unfold LocalStorage.CreateDir, os.MkdirAll.
  destruct (os.mkdir_each _ (LocalStorage.fs w)) as [fs1 [e|]] eqn:H; [discriminate|].
  intros Hw. injection Hw as <-. cbn [LocalStorage.fs LocalStorage.set_fs].
  destruct (mkdir_each_keeps_directories _ _ _ H) as (_ & _ & Hall).
  rewrite (mkdir_each_nothing_to_do _ _ Hall). reflexivity.
Qed.

Lemma LocalStorage_CreateDir_idempotent_witness :
  LocalStorage.CreateDir local_cfg "a/b"
    (fst (LocalStorage.CreateDir local_cfg "a/b" empty_host))
  = (fst (LocalStorage.CreateDir local_cfg "a/b" empty_host), None).
Proof.
  apply (LocalStorage_CreateDir_idempotent local_cfg "a/b" empty_host).
  vm_compute. reflexivity.
Defined.



(** [DeleteDir] does not remove through a regular file: when a file is on
    the way to the joined path, the call fails and the filesystem is as it
    was. On the root it removes everything and then fails. *)
Theorem LocalStorage_DeleteDir_refused (s : LocalStorageConfig.t)
  (dirPath : string) (w : LocalStorage.World) :
  (local_path s dirPath <> "" -> local_path s dirPath <> "/" ->
   os.endsWithDot (local_path s dirPath) = false ->
   os.file_on_the_way (local_path s dirPath) (LocalStorage.fs w) = true ->
   LocalStorage.DeleteDir s dirPath w
   = (LocalStorage.set_fs (LocalStorage.fs w) w, Some ENOTDIR))
  /\ (local_path s dirPath = "/" ->
      exists w' : LocalStorage.World,
        LocalStorage.DeleteDir s dirPath w = (w', Some os.EBUSY)
        /\ forall k, node_at w' k = None).
Proof.
  unfold local_path, node_at, LocalStorage.DeleteDir, os.RemoveAll. split.
  - intros Hne Hroot Hdot Hway.
    apply eqb_false_ne in Hne. apply eqb_false_ne in Hroot.
    rewrite Hne, Hdot, Hroot, Hway. reflexivity.
  - intros ->. eexists. split; [reflexivity|].
    intros k. cbn [LocalStorage.fs LocalStorage.set_fs os.nodes os.set_nodes].
    apply lookup_empty.
Qed.

Lemma LocalStorage_DeleteDir_refused_witness :
  LocalStorage.DeleteDir local_cfg "a/b.txt/c"
    (host_after_upload "a/b.txt" (list_byte_of_string "hello"))
  = (LocalStorage.set_fs
       (LocalStorage.fs (host_after_upload "a/b.txt" (list_byte_of_string "hello")))
       (host_after_upload "a/b.txt" (list_byte_of_string "hello")),
     Some ENOTDIR)
  /\ exists w' : LocalStorage.World,
       LocalStorage.DeleteDir (LocalStorageConfig.mk "/") ""
         (host_after_upload "a/b.txt" (list_byte_of_string "hello"))
       = (w', Some os.EBUSY)
       /\ forall k, node_at w' k = None.
Proof.
  split.
  - apply (proj1 (LocalStorage_DeleteDir_refused local_cfg "a/b.txt/c"
                    (host_after_upload "a/b.txt" (list_byte_of_string "hello")))).
    + vm_compute. discriminate.
    + vm_compute. discriminate.
    + vm_compute. reflexivity.
    + vm_compute. reflexivity.
  - apply (proj2 (LocalStorage_DeleteDir_refused (LocalStorageConfig.mk "/") ""
                    (host_after_upload "a/b.txt" (list_byte_of_string "hello")))).
    vm_compute. reflexivity.
Defined.

(** ** The filesystem backend: batches *)

Lemma LocalStorage_BatchDownload_from_total (s : LocalStorageConfig.t)
  (filePaths : list string) :
  forall (results : gmap string Reader) (w : LocalStorage.World),
  exists (w' : LocalStorage.World) (results' : gmap string Reader),
    BatchDownload_from (LocalStorage.Download s) LocalStorage.Close
                       filePaths results w = (w', Ok results')
    /\ forall p, is_Some (results' !! p) <-> p ∈ filePaths \/ is_Some (results !! p).
Proof.
  induction filePaths as [|p ps IH]; intros results w; cbn [BatchDownload_from].
  - eexists _, _. split; [reflexivity|]. intros p. split; [auto|].
    intros [H|H]; [inversion H|exact H].
  - unfold LocalStorage.Download at 1. cbn [open_handle].
    match goal with
    | |- context [BatchDownload_from _ _ ps ?r ?w1] =>
        destruct (IH r w1) as (w' & results' & Hrun & Hdom)
    end.
    exists w', results'. split; [exact Hrun|]. intros q. rewrite Hdom.
    rewrite lookup_insert_is_Some, elem_of_cons. split.
    + intros [H|[H|[_ H]]]; auto.
    + intros [[->|H]|H]; auto.
      destruct (decide (p = q)) as [->|Hne]; auto.
Qed.

(** X17: [BatchDownload] of the filesystem backend cannot fail: for any list of
    paths, missing files included, it returns a map that has a reader for
    exactly the paths of the list. *)
Theorem LocalStorage_BatchDownload_never_fails (s : LocalStorageConfig.t)
  (filePaths : list string) (w : LocalStorage.World) :
  exists (w' : LocalStorage.World) (results : gmap string Reader),
    LocalStorage.BatchDownload s filePaths w = (w', Ok results)
    /\ forall p, is_Some (results !! p) <-> p ∈ filePaths.
Proof.
  destruct (LocalStorage_BatchDownload_from_total s filePaths ∅ w)
    as (w' & results & Hrun & Hdom).
  exists w', results. split; [exact Hrun|]. intros p. rewrite Hdom.
  rewrite lookup_empty. split; [|auto].
  intros [H|H]; [exact H|]. destruct H. discriminate.
Qed.

(** ** Cleaned paths and the directories on their way *)

Lemma Clean_render (path : string) :
  exists (r : bool) (es : list string),
    Forall path_element es /\ filepath.Clean path = render r es.
Proof.
  unfold filepath.Clean.
  destruct (String.eqb path "").
  - exists false, []. split; [constructor|reflexivity].
  - exists (filepath.rooted path),
      (rev (fold_left (filepath.clean_step (filepath.rooted path))
                      (filepath.elements path) [])).
    split; [|reflexivity].
    apply Forall_rev. apply fold_clean_step_elements; [|constructor].
    apply split_acc_sep_free. exact I.
Qed.

Lemma split_acc_sep_free_prefix (e rest cur : string) :
  sep_free e ->
  filepath.split_acc cur (e ++ rest) = filepath.split_acc (cur ++ e) rest.
Proof.
  revert cur. induction e as [|c e IH]; intros cur Hfree.
  - change (EmptyString ++ rest)%string with rest.
    replace (cur ++ "")%string with cur; [reflexivity|].
    clear. induction cur as [|x cur IH]; [reflexivity|].
    change (String x cur ++ "")%string with (String x (cur ++ "")).
    rewrite <- IH. reflexivity.
  - destruct Hfree as [Hc Hfree].
    change (String c e ++ rest)%string with (String c (e ++ rest)).
    cbn [filepath.split_acc].
    destruct (Ascii.eqb_spec c "/"%char) as [->|_]; [congruence|].
    rewrite IH by exact Hfree. rewrite append_assoc. reflexivity.
Qed.

Lemma split_acc_join_elements (es : list string) (cur : string) :
  Forall path_element es ->
  filepath.split_acc cur (filepath.join_elements es) =
    match es with
    | [] => [cur]
    | e :: es' => (cur ++ e)%string :: es'
    end.
Proof.
  revert cur. induction es as [|e es IH]; intros cur Hes; [reflexivity|].
  inversion Hes as [|? ? [He Hfree] Hrest]; subst.
  destruct es as [|e2 es'].
  - cbn [filepath.join_elements].
    replace e with (e ++ "")%string at 1.
    + rewrite split_acc_sep_free_prefix by exact Hfree. reflexivity.
    + clear. induction e as [|x e IH]; [reflexivity|].
      change (String x e ++ "")%string with (String x (e ++ "")).
      rewrite IH. reflexivity.
  - change (filepath.join_elements (e :: e2 :: es'))
      with (e ++ "/" ++ filepath.join_elements (e2 :: es'))%string.
    rewrite split_acc_sep_free_prefix by exact Hfree.
    change ("/" ++ filepath.join_elements (e2 :: es'))%string
      with (String "/"%char (filepath.join_elements (e2 :: es'))).
    cbn [filepath.split_acc]. cbn [Ascii.eqb Bool.eqb].
    rewrite (IH "" Hrest). reflexivity.
Qed.

Lemma filter_path_elements (es : list string) :
  Forall path_element es ->
  filter (fun e => negb (String.eqb e "") = true) es = es.
Proof.
  induction 1 as [|e es [He _] _ IH]; [reflexivity|].
  rewrite filter_cons_True.
  - rewrite IH. reflexivity.
  - apply eqb_false_ne in He. rewrite He. reflexivity.
Qed.

Lemma ancestors_from_last (es : list string) (pre : string) :
  es <> [] ->
  last (os.ancestors_from pre es) = Some (pre ++ filepath.join_elements es)%string.
Proof.
  revert pre. induction es as [|e es IH]; intros pre Hne; [congruence|].
  destruct es as [|e2 es'].
  - reflexivity.
  - change (os.ancestors_from pre (e :: e2 :: es'))
      with ((pre ++ e)%string
              :: os.ancestors_from ((pre ++ e) ++ "/")%string (e2 :: es')).
    rewrite last_cons, IH by discriminate.
    change (filepath.join_elements (e :: e2 :: es'))
      with (e ++ "/" ++ filepath.join_elements (e2 :: es'))%string.
    rewrite <- !append_assoc. reflexivity.
Qed.

Lemma path_element_first_byte (e : string) :
  path_element e -> exists c rest, e = String c rest /\ c <> "/"%char.
Proof.
  intros [Hne Hfree]. destruct e as [|c rest]; [congruence|].
  exists c, rest. split; [reflexivity|]. exact (proj1 Hfree).
Qed.

(** A cleaned path that is not the root or the working directory is the
    last of the directories on its way. *)
Lemma ancestors_of_rendered (r : bool) (es : list string) :
  Forall path_element es ->
  os.implicit_dir (render r es) = false ->
  last (os.ancestors (render r es)) = Some (render r es).
Proof.
  intros Hes Himp. unfold os.ancestors. rewrite Himp.
  destruct es as [|e es'].
  - destruct r; discriminate.
  - assert (Hjoin : exists c rest,
               filepath.join_elements (e :: es') = String c rest /\ c <> "/"%char).
    { inversion Hes as [|? ? He _]; subst.
      destruct (path_element_first_byte e He) as (c & rest & -> & Hc).
      destruct es'; cbn [filepath.join_elements]; eauto. }
    destruct Hjoin as (c & rest & Hj & Hc).
    unfold render in *. destruct r.
    + change (filepath.rooted ("/" ++ filepath.join_elements (e :: es'))) with true.
      unfold filepath.elements.
      change ("/" ++ filepath.join_elements (e :: es'))%string
        with (String "/"%char (filepath.join_elements (e :: es'))).
      cbn [filepath.split_acc Ascii.eqb Bool.eqb].
      rewrite split_acc_join_elements by exact Hes.
      rewrite filter_cons_False by (cbn; congruence).
      change ("" ++ e)%string with e.
      rewrite filter_path_elements by exact Hes.
      apply ancestors_from_last. discriminate.
    + rewrite Hj in *. cbn [String.eqb] in *. rewrite <- Hj in *.
      assert (Hroot : filepath.rooted (filepath.join_elements (e :: es')) = false).
      { rewrite Hj. cbn. destruct (Ascii.eqb_spec c "/"%char); congruence. }
      rewrite Hroot. unfold filepath.elements.
      rewrite split_acc_join_elements by exact Hes.
      change ("" ++ e)%string with e.
      rewrite filter_path_elements by exact Hes.
      apply (ancestors_from_last (e :: es') ""). discriminate.
Qed.

Lemma MkdirAll_makes_directory (path : string) (f f' : os.FS) :
  os.implicit_dir (filepath.Clean path) = false ->
  os.MkdirAll (filepath.Clean path) f = (f', None) ->
  exists t, os.nodes f' !! filepath.Clean path = Some (os.Directory t).
Proof.
  intros Himp Hmk. destruct (Clean_render path) as (r & es & Hes & Hc).
  rewrite Hc in *. unfold os.MkdirAll in Hmk.
  destruct (mkdir_each_keeps_directories _ _ _ Hmk) as (_ & _ & Hall).
  apply Hall. pose proof (ancestors_of_rendered r es Hes Himp) as Hlast.
  apply last_Some in Hlast. destruct Hlast as [l' ->].
  apply elem_of_app. right. apply elem_of_cons. left. reflexivity.
Qed.

Lemma Join_is_cleaned (a b : string) :
  filepath.Join a b <> "" -> exists x, filepath.Join a b = filepath.Clean x.
Proof.
  unfold filepath.Join.
  destruct (negb (String.eqb a "")); [eauto|].
  destruct (negb (String.eqb b "")); [eauto|]. congruence.
Qed.


(** X18: After [CreateDir] has succeeded the path is a directory: its metadata
    says so. (The joined path is not empty, the root or the working
    directory.) *)
Theorem LocalStorage_CreateDir_makes_directory (dir_size : Z)
  (s : LocalStorageConfig.t) (dirPath : string) (w w' : LocalStorage.World) :
  local_path s dirPath <> "" ->
  os.implicit_dir (local_path s dirPath) = false ->
  LocalStorage.CreateDir s dirPath w = (w', None) ->
  exists t : Time,
    LocalStorage.GetMetadata dir_size s dirPath w'
    = (w', Ok {| Name := dirPath; Size := dir_size; ModTime := t;
                 IsDir := true; MIMEType := "application/octet-stream" |}).
Proof.
  unfold local_path, LocalStorage.CreateDir. intros Hne Himp.
  destruct (Join_is_cleaned _ _ Hne) as [x Hx].
  destruct (os.MkdirAll _ (LocalStorage.fs w)) as [fs1 [e|]] eqn:Hmk; [discriminate|].
  intros H. injection H as <-.
  rewrite Hx in Hmk, Himp.
  destruct (MkdirAll_makes_directory x _ _ Himp Hmk) as [t Ht].
  exists t. unfold LocalStorage.GetMetadata, os.Stat.
  cbn [LocalStorage.fs LocalStorage.set_fs]. rewrite Hx, Ht. reflexivity.
Qed.

Lemma LocalStorage_CreateDir_makes_directory_witness :
  exists t : Time,
    LocalStorage.GetMetadata 4096 local_cfg "a/b"
      (fst (LocalStorage.CreateDir local_cfg "a/b" empty_host))
    = (fst (LocalStorage.CreateDir local_cfg "a/b" empty_host),
       Ok {| Name := "a/b"; Size := 4096; ModTime := t;
             IsDir := true; MIMEType := "application/octet-stream" |}).
Proof.
  apply (LocalStorage_CreateDir_makes_directory 4096 local_cfg "a/b" empty_host).
  - vm_compute. discriminate.
  - vm_compute. reflexivity.
  - vm_compute. reflexivity.
Defined.



(** ** The flat-store backends: rename, copy, delete *)

Lemma store_copy_copies (src dst : string) (c : list byte) (b : store.Bucket) :
  store.fault b dst = None -> holds b src c ->
  store.copy src dst b
  = (store.set_objects (<[dst := c]> (store.objects b))
       (store.record (store.ReqPut dst) b), None).
Proof.
  intros Hdst [Hsrc Hobj]. unfold store.copy, store.fetch.
  cbn [store.record store.fault store.objects]. rewrite Hdst, Hsrc, Hobj.
  reflexivity.
Qed.

(** On the OSS backend a rename between two different keys, on which the
    service does not fail, succeeds when the old key holds an object:
    afterwards the new key holds its bytes, the old key holds nothing and
    every other key is as before. *)
Lemma OSS_Rename_moves_object (s : OSSStorageConfig.t)
  (oldPath newPath : string) (c : list byte) (b : store.Bucket) :
  oss_key s oldPath <> oss_key s newPath ->
  holds b (oss_key s oldPath) c ->
  store.fault b (oss_key s newPath) = None ->
  exists b' : store.Bucket,
    OSSStorage.Rename s oldPath newPath b = (b', None)
    /\ store.objects b' !! oss_key s newPath = Some c
    /\ store.objects b' !! oss_key s oldPath = None
    /\ forall k, k <> oss_key s oldPath -> k <> oss_key s newPath ->
                 store.objects b' !! k = store.objects b !! k.
Proof.
  unfold oss_key. intros Hne Hold Hnew.
  unfold OSSStorage.Rename, oss.CopyObject.
  rewrite (store_copy_copies _ _ c b Hnew Hold).
  unfold OSSStorage.Delete, oss.DeleteObject, store.remove.
  cbn [store.record store.fault store.objects store.set_objects].
  rewrite (proj1 Hold). eexists. split; [reflexivity|].
  cbn [store.objects store.set_objects]. split; [|split].
  - rewrite lookup_delete_ne by congruence. apply lookup_insert_eq.
  - apply lookup_delete_eq.
  - intros k Hk1 Hk2. rewrite lookup_delete_ne by congruence.
    apply lookup_insert_ne. congruence.
Qed.

(** X20: On the OSS backend a rename of a path onto itself, under the same or
    another spelling, loses the object whenever it reports success: the key
    is deleted after the copy onto itself. *)
Theorem OSS_Rename_onto_itself_loses_object (s : OSSStorageConfig.t)
  (oldPath newPath : string) (b b' : store.Bucket) :
  oss_key s oldPath = oss_key s newPath ->
  OSSStorage.Rename s oldPath newPath b = (b', None) ->
  store.objects b' !! oss_key s oldPath = None.
Proof.
  unfold oss_key. intros Heq. unfold OSSStorage.Rename.
  destruct (oss.CopyObject _ _ b) as [b1 [e|]]; [discriminate|].
  unfold OSSStorage.Delete, oss.DeleteObject, store.remove.
  cbn [store.record store.fault].
  destruct (store.fault b1 _); [discriminate|].
  intros H. injection H as <-. cbn [store.objects store.set_objects store.record].
  apply lookup_delete_eq.
Qed.

Lemma OSS_Rename_onto_itself_loses_object_witness :
  store.objects
    (fst (OSSStorage.Rename oss_cfg "a.txt" "./a.txt"
            (bucket_with "base/a.txt" (list_byte_of_string "hello"))))
    !! oss_key oss_cfg "a.txt" = None.
Proof.
  apply (OSS_Rename_onto_itself_loses_object oss_cfg "a.txt" "./a.txt"
           (bucket_with "base/a.txt" (list_byte_of_string "hello"))).
  - vm_compute. reflexivity.
  - vm_compute. reflexivity.
Defined.

(** On the MinIO backend a rename between two different, non-empty keys on
    which the service does not fail succeeds when the old key holds an
    object, with the same effect. *)
Lemma MinIO_Rename_moves_object (s : MinIOStorageConfig.t)
  (oldPath newPath : string) (c : list byte) (b : store.Bucket) :
  minio_key s oldPath <> minio_key s newPath ->
  minio_key s oldPath <> "" -> minio_key s newPath <> "" ->
  holds b (minio_key s oldPath) c ->
  store.fault b (minio_key s newPath) = None ->
  exists b' : store.Bucket,
    MinIOStorage.Rename s oldPath newPath b = (b', None)
    /\ store.objects b' !! minio_key s newPath = Some c
    /\ store.objects b' !! minio_key s oldPath = None
    /\ forall k, k <> minio_key s oldPath -> k <> minio_key s newPath ->
                 store.objects b' !! k = store.objects b !! k.
Proof.
  unfold minio_key. intros Hne Ho Hn Hold Hnew.
  unfold MinIOStorage.Rename, minio.CopyObject.
  apply eqb_false_ne in Ho, Hn. rewrite Ho, Hn. cbn [orb].
  apply eqb_false_ne in Hne. rewrite Hne.
  rewrite (store_copy_copies _ _ c b Hnew Hold).
  unfold MinIOStorage.Delete, minio.RemoveObject, store.remove. rewrite Ho.
  cbn [store.record store.fault store.objects store.set_objects].
  rewrite (proj1 Hold). eexists. split; [reflexivity|].
  cbn [store.objects store.set_objects]. apply eqb_false_ne in Hne.
  split; [|split].
  - rewrite lookup_delete_ne by congruence. apply lookup_insert_eq.
  - apply lookup_delete_eq.
  - intros k Hk1 Hk2. rewrite lookup_delete_ne by congruence.
    apply lookup_insert_ne. congruence.
Qed.

(** X21: On both flat-store backends a rename between two different keys moves
    the object: when the old key holds an object and the service does not
    fail on the new key, the call succeeds, the new key then holds the bytes,
    the old key holds nothing, and every other key is as before. (On MinIO
    the keys are not empty.) *)
Theorem flat_store_Rename_moves_object (so : OSSStorageConfig.t)
  (sm : MinIOStorageConfig.t) (oldPath newPath : string) (c : list byte)
  (b : store.Bucket) :
  (oss_key so oldPath <> oss_key so newPath ->
   holds b (oss_key so oldPath) c ->
   store.fault b (oss_key so newPath) = None ->
   exists b' : store.Bucket,
     OSSStorage.Rename so oldPath newPath b = (b', None)
     /\ store.objects b' !! oss_key so newPath = Some c
     /\ store.objects b' !! oss_key so oldPath = None
     /\ forall k, k <> oss_key so oldPath -> k <> oss_key so newPath ->
                  store.objects b' !! k = store.objects b !! k)
  /\ (minio_key sm oldPath <> minio_key sm newPath ->
      minio_key sm oldPath <> "" -> minio_key sm newPath <> "" ->
      holds b (minio_key sm oldPath) c ->
      store.fault b (minio_key sm newPath) = None ->
      exists b' : store.Bucket,
        MinIOStorage.Move sm oldPath newPath b = (b', None)
        /\ store.objects b' !! minio_key sm newPath = Some c
        /\ store.objects b' !! minio_key sm oldPath = None
        /\ forall k, k <> minio_key sm oldPath -> k <> minio_key sm newPath ->
                     store.objects b' !! k = store.objects b !! k).
Proof.
  split.
  - apply OSS_Rename_moves_object.
  - unfold MinIOStorage.Move. apply MinIO_Rename_moves_object.
Qed.

Lemma flat_store_Rename_moves_object_witness :
  (exists b' : store.Bucket,
     OSSStorage.Rename oss_cfg "a.txt" "b.txt"
       (bucket_with "base/a.txt" (list_byte_of_string "hello")) = (b', None)
     /\ store.objects b' !! oss_key oss_cfg "b.txt"
        = Some (list_byte_of_string "hello")
     /\ store.objects b' !! oss_key oss_cfg "a.txt" = None
     /\ forall k, k <> oss_key oss_cfg "a.txt" -> k <> oss_key oss_cfg "b.txt" ->
                  store.objects b' !! k
                  = store.objects (bucket_with "base/a.txt"
                                     (list_byte_of_string "hello")) !! k)
  /\ (exists b' : store.Bucket,
        MinIOStorage.Move minio_cfg "a.txt" "b.txt"
          (bucket_with "base/a.txt" (list_byte_of_string "hello")) = (b', None)
        /\ store.objects b' !! minio_key minio_cfg "b.txt"
           = Some (list_byte_of_string "hello")
        /\ store.objects b' !! minio_key minio_cfg "a.txt" = None
        /\ forall k, k <> minio_key minio_cfg "a.txt" ->
                     k <> minio_key minio_cfg "b.txt" ->
                     store.objects b' !! k
                     = store.objects (bucket_with "base/a.txt"
                                        (list_byte_of_string "hello")) !! k).
Proof.
  split.
  - apply (proj1 (flat_store_Rename_moves_object oss_cfg minio_cfg "a.txt" "b.txt"
                    (list_byte_of_string "hello")
                    (bucket_with "base/a.txt" (list_byte_of_string "hello")))).
    + vm_compute. discriminate.
    + split; vm_compute; reflexivity.
    + reflexivity.
  - apply (proj2 (flat_store_Rename_moves_object oss_cfg minio_cfg "a.txt" "b.txt"
                    (list_byte_of_string "hello")
                    (bucket_with "base/a.txt" (list_byte_of_string "hello")))).
    + vm_compute. discriminate.
    + vm_compute. discriminate.
    + vm_compute. discriminate.
    + split; vm_compute; reflexivity.
    + reflexivity.
Defined.

(** X22: On both flat-store backends a copy between two different, non-empty keys
    succeeds when the source key holds an object and the service does not
    fail: the destination then holds the same bytes and nothing else
    changes, the source included. *)
Theorem flat_store_Copy_copies_object (so : OSSStorageConfig.t)
  (sm : MinIOStorageConfig.t) (srcPath dstPath : string) (c : list byte)
  (b : store.Bucket) :
  (holds b (oss_key so srcPath) c ->
   store.fault b (oss_key so dstPath) = None ->
   exists b' : store.Bucket,
     OSSStorage.Copy so srcPath dstPath b = (b', None)
     /\ store.objects b' = <[oss_key so dstPath := c]> (store.objects b))
  /\ (holds b (minio_key sm srcPath) c ->
      store.fault b (minio_key sm dstPath) = None ->
      minio_key sm srcPath <> minio_key sm dstPath ->
      minio_key sm srcPath <> "" -> minio_key sm dstPath <> "" ->
      exists b' : store.Bucket,
        MinIOStorage.Copy sm srcPath dstPath b = (b', None)
        /\ store.objects b' = <[minio_key sm dstPath := c]> (store.objects b)).
Proof.
  unfold oss_key, minio_key. split.
  - intros Hsrc Hdst. unfold OSSStorage.Copy, oss.CopyObject.
    rewrite (store_copy_copies _ _ c b Hdst Hsrc). eexists. split; reflexivity.
  - intros Hsrc Hdst Hne Hs Hd. unfold MinIOStorage.Copy, minio.CopyObject.
    apply eqb_false_ne in Hne, Hs, Hd. rewrite Hs, Hd, Hne. cbn [orb].
    rewrite (store_copy_copies _ _ c b Hdst Hsrc). eexists. split; reflexivity.
Qed.

Lemma flat_store_Copy_copies_object_witness :
  (exists b' : store.Bucket,
     OSSStorage.Copy oss_cfg "a.txt" "b.txt"
       (bucket_with "base/a.txt" (list_byte_of_string "hello")) = (b', None)
     /\ store.objects b'
        = <[oss_key oss_cfg "b.txt" := list_byte_of_string "hello"]>
            (store.objects (bucket_with "base/a.txt" (list_byte_of_string "hello"))))
  /\ (exists b' : store.Bucket,
        MinIOStorage.Copy minio_cfg "a.txt" "b.txt"
          (bucket_with "base/a.txt" (list_byte_of_string "hello")) = (b', None)
        /\ store.objects b'
           = <[minio_key minio_cfg "b.txt" := list_byte_of_string "hello"]>
               (store.objects (bucket_with "base/a.txt"
                                 (list_byte_of_string "hello")))).
Proof.
  split.
  - apply (proj1 (flat_store_Copy_copies_object oss_cfg minio_cfg
                    "a.txt" "b.txt" (list_byte_of_string "hello")
                    (bucket_with "base/a.txt" (list_byte_of_string "hello")))).
    + split; vm_compute; reflexivity.
    + reflexivity.
  - apply (proj2 (flat_store_Copy_copies_object oss_cfg minio_cfg
                    "a.txt" "b.txt" (list_byte_of_string "hello")
                    (bucket_with "base/a.txt" (list_byte_of_string "hello")))).
    + split; vm_compute; reflexivity.
    + reflexivity.
    + vm_compute. discriminate.
    + vm_compute. discriminate.
    + vm_compute. discriminate.
Defined.

(** X23: On the OSS backend a delete succeeds whenever the service does not fail
    on the key, whether or not the key holds an object; afterwards the key
    holds nothing, the other keys are as before, and a download of the path
    fails with the no-such-key error. *)
Theorem OSS_Delete_then_not_found (s : OSSStorageConfig.t) (filePath : string)
  (b : store.Bucket) :
  store.fault b (oss_key s filePath) = None ->
  exists b1 b2 : store.Bucket,
    OSSStorage.Delete s filePath b = (b1, None)
    /\ store.objects b1 = delete (oss_key s filePath) (store.objects b)
    /\ OSSStorage.Download s filePath b1 = (b2, Err NoSuchKey).
Proof.
  unfold oss_key. intros Hfault.
  unfold OSSStorage.Delete, oss.DeleteObject, store.remove.
  cbn [store.record store.fault]. rewrite Hfault.
  eexists _, _. split; [reflexivity|]. split; [reflexivity|].
  unfold OSSStorage.Download, oss.GetObject, store.fetch.
  cbn [store.record store.fault store.objects store.set_objects].
  rewrite Hfault, lookup_delete_eq. reflexivity.
Qed.

Lemma OSS_Delete_then_not_found_witness :
  exists b1 b2 : store.Bucket,
    OSSStorage.Delete oss_cfg "never-there.txt" empty_bucket = (b1, None)
    /\ store.objects b1
       = delete (oss_key oss_cfg "never-there.txt") (store.objects empty_bucket)
    /\ OSSStorage.Download oss_cfg "never-there.txt" b1 = (b2, Err NoSuchKey).
Proof.
  apply (OSS_Delete_then_not_found oss_cfg "never-there.txt" empty_bucket).
  reflexivity.
Defined.

Lemma OSS_CreateDir_when_present (s : OSSStorageConfig.t) (dirPath : string)
  (b : store.Bucket) :
  let fullKey :=
    filepath.Join (OSSStorageConfig.BaseDir s) (ensureOSSDirPath dirPath) in
  store.fault b fullKey = None ->
  is_Some (store.objects b !! fullKey) ->
  OSSStorage.CreateDir s dirPath b
  = (store.record (store.ReqHead fullKey) b, None).
Proof.
  intros fullKey Hfault Hsome. unfold OSSStorage.CreateDir. fold fullKey.
  unfold oss.IsObjectExist, store.head.
  cbn [store.record store.fault store.objects].
  rewrite Hfault, bool_decide_eq_true_2 by exact Hsome. reflexivity.
Qed.

Lemma put_keys_record_head (key : string) (b : store.Bucket) :
  put_keys (store.log (store.record (store.ReqHead key) b))
  = put_keys (store.log b).
Proof.
  cbn [store.log store.record]. unfold put_keys. rewrite flat_map_app.
  cbn. apply app_nil_r.
Qed.

(** X24: [CreateDir] of the OSS backend is idempotent: after it has succeeded,
    the same call succeeds again, uploads nothing and leaves the objects as
    they are. *)
Theorem OSS_CreateDir_idempotent (s : OSSStorageConfig.t) (dirPath : string)
  (b b1 : store.Bucket) :
  OSSStorage.CreateDir s dirPath b = (b1, None) ->
  exists b2 : store.Bucket,
    OSSStorage.CreateDir s dirPath b1 = (b2, None)
    /\ store.objects b2 = store.objects b1
    /\ put_keys (store.log b2) = put_keys (store.log b1).
Proof.
  intros Hfirst.
  set (fullKey := filepath.Join (OSSStorageConfig.BaseDir s)
                                (ensureOSSDirPath dirPath)).
  assert (Hb1 : store.fault b1 fullKey = None
                /\ is_Some (store.objects b1 !! fullKey)).
  { revert Hfirst. unfold OSSStorage.CreateDir. fold fullKey.
    unfold oss.IsObjectExist, store.head.
    cbn [store.record store.fault store.objects].
    destruct (store.fault b fullKey) eqn:Hfault; [discriminate|].
    destruct (bool_decide (is_Some (store.objects b !! fullKey))) eqn:Hex.
    - intros H. injection H as <-. apply bool_decide_eq_true_1 in Hex.
      split; assumption.
    - unfold oss.PutObject, store.put.
      cbn [store.record store.fault failure content NewReader]. rewrite Hfault.
      intros H. injection H as <-.
      cbn [store.fault store.objects store.set_objects store.record].
      split; [exact Hfault|]. rewrite lookup_insert_eq. eauto. }
  destruct Hb1 as [Hfault Hsome].
  rewrite (OSS_CreateDir_when_present s dirPath b1 Hfault Hsome).
  eexists. split; [reflexivity|]. split; [reflexivity|].
  apply put_keys_record_head.
Qed.

Lemma OSS_CreateDir_idempotent_witness :
  exists b2 : store.Bucket,
    OSSStorage.CreateDir oss_cfg "dir"
      (fst (OSSStorage.CreateDir oss_cfg "dir" empty_bucket)) = (b2, None)
    /\ store.objects b2
       = store.objects (fst (OSSStorage.CreateDir oss_cfg "dir" empty_bucket))
    /\ put_keys (store.log b2)
       = put_keys (store.log (fst (OSSStorage.CreateDir oss_cfg "dir" empty_bucket))).
Proof.
  apply (OSS_CreateDir_idempotent oss_cfg "dir" empty_bucket).
  vm_compute. reflexivity.
Defined.

(** ** The OSS backend: what a listing keeps and says *)

Lemma prefix_append (pre s : string) :
  String.prefix pre s = true <-> exists rest, s = (pre ++ rest)%string.
Proof.
  revert s. induction pre as [|a pre IH]; intros s.
  - split; [intros _; exists s; reflexivity|]. destruct s; reflexivity.
  - destruct s as [|c s].
    + split; [discriminate|]. intros [rest H]. discriminate.
    + cbn [String.prefix]. destruct (ascii_dec a c) as [->|Hne].
      * rewrite IH. split.
        -- intros [rest ->]. exists rest. reflexivity.
        -- intros [rest H]. injection H as ->. exists rest. reflexivity.
      * split; [discriminate|]. intros [rest H]. injection H as -> _.
        congruence.
Qed.

Lemma string_drop_append (pre rest : string) :
  string_drop (String.length pre) (pre ++ rest) = rest.
Proof. induction pre as [|a pre IH]; [reflexivity|]. exact IH. Qed.

Lemma append_inj (pre a b : string) : (pre ++ a = pre ++ b)%string -> a = b.
Proof.
  induction pre as [|c pre IH]; [auto|]. intros H. injection H as H. auto.
Qed.

Lemma append_empty_r (s : string) : (s ++ "")%string = s.
Proof.
  induction s as [|x s IH]; [reflexivity|].
  change (String x s ++ "")%string with (String x (s ++ "")).
  rewrite IH. reflexivity.
Qed.

(** The test of the listing loops keeps exactly the listed keys that extend
    the joined key by something other than nothing or a lone separator. The
    extension need not begin with a separator: since the joined key has no
    trailing separator, the keys of a sibling whose name begins with the
    name of the directory pass as well. *)
Theorem under_prefix_iff (fullKey : string) (object : oss.ObjectProperties) :
  OSSStorage.under_prefix fullKey object = true
  <-> exists name : string,
        oss.Key object = (fullKey ++ name)%string /\ name <> "" /\ name <> "/".
Proof.
  unfold OSSStorage.under_prefix, HasPrefix, isDirectoryPlaceholder.
  rewrite andb_true_iff, negb_true_iff, orb_false_iff, prefix_append.
  rewrite !eqb_false_ne. split.
  - intros [[name Hname] [H1 H2]]. exists name. split; [exact Hname|].
    split; intros ->; [apply H1|apply H2]; rewrite Hname;
      [apply append_empty_r|reflexivity].
  - intros (name & Hname & H1 & H2). split; [eauto|]. rewrite Hname. split.
    + intros E. apply H1. apply (append_inj fullKey).
      rewrite E. symmetry. apply append_empty_r.
    + intros E. apply H2. apply (append_inj fullKey). exact E.
Qed.

Lemma ListDir_loop_describes (fullKey : string)
  (all : list (Result oss.ListObjectsResult)) :
  forall (responses seen : list (Result oss.ListObjectsResult))
         (marker : string) (acc : list FileMetadata) (b b' : store.Bucket)
         (fileMetas : list FileMetadata),
    all = seen ++ responses ->
    Forall (fun m => exists object,
                on_a_page all object /\ describes fullKey m object) acc ->
    OSSStorage.ListDir_loop fullKey responses marker acc b
      = (b', Some (Ok fileMetas)) ->
    Forall (fun m => exists object,
                on_a_page all object /\ describes fullKey m object) fileMetas.
Proof.
  induction responses as [|resp later IH];
    intros seen marker acc b b' fileMetas Hall Hacc.
  - cbn [OSSStorage.ListDir_loop]. discriminate.
  - cbn [OSSStorage.ListDir_loop]. destruct resp as [page|err]; [|discriminate].
    assert (Hnext : Forall (fun m => exists object,
                on_a_page all object /\ describes fullKey m object)
              (OSSStorage.convert_page fullKey (oss.Objects page) acc)).
    { rewrite convert_page_filter. apply Forall_app. split; [exact Hacc|].
      apply Forall_forall. intros m Hm. apply list_elem_of_In in Hm.
      apply in_map_iff in Hm. destruct Hm as (object & <- & Hin).
      apply List.filter_In in Hin. destruct Hin as [Hin Hkeep].
      exists object. split.
      - exists page. split.
        + rewrite Hall. apply elem_of_app. right. apply elem_of_cons. left.
          reflexivity.
        + apply list_elem_of_In. exact Hin.
      - apply under_prefix_iff in Hkeep. destruct Hkeep as (name & Hk & H1 & H2).
        unfold describes, OSSStorage.fileMeta_of. cbn [Name Size ModTime].
        rewrite Hk, string_drop_append. auto. }
    destruct (length (oss.Objects page) <? OSSStorage.page_limit)%nat.
    + intros H. injection H as _ <-. exact Hnext.
    + apply (IH (seen ++ [Ok page])); [|exact Hnext].
      rewrite Hall, <- app_assoc. reflexivity.
Qed.

(** X25: Every entry [ListDir] of the OSS backend returns describes an object of
    a page the service has returned: the joined key followed by the entry's
    name is the object's key, the name is neither empty nor a lone
    separator, and size and modification time are the object's. *)
Theorem OSS_ListDir_entries_describe_listed_objects (s : OSSStorageConfig.t)
  (dirPath : string) (responses : list (Result oss.ListObjectsResult))
  (b b' : store.Bucket) (fileMetas : list FileMetadata) :
  OSSStorage.ListDir s dirPath responses b = (b', Some (Ok fileMetas)) ->
  Forall (fun m => exists object,
              on_a_page responses object
              /\ describes (oss_key s (ensureOSSDirPath dirPath)) m object)
         fileMetas.
Proof.
  unfold OSSStorage.ListDir, oss_key.
  apply (ListDir_loop_describes _ responses responses []); [reflexivity|constructor].
Qed.

Lemma OSS_ListDir_entries_describe_listed_objects_witness :
  Forall (fun m => exists object,
              on_a_page [Ok closing_page] object
              /\ describes (oss_key oss_cfg (ensureOSSDirPath "dir")) m object)
    [ {| Name := "/sub/"; Size := 3%Z; ModTime := 9%Z; IsDir := false;
         MIMEType := "application/octet-stream" |};
      {| Name := "/z.txt"; Size := 3%Z; ModTime := 9%Z; IsDir := false;
         MIMEType := "application/octet-stream" |} ].
Proof.
  apply (OSS_ListDir_entries_describe_listed_objects oss_cfg "dir"
           [Ok closing_page] empty_bucket
           (fst (OSSStorage.ListDir oss_cfg "dir" [Ok closing_page] empty_bucket))).
  vm_compute. reflexivity.
Defined.




(** ** The MinIO backend: listing *)

Lemma length_append (a b : string) :
  String.length (a ++ b) = String.length a + String.length b.
Proof.
  induction a as [|x a IH]; [reflexivity|].
  change (String x a ++ b)%string with (String x (a ++ b)).
  cbn [String.length]. rewrite IH. reflexivity.
Qed.

Lemma MinIO_fileMeta_of_well_listed (fullKey : string)
  (object : minio.ObjectInfo) :
  well_listed fullKey object ->
  exists m, MinIOStorage.fileMeta_of fullKey object = Returns m
            /\ describes_info fullKey object m.
Proof.
  intros (_ & Hne & Hpre). unfold MinIOStorage.fileMeta_of.
  apply prefix_append in Hpre. destruct Hpre as [rest Hk].
  replace (String.length (minio.Key object) <? String.length fullKey)%nat
    with false
    by (symmetry; apply Nat.ltb_ge; rewrite Hk, length_append; lia).
  destruct (last_byte (minio.Key object)) as [c|] eqn:El.
  - eexists. split; [reflexivity|]. unfold describes_info, ends_with_separator.
    cbn [Name IsDir Size ModTime MIMEType].
    rewrite El. rewrite Hk at 1 2. rewrite string_drop_append. auto.
  - apply last_byte_none in El. contradiction.
Qed.

Lemma MinIO_ListDir_range_keeps (fullKey : string)
  (listing : list minio.ObjectInfo) :
  Forall (well_listed fullKey) listing ->
  forall acc : list FileMetadata,
  exists metas : list FileMetadata,
    MinIOStorage.ListDir_range fullKey listing acc = Returns (Ok (acc ++ metas))
    /\ Forall2 (describes_info fullKey) listing metas.
Proof.
  induction 1 as [|object rest Hobj _ IH]; intros acc.
  - exists []. rewrite app_nil_r. split; [reflexivity|constructor].
  - cbn [MinIOStorage.ListDir_range]. rewrite (proj1 Hobj).
    destruct (MinIO_fileMeta_of_well_listed _ _ Hobj) as (m & -> & Hm).
    destruct (IH (acc ++ [m])) as (metas & -> & Hall).
    exists (m :: metas). rewrite <- app_assoc. split; [reflexivity|].
    constructor; assumption.
Qed.

(** X27: [ListDir] of the MinIO backend filters nothing: when the channel
    delivers objects without error whose keys are not empty and start with
    the joined key, it returns one entry per listed object, in the order of
    the listing; the joined key followed by the entry's name is the object's
    key, and the entry is a directory exactly when the key ends in the
    separator. A listed key equal to the joined key gives an entry with an
    empty name. *)
Theorem MinIO_ListDir_keeps_every_listed_object (s : MinIOStorageConfig.t)
  (dirPath : string) (listing : list minio.ObjectInfo) (b : store.Bucket) :
  Forall (well_listed (minio_key s (ensureOSSDirPath dirPath))) listing ->
  exists metas : list FileMetadata,
    snd (MinIOStorage.ListDir s dirPath listing b) = Returns (Ok metas)
    /\ Forall2 (describes_info (minio_key s (ensureOSSDirPath dirPath)))
               listing metas.
Proof.
  intros Hall. unfold MinIOStorage.ListDir, minio_key in *. cbn [snd].
  destruct (MinIO_ListDir_range_keeps _ _ Hall []) as (metas & Hrun & Hdesc).
  exists metas. split; assumption.
Qed.

Lemma MinIO_ListDir_keeps_every_listed_object_witness :
  exists metas : list FileMetadata,
    snd (MinIOStorage.ListDir minio_cfg "dir"
           [listed_info "base/dir"; listed_info "base/dir/sub/"] empty_bucket)
    = Returns (Ok metas)
    /\ Forall2 (describes_info (minio_key minio_cfg (ensureOSSDirPath "dir")))
               [listed_info "base/dir"; listed_info "base/dir/sub/"] metas.
Proof.
  apply (MinIO_ListDir_keeps_every_listed_object minio_cfg "dir"
           [listed_info "base/dir"; listed_info "base/dir/sub/"] empty_bucket).
  repeat constructor; try discriminate.
Defined.

(** ** Batches on the backends *)

(** [BatchDelete] stops at its first failure: when the entries before have
    been deleted and the next delete fails, the batch ends in the world that
    failure leaves and returns its error; the deletions made stay, and the
    entries after it are not looked at. *)
Lemma LocalStorage_BatchDelete_stops_at_first_failure
  (s : LocalStorageConfig.t) (done later : list string) (failing : string)
  (w w1 w2 : LocalStorage.World) (err : error) :
  LocalStorage.BatchDelete s done w = (w1, None) ->
  LocalStorage.Delete s failing w1 = (w2, Some err) ->
  LocalStorage.BatchDelete s (done ++ failing :: later) w = (w2, Some err).
Proof.
  unfold LocalStorage.BatchDelete. revert w.
  induction done as [|p done IH]; intros w Hdone Hfail; simpl in *.
  - injection Hdone as ->. rewrite Hfail. reflexivity.
  - destruct (LocalStorage.Delete s p w) as [w' [e|]]; [discriminate|].
    apply IH; assumption.
Qed.

(** [BatchUpload] stops in the same way: the uploads made before the
    failing entry stay, and the entries after it are not uploaded. *)
Lemma OSS_BatchUpload_stops_at_first_failure
  (s : OSSStorageConfig.t) (done later : list (string * Reader))
  (failing : string * Reader) (b b1 b2 : store.Bucket) (err : error) :
  OSSStorage.BatchUpload s done b = (b1, None) ->
  OSSStorage.Upload s (fst failing) (snd failing) b1 = (b2, Some err) ->
  OSSStorage.BatchUpload s (done ++ failing :: later) b = (b2, Some err).
Proof.
  unfold OSSStorage.BatchUpload. revert b.
  induction done as [|[p r] done IH]; intros b Hdone Hfail; simpl in *.
  - injection Hdone as ->. destruct failing as [p r]. simpl in Hfail.
    rewrite Hfail. reflexivity.
  - destruct (OSSStorage.Upload s p r b) as [b' [e|]]; [discriminate|].
    apply IH; assumption.
Qed.

(** X28: A batch stops at its first failure, on every backend alike: when the
    entries before have been handled and the next one fails, [BatchDelete]
    and [BatchUpload] end in the world that failure leaves and return its
    error; what was done before stays done, and the entries after it are
    not looked at. *)
Theorem Batch_stops_at_first_failure (sl : LocalStorageConfig.t)
  (so : OSSStorageConfig.t)
  (deleted remaining : list string) (missing : string)
  (w w1 w2 : LocalStorage.World)
  (uploaded waiting : list (string * Reader)) (failing : string * Reader)
  (b b1 b2 : store.Bucket) (err : error) :
  (LocalStorage.BatchDelete sl deleted w = (w1, None) ->
   LocalStorage.Delete sl missing w1 = (w2, Some err) ->
   LocalStorage.BatchDelete sl (deleted ++ missing :: remaining) w
   = (w2, Some err))
  /\ (OSSStorage.BatchUpload so uploaded b = (b1, None) ->
      OSSStorage.Upload so (fst failing) (snd failing) b1 = (b2, Some err) ->
      OSSStorage.BatchUpload so (uploaded ++ failing :: waiting) b
      = (b2, Some err)).
Proof.
  split.
  - apply LocalStorage_BatchDelete_stops_at_first_failure.
  - apply OSS_BatchUpload_stops_at_first_failure.
Qed.

Lemma Batch_stops_at_first_failure_witness :
  (LocalStorage.BatchDelete local_cfg (["a.txt"] ++ "missing.txt" :: ["b.txt"])
     two_files
   = (fst (LocalStorage.Delete local_cfg "a.txt" two_files), Some ENOENT)
   /\ node_at (fst (LocalStorage.Delete local_cfg "a.txt" two_files))
              (local_path local_cfg "b.txt")
      = Some (os.File (list_byte_of_string "B") 7%Z))
  /\ OSSStorage.BatchUpload oss_cfg
       ([("a.txt", NewReader (list_byte_of_string "A"))]
          ++ ("b.txt", failing_reader (list_byte_of_string "B") ENOENT)
          :: [("c.txt", NewReader (list_byte_of_string "C"))])
       empty_bucket
     = (fst (OSSStorage.Upload oss_cfg "b.txt"
               (failing_reader (list_byte_of_string "B") ENOENT)
               (fst (OSSStorage.Upload oss_cfg "a.txt"
                       (NewReader (list_byte_of_string "A")) empty_bucket))),
        Some ENOENT).
Proof.
  split; [split|].
  - apply (proj1 (Batch_stops_at_first_failure local_cfg oss_cfg
                    ["a.txt"] ["b.txt"] "missing.txt" two_files
                    (fst (LocalStorage.Delete local_cfg "a.txt" two_files))
                    (fst (LocalStorage.Delete local_cfg "a.txt" two_files))
                    [] [] ("", NewReader []) empty_bucket empty_bucket
                    empty_bucket ENOENT)).
    + vm_compute. reflexivity.
    + vm_compute. reflexivity.
  - vm_compute. reflexivity.
  - apply (proj2 (Batch_stops_at_first_failure local_cfg oss_cfg
                    [] [] "" two_files two_files two_files
                    [("a.txt", NewReader (list_byte_of_string "A"))]
                    [("c.txt", NewReader (list_byte_of_string "C"))]
                    ("b.txt", failing_reader (list_byte_of_string "B") ENOENT)
                    empty_bucket
                    (fst (OSSStorage.Upload oss_cfg "a.txt"
                            (NewReader (list_byte_of_string "A")) empty_bucket))
                    (fst (OSSStorage.Upload oss_cfg "b.txt"
                            (failing_reader (list_byte_of_string "B") ENOENT)
                            (fst (OSSStorage.Upload oss_cfg "a.txt"
                                    (NewReader (list_byte_of_string "A"))
                                    empty_bucket))))
                    ENOENT)).
    + vm_compute. reflexivity.
    + vm_compute. reflexivity.
Defined.

Lemma OSS_BatchDownload_distinct_paths_closes_all_witness :
  exists b' : store.Bucket,
    OSSStorage.BatchDownload oss_cfg
      (["a.txt"; "b.txt"] ++ "missing.txt" :: ["a.txt"]) two_objects
    = (b', Err NoSuchKey)
    /\ live (store.bodies b') = live (store.bodies two_objects).
Proof.
  eapply (OSS_BatchDownload_distinct_paths_closes_all oss_cfg
            ["a.txt"; "b.txt"] ["a.txt"] "missing.txt" _ two_objects _ _ NoSuchKey).
  - apply (bool_decide_unpack _). vm_compute. exact I.
  - intros id Hid. exfalso. revert Hid. apply not_elem_of_empty.
  - vm_compute. reflexivity.
  - vm_compute. reflexivity.
Defined.

(** ** ChunkedReader *)

Lemma ChunkedReader_limit (chunkSize : Z) (len_p : nat) :
  (0 <= chunkSize)%Z ->
  ((if (Z.of_nat len_p >? chunkSize)%Z then chunkSize else Z.of_nat len_p) <? 0)%Z
  = false
  /\ Z.to_nat (if (Z.of_nat len_p >? chunkSize)%Z then chunkSize else Z.of_nat len_p)
     = Nat.min len_p (Z.to_nat chunkSize).
Proof.
  intros H. destruct (Z.of_nat len_p >? chunkSize)%Z eqn:E.
  - apply Z.gtb_lt in E. split; [apply Z.ltb_ge; lia|lia].
  - rewrite Z.gtb_ltb in E. apply Z.ltb_ge in E. split; [apply Z.ltb_ge; lia|lia].
Qed.

Lemma read_until_EOF_bytes (chunkSize : Z) (len_p : nat) :
  (0 < chunkSize)%Z -> 0 < len_p ->
  forall (fuel : nat) (data acc : list byte),
    length data < fuel ->
    read_until_EOF bytes_Read fuel len_p
      (ChunkedReader.NewChunkedReader data chunkSize) acc
    = Complete (acc ++ data).
Proof.
  intros Hc Hp.
  destruct (ChunkedReader_limit chunkSize len_p ltac:(lia)) as [Hlim Hn].
  induction fuel as [|fuel IH]; intros data acc Hlen; [lia|].
  cbn [read_until_EOF]. unfold ChunkedReader.Read, ChunkedReader.NewChunkedReader.
  cbn [ChunkedReader.chunkSize ChunkedReader.reader]. rewrite Hlim, Hn.
  destruct data as [|x data].
  - reflexivity.
  - cbn [bytes_Read fst snd].
    change (ChunkedReader.mk (drop (Nat.min len_p (Z.to_nat chunkSize)) (x :: data))
                             chunkSize)
      with (ChunkedReader.NewChunkedReader
              (drop (Nat.min len_p (Z.to_nat chunkSize)) (x :: data)) chunkSize).
    rewrite IH.
    + rewrite <- app_assoc, take_drop. reflexivity.
    + rewrite length_drop. cbn [length] in *. lia.
Qed.

(** X29: Reading through a [ChunkedReader] with a positive chunk size loses
    nothing: a consumer that reads the bytes [data] through it, into a
    buffer that is not empty, until the end, gets exactly [data], and no
    single read returns more than the chunk size. *)
Theorem ChunkedReader_delivers_every_byte (chunkSize : Z) (len_p fuel : nat)
  (data : list byte) :
  (0 < chunkSize)%Z -> 0 < len_p -> length data < fuel ->
  read_until_EOF bytes_Read fuel len_p
    (ChunkedReader.NewChunkedReader data chunkSize) [] = Complete data
  /\ exists (rest got : list byte) (st : ReadStatus),
       ChunkedReader.Read bytes_Read
         (ChunkedReader.NewChunkedReader data chunkSize) len_p
       = Returns (ChunkedReader.NewChunkedReader rest chunkSize, (got, st))
       /\ (Z.of_nat (length got) <= chunkSize)%Z /\ length got <= len_p
       /\ data = got ++ rest.
Proof.
  intros Hc Hp Hlen. split.
  - apply (read_until_EOF_bytes chunkSize len_p Hc Hp fuel data [] Hlen).
  - destruct (ChunkedReader_limit chunkSize len_p ltac:(lia)) as [Hlim Hn].
    unfold ChunkedReader.Read, ChunkedReader.NewChunkedReader.
    cbn [ChunkedReader.chunkSize ChunkedReader.reader]. rewrite Hlim, Hn.
    destruct data as [|x data].
    + exists [], [], ReadEOF. cbn. repeat split; lia.
    + eexists _, _, _. split; [reflexivity|].
      rewrite length_take. split; [lia|]. split; [lia|].
      symmetry. apply take_drop.
Qed.

Lemma ChunkedReader_delivers_every_byte_witness :
  read_until_EOF bytes_Read 12 4
    (ChunkedReader.NewChunkedReader (list_byte_of_string "hello world") 3) []
  = Complete (list_byte_of_string "hello world")
  /\ exists (rest got : list byte) (st : ReadStatus),
       ChunkedReader.Read bytes_Read
         (ChunkedReader.NewChunkedReader (list_byte_of_string "hello world") 3) 4
       = Returns (ChunkedReader.NewChunkedReader rest 3, (got, st))
       /\ (Z.of_nat (length got) <= 3)%Z /\ length got <= 4
       /\ list_byte_of_string "hello world" = got ++ rest.
Proof.
  apply (ChunkedReader_delivers_every_byte 3 4 12
           (list_byte_of_string "hello world")).
  - lia.
  - lia.
  - vm_compute. lia.
Defined.

(** X30: A [ChunkedReader] whose chunk size is not positive delivers nothing:
    with chunk size zero it hands the underlying reader an empty buffer, so
    a consumer of bytes that are there never gets one, however often it
    reads; with a negative chunk size every [Read] panics. *)
Theorem ChunkedReader_without_positive_chunk (chunkSize : Z) (len_p fuel : nat)
  (x : byte) (data : list byte) :
  (chunkSize = 0%Z ->
   read_until_EOF bytes_Read fuel len_p
     (ChunkedReader.NewChunkedReader (x :: data) chunkSize) [] = Unfinished [])
  /\ ((chunkSize < 0)%Z ->
      ChunkedReader.Read bytes_Read
        (ChunkedReader.NewChunkedReader (x :: data) chunkSize) len_p = Panics).
Proof.
  split.
  - intros ->. induction fuel as [|fuel IH]; [reflexivity|].
    cbn [read_until_EOF]. unfold ChunkedReader.Read, ChunkedReader.NewChunkedReader.
    cbn [ChunkedReader.chunkSize ChunkedReader.reader].
    destruct (ChunkedReader_limit 0 len_p ltac:(lia)) as [Hlim Hn].
    rewrite Hlim, Hn. rewrite Nat.min_0_r. cbn [bytes_Read fst snd drop take app].
    exact IH.
  - intros Hneg. unfold ChunkedReader.Read, ChunkedReader.NewChunkedReader.
    cbn [ChunkedReader.chunkSize ChunkedReader.reader].
    replace (Z.of_nat len_p >? chunkSize)%Z with true
      by (symmetry; apply Z.gtb_lt; lia).
    replace (chunkSize <? 0)%Z with true by (symmetry; apply Z.ltb_lt; lia).
    reflexivity.
Qed.

Lemma ChunkedReader_without_positive_chunk_witness :
  read_until_EOF bytes_Read 100 4
    (ChunkedReader.NewChunkedReader ("h"%byte :: list_byte_of_string "ello") 0) []
  = Unfinished []
  /\ ChunkedReader.Read bytes_Read
       (ChunkedReader.NewChunkedReader ("h"%byte :: list_byte_of_string "ello") (-1)) 4
     = Panics.
Proof.
  split.
  - apply (proj1 (ChunkedReader_without_positive_chunk 0 4 100 "h"%byte
                    (list_byte_of_string "ello"))). reflexivity.
  - apply (proj2 (ChunkedReader_without_positive_chunk (-1) 4 100 "h"%byte
                    (list_byte_of_string "ello"))). lia.
Defined.
